(** * Fund list extractor: [scripts/generate_fund_list.py]

    A shallow embedding of the script and of the library routines it calls
    (text decoding, [str.strip], [str.split], [list.index], [csv.reader],
    [json.dump]), followed by the properties of the extractor.

    Conventions.
    - A Python [str] is the list of its Unicode code points ([Z]).
    - A [bytes] object is the list of its octets ([Z], each in [0, 256)).
    - A Python [dict] is the list of its items in insertion order.
    - A call that may raise returns a [result]. *)

From Stdlib Require Import String Ascii ZArith List Bool Lia.
Import ListNotations.

Local Open Scope Z_scope.

(** ** Values *)

Definition str := list Z.
Definition bytes := list Z.

(** Items of a [dict] whose keys and values are strings. *)
Definition pydict := list (str * str).

Inductive exn : Type :=
| FileNotFoundError
| UnicodeDecodeError
| UnicodeEncodeError
| StopIteration
| CsvError.

Inductive result (A : Type) : Type :=
| Ok (a : A)
| Raise (e : exn).

Arguments Ok {A} a.
Arguments Raise {A} e.

(** ASCII literals of the source, as code points. *)
Definition ord (a : ascii) : Z := Z.of_nat (nat_of_ascii a).
Definition lit (s : string) : str := List.map ord (list_ascii_of_string s).

Definition LF : Z := 10.
Definition CR : Z := 13.
Definition COMMA : Z := 44.
Definition DQUOTE : Z := 34.
Definition BACKSLASH : Z := 92.

Fixpoint str_eqb (a b : str) : bool :=
  match a, b with
  | [], [] => true
  | x :: a', y :: b' => (x =? y) && str_eqb a' b'
  | _, _ => false
  end.

(** Truth value of a string: [if s:]. *)
Definition truthy (s : str) : bool :=
  match s with [] => false | _ :: _ => true end.

(** ** [str] methods *)

(** [str.isspace] on one code point: the characters CPython's
    [_PyUnicode_IsWhitespace] accepts. *)
Definition isspace (c : Z) : bool :=
  ((9 <=? c) && (c <=? 13)) || ((28 <=? c) && (c <=? 32)) ||
  (c =? 133) || (c =? 160) || (c =? 5760) ||
  ((8192 <=? c) && (c <=? 8202)) ||
  (c =? 8232) || (c =? 8233) || (c =? 8239) || (c =? 8287) || (c =? 12288).

Fixpoint lstrip (s : str) : str :=
  match s with
  | [] => []
  | c :: s' => if isspace c then lstrip s' else s
  end.

Definition rstrip (s : str) : str := rev (lstrip (rev s)).

(** [s.strip()] *)
Definition strip (s : str) : str := rstrip (lstrip s).

(** [s.split(sep)] for a one-character separator. *)
Fixpoint split (sep : Z) (s : str) : list str :=
  match s with
  | [] => [[]]
  | c :: s' =>
      if c =? sep then [] :: split sep s'
      else match split sep s' with
           | [] => [[c]]
           | w :: ws => (c :: w) :: ws
           end
  end.

(** [l.index(x)]: the position of the first element equal to [x];
    [None] stands for [ValueError]. *)
Fixpoint index (x : str) (l : list str) : option nat :=
  match l with
  | [] => None
  | y :: l' =>
      if str_eqb y x then Some O
      else match index x l' with
           | Some i => Some (S i)
           | None => None
           end
  end.

(** ** [csv.reader] with the default (excel) dialect

    delimiter comma, quote character the double quote, [doublequote=True], no escape
    character, [skipinitialspace=False], [strict=False], [QUOTE_MINIMAL].
    The parser states that need an escape character are unreachable and are
    left out. *)

Module Csv.

Inductive ParserState : Type :=
| START_RECORD
| START_FIELD
| IN_FIELD
| IN_QUOTED_FIELD
| QUOTE_IN_QUOTED_FIELD
| EAT_CRNL.

Definition state_eqb (a b : ParserState) : bool :=
  match a, b with
  | START_RECORD, START_RECORD
  | START_FIELD, START_FIELD
  | IN_FIELD, IN_FIELD
  | IN_QUOTED_FIELD, IN_QUOTED_FIELD
  | QUOTE_IN_QUOTED_FIELD, QUOTE_IN_QUOTED_FIELD
  | EAT_CRNL, EAT_CRNL => true
  | _, _ => false
  end.

(** What the parser is fed: a character of the line, or the end-of-line
    mark sent after the last character of each line. *)
Inductive sym : Type :=
| Chr (c : Z)
| EOL.

(** [csv.field_size_limit()] *)
Definition field_limit : Z := 131072.

Record ReaderObj : Type := mkReader {
  state : ParserState;
  fields : list str;     (* the fields of the record so far *)
  field : str;           (* the field being read, last character first *)
  field_len : Z          (* the number of characters in [field] *)
}.

Definition set_state (self : ReaderObj) (s : ParserState) : ReaderObj :=
  mkReader s (fields self) (field self) (field_len self).

Definition parse_reset : ReaderObj := mkReader START_RECORD [] [] 0.

Definition parse_save_field (self : ReaderObj) : ReaderObj :=
  mkReader (state self) (fields self ++ [rev (field self)]) [] 0.

(** Fails with "field larger than field limit". *)
Definition parse_add_char (self : ReaderObj) (c : Z) : option ReaderObj :=
  if field_limit <=? field_len self then None
  else Some (mkReader (state self) (fields self)
                      (c :: field self) (field_len self + 1)).

Definition is_newline (c : Z) : bool := (c =? LF) || (c =? CR).

(** The [START_FIELD] case, which [START_RECORD] falls through to. *)
Definition start_field (self : ReaderObj) (c : sym) : option ReaderObj :=
  match c with
  | EOL => Some (set_state (parse_save_field self) START_RECORD)
  | Chr c =>
      if is_newline c then Some (set_state (parse_save_field self) EAT_CRNL)
      else if c =? DQUOTE then Some (set_state self IN_QUOTED_FIELD)
      else if c =? COMMA then Some (parse_save_field self)
      else match parse_add_char self c with
           | Some self' => Some (set_state self' IN_FIELD)
           | None => None
           end
  end.

(** One step of the parser; [None] is [csv.Error]. *)
Definition parse_process_char (self : ReaderObj) (c : sym)
  : option ReaderObj :=
  match state self with
  | START_RECORD =>
      match c with
      | EOL => Some self
      | Chr c' =>
          if is_newline c' then Some (set_state self EAT_CRNL)
          else start_field (set_state self START_FIELD) c
      end
  | START_FIELD => start_field self c
  | IN_FIELD =>
      match c with
      | EOL => Some (set_state (parse_save_field self) START_RECORD)
      | Chr c' =>
          if is_newline c' then
            Some (set_state (parse_save_field self) EAT_CRNL)
          else if c' =? COMMA then
            Some (set_state (parse_save_field self) START_FIELD)
          else parse_add_char self c'
      end
  | IN_QUOTED_FIELD =>
      match c with
      | EOL => Some self
      | Chr c' =>
          if c' =? DQUOTE then Some (set_state self QUOTE_IN_QUOTED_FIELD)
          else parse_add_char self c'
      end
  | QUOTE_IN_QUOTED_FIELD =>
      match c with
      | EOL => Some (set_state (parse_save_field self) START_RECORD)
      | Chr c' =>
          if c' =? DQUOTE then
            match parse_add_char self c' with
            | Some self' => Some (set_state self' IN_QUOTED_FIELD)
            | None => None
            end
          else if c' =? COMMA then
            Some (set_state (parse_save_field self) START_FIELD)
          else if is_newline c' then
            Some (set_state (parse_save_field self) EAT_CRNL)
          else
            match parse_add_char self c' with
            | Some self' => Some (set_state self' IN_FIELD)
            | None => None
            end
      end
  | EAT_CRNL =>
      match c with
      | EOL => Some (set_state self START_RECORD)
      | Chr c' => if is_newline c' then Some self else None
      end
  end.

(** The characters of one line, in order. *)
Fixpoint parse_line (self : ReaderObj) (line : str) : option ReaderObj :=
  match line with
  | [] => Some self
  | c :: line' =>
      match parse_process_char self (Chr c) with
      | Some self' => parse_line self' line'
      | None => None
      end
  end.

(** The loop of [Reader_iternext]: take lines from the input until a
    record is complete. The result is the record and the lines left. *)
Fixpoint iternext (self : ReaderObj) (input_iter : list str)
  : result (list str * list str) :=
  match input_iter with
  | [] =>
      if negb (field_len self =? 0) || state_eqb (state self) IN_QUOTED_FIELD
      then Ok (fields (parse_save_field self), [])
      else Raise StopIteration
  | lineobj :: rest =>
      match parse_line self lineobj with
      | None => Raise CsvError
      | Some self1 =>
          match parse_process_char self1 EOL with
          | None => Raise CsvError
          | Some self2 =>
              if state_eqb (state self2) START_RECORD
              then Ok (fields self2, rest)
              else iternext self2 rest
          end
      end
  end.

(** [next(csv.reader(input))] *)
Definition next_reader (input : list str) : result (list str) :=
  match iternext parse_reset input with
  | Ok (row, _) => Ok row
  | Raise e => Raise e
  end.

(** After [k] characters of a line: the counter is the length of the
    buffer, the buffer holds at most [k] characters, and no line break has
    been seen outside quotes. *)
Definition inv (r : ReaderObj) (k : nat) : Prop :=
  field_len r = Z.of_nat (length (field r))
  /\ (length (field r) <= k)%nat
  /\ state r <> EAT_CRNL.

End Csv.

(** ** The rows loop (source lines 43-57) *)

Definition key_id : str := lit "id".
Definition key_name : str := lit "name".

(** The literal [{'id': fund_id, 'name': fund_name}]. *)
Definition fund (fund_id fund_name : str) : pydict :=
  [(key_id, fund_id); (key_name, fund_name)].

(** The body of the [for] loop for one [line]. *)
Definition loop_body (id_index name_index : nat) (funds : list pydict)
  (line : str) : result (list pydict) :=
  match Csv.next_reader [line] with
  | Raise e => Raise e
  | Ok row =>
      if (Nat.max id_index name_index <? length row)%nat then
        let fund_id := strip (nth id_index row []) in
        let fund_name := strip (nth name_index row []) in
        if truthy fund_id && truthy fund_name
        then Ok (funds ++ [fund fund_id fund_name])
        else Ok funds
      else Ok funds
  end.

(** [for line in data: ...] starting from the list [funds]. *)
Fixpoint for_lines (id_index name_index : nat) (funds : list pydict)
  (data : list str) : result (list pydict) :=
  match data with
  | [] => Ok funds
  | line :: data' =>
      match loop_body id_index name_index funds line with
      | Ok funds' => for_lines id_index name_index funds' data'
      | Raise e => Raise e
      end
  end.

(** ** Text decoding and encoding *)

Module Codec.

Definition is_cont (b : Z) : bool := (128 <=? b) && (b <=? 191).

Definition cons_opt (c : Z) (r : option str) : option str :=
  match r with
  | Some s => Some (c :: s)
  | None => None
  end.

(** Strict UTF-8: no overlong forms, no surrogates, nothing above
    U+10FFFF. [None] is [UnicodeDecodeError]. *)
Fixpoint utf_8_decode (bs : bytes) : option str :=
  match bs with
  | [] => Some []
  | b0 :: r0 =>
      if (0 <=? b0) && (b0 <? 128) then cons_opt b0 (utf_8_decode r0)
      else if (194 <=? b0) && (b0 <=? 223) then
        match r0 with
        | b1 :: r1 =>
            if is_cont b1
            then cons_opt ((b0 - 192) * 64 + (b1 - 128)) (utf_8_decode r1)
            else None
        | _ => None
        end
      else if (224 <=? b0) && (b0 <=? 239) then
        match r0 with
        | b1 :: b2 :: r2 =>
            let c := (b0 - 224) * 4096 + (b1 - 128) * 64 + (b2 - 128) in
            if is_cont b1 && is_cont b2 && (2048 <=? c)
               && negb ((55296 <=? c) && (c <=? 57343))
            then cons_opt c (utf_8_decode r2)
            else None
        | _ => None
        end
      else if (240 <=? b0) && (b0 <=? 244) then
        match r0 with
        | b1 :: b2 :: b3 :: r3 =>
            let c := (b0 - 240) * 262144 + (b1 - 128) * 4096
                     + (b2 - 128) * 64 + (b3 - 128) in
            if is_cont b1 && is_cont b2 && is_cont b3
               && (65536 <=? c) && (c <=? 1114111)
            then cons_opt c (utf_8_decode r3)
            else None
        | _ => None
        end
      else None
  end.

(** [codecs.BOM_UTF8] *)
Definition BOM_UTF8 : bytes := [239; 187; 191].

(** [b.startswith(a)] on octets. *)
Fixpoint startswith (b a : bytes) : bool :=
  match a, b with
  | [], _ => true
  | x :: a', y :: b' => (x =? y) && startswith b' a'
  | _ :: _, [] => false
  end.

(** The [utf-8-sig] codec as a file opened for reading uses it
    ([IncrementalDecoder._buffer_decode] of [encodings/utf_8_sig.py], on
    the content of the file): fewer than three octets that begin the
    byte-order mark are held back for ever and give no text and no error;
    a leading mark is dropped; everything else is strict UTF-8. *)
Definition utf_8_sig_decode (bs : bytes) : option str :=
  if (length bs <? 3)%nat then
    if startswith BOM_UTF8 bs then Some []
    else utf_8_decode bs
  else if str_eqb (firstn 3 bs) BOM_UTF8 then utf_8_decode (skipn 3 bs)
  else utf_8_decode bs.

(** One code point to UTF-8; surrogates and values that are not code
    points cannot be encoded. *)
Definition utf_8_encode_char (c : Z) : option bytes :=
  if c <? 0 then None
  else if c <? 128 then Some [c]
  else if c <? 2048 then Some [192 + c / 64; 128 + c mod 64]
  else if c <? 65536 then
    if (55296 <=? c) && (c <=? 57343) then None
    else Some [224 + c / 4096; 128 + (c / 64) mod 64; 128 + c mod 64]
  else if c <? 1114112 then
    Some [240 + c / 262144; 128 + (c / 4096) mod 64;
          128 + (c / 64) mod 64; 128 + c mod 64]
  else None.

(** [s.encode('utf-8')]; [None] is [UnicodeEncodeError]. *)
Fixpoint utf_8_encode (s : str) : option bytes :=
  match s with
  | [] => Some []
  | c :: s' =>
      match utf_8_encode_char c, utf_8_encode s' with
      | Some b, Some bs => Some (b ++ bs)
      | _, _ => None
      end
  end.

Section Big5.

(** The mapping table of the Big5 codec: the code point of a lead byte
    and a trail byte, when the pair is assigned. *)
Variable big5_map : Z -> Z -> option Z.

(** The Big5 decoder: an octet below 0x80 stands for itself, any other
    octet needs a second one and the pair must be in the table. *)
Fixpoint big5_decode (bs : bytes) : option str :=
  match bs with
  | [] => Some []
  | c :: r0 =>
      if (0 <=? c) && (c <? 128) then cons_opt c (big5_decode r0)
      else match r0 with
           | c2 :: r1 =>
               match big5_map c c2 with
               | Some decoded => cons_opt decoded (big5_decode r1)
               | None => None
               end
           | [] => None
           end
  end.

End Big5.

End Codec.

(** ** Reading lines in text mode *)

(** Universal newlines ([newline=None]): CR LF and a lone CR are read as
    LF. *)
Fixpoint universal_newlines (t : str) : str :=
  match t with
  | [] => []
  | c :: t' =>
      if c =? CR then
        LF :: match t' with
              | d :: t'' =>
                  if d =? LF then universal_newlines t''
                  else universal_newlines t'
              | [] => []
              end
      else c :: universal_newlines t'
  end.

(** The lines of a text, each with its LF when it has one. *)
Fixpoint keep_lines (t : str) : list str :=
  match t with
  | [] => []
  | c :: t' =>
      if c =? LF then [LF] :: keep_lines t'
      else match keep_lines t' with
           | [] => [[c]]
           | l :: ls => (c :: l) :: ls
           end
  end.

(** [f.readlines()] on the decoded content of the file. *)
Definition readlines (t : str) : list str := keep_lines (universal_newlines t).

(** ** [json.dump(funds, f, ensure_ascii=False, indent=2)] *)

Module Json.

Definition SPACE : Z := 32.

Definition hexdigit (n : Z) : Z := if n <? 10 then 48 + n else 87 + n.

(** The replacement of one character inside a string literal
    ([ESCAPE_DCT], and the character itself when it is not in it). *)
Definition escape (c : Z) : str :=
  if c =? BACKSLASH then [BACKSLASH; BACKSLASH]
  else if c =? DQUOTE then [BACKSLASH; DQUOTE]
  else if c =? 8 then [BACKSLASH; 98]
  else if c =? 12 then [BACKSLASH; 102]
  else if c =? 10 then [BACKSLASH; 110]
  else if c =? 13 then [BACKSLASH; 114]
  else if c =? 9 then [BACKSLASH; 116]
  else if (0 <=? c) && (c <? 32) then
    [BACKSLASH; 117; hexdigit ((c / 4096) mod 16);
     hexdigit ((c / 256) mod 16); hexdigit ((c / 16) mod 16);
     hexdigit (c mod 16)]
  else [c].

(** [py_encode_basestring]: the encoder of strings when
    [ensure_ascii=False]. *)
Definition encode_basestring (s : str) : str :=
  DQUOTE :: flat_map escape s ++ [DQUOTE].

(** A line break followed by [indent * level] spaces, [indent] being 2. *)
Definition newline_indent (level : nat) : str :=
  LF :: repeat SPACE (2 * level).

Definition item_separator : str := [COMMA].
Definition key_separator : str := [58; SPACE].

(** The chunks of the items of a dictionary, the first item apart. *)
Fixpoint iterencode_items (first : bool) (level : nat)
  (items : list (str * str)) : list str :=
  match items with
  | [] => []
  | (key, value) :: items' =>
      (if first then [] else [item_separator ++ newline_indent level])
      ++ [encode_basestring key; key_separator; encode_basestring value]
      ++ iterencode_items false level items'
  end.

(** [_iterencode_dict]: the chunks of a dictionary at nesting depth
    [level]. *)
Definition iterencode_dict (dct : pydict) (level : nat) : list str :=
  match dct with
  | [] => [[123; 125]]
  | _ :: _ =>
      [[123]; newline_indent (S level)]
      ++ iterencode_items true (S level) dct
      ++ [newline_indent level; [125]]
  end.

(** The chunks of the elements of a list; [buf] is what is pending
    before the next element. *)
Fixpoint iterencode_elems (buf : str) (level : nat) (lst : list pydict)
  : list str :=
  match lst with
  | [] => []
  | value :: lst' =>
      buf :: iterencode_dict value level
      ++ iterencode_elems (item_separator ++ newline_indent level) level lst'
  end.

(** [_iterencode_list] at depth 0: what [json.dump] iterates over. *)
Definition iterencode (lst : list pydict) : list str :=
  match lst with
  | [] => [[91; 93]]
  | _ :: _ =>
      iterencode_elems (91 :: newline_indent 1) 1 lst
      ++ [newline_indent 0; [93]]
  end.

(** The whole document. *)
Definition dumps (lst : list pydict) : str := concat (iterencode lst).

End Json.

(** ** Reading a JSON document back

    The decoder of the [json] module for the documents that hold a list of
    objects whose values are strings: the shape of [fund-list.json]. Any
    layout of white space and every string escape is accepted. *)

Module JsonDecode.

Definition is_ws (c : Z) : bool :=
  (c =? 32) || (c =? 9) || (c =? 10) || (c =? 13).

Fixpoint skip_ws (s : str) : str :=
  match s with
  | [] => []
  | c :: s' => if is_ws c then skip_ws s' else s
  end.

Definition hexval (c : Z) : option Z :=
  if (48 <=? c) && (c <=? 57) then Some (c - 48)
  else if (97 <=? c) && (c <=? 102) then Some (c - 87)
  else if (65 <=? c) && (c <=? 70) then Some (c - 55)
  else None.

Definition hex4 (a b c d : Z) : option Z :=
  match hexval a, hexval b, hexval c, hexval d with
  | Some x, Some y, Some z, Some w => Some (x * 4096 + y * 256 + z * 16 + w)
  | _, _, _, _ => None
  end.

(** The character a one-letter escape stands for. *)
Definition unescape (c : Z) : option Z :=
  if c =? DQUOTE then Some DQUOTE
  else if c =? BACKSLASH then Some BACKSLASH
  else if c =? 47 then Some 47
  else if c =? 98 then Some 8
  else if c =? 102 then Some 12
  else if c =? 110 then Some 10
  else if c =? 114 then Some 13
  else if c =? 116 then Some 9
  else None.

Definition is_high (u : Z) : bool := (55296 <=? u) && (u <=? 56319).
Definition is_low (u : Z) : bool := (56320 <=? u) && (u <=? 57343).

Definition attach (c : Z) (r : option (str * str)) : option (str * str) :=
  match r with
  | Some (s, rest) => Some (c :: s, rest)
  | None => None
  end.

(** [scanstring], strict: the text after an opening quote, up to the
    closing one; the result is the string and what follows it. *)
Fixpoint scanstring (s : str) : option (str * str) :=
  match s with
  | [] => None
  | c :: s1 =>
      if c =? DQUOTE then Some ([], s1)
      else if c =? BACKSLASH then
        match s1 with
        | [] => None
        | e :: s2 =>
            if e =? 117 then
              match s2 with
              | h1 :: h2 :: h3 :: h4 :: s3 =>
                  match hex4 h1 h2 h3 h4 with
                  | None => None
                  | Some u =>
                      match s3 with
                      | b :: v :: g1 :: g2 :: g3 :: g4 :: s4 =>
                          match hex4 g1 g2 g3 g4 with
                          | Some u2 =>
                              if is_high u && (b =? BACKSLASH) && (v =? 117)
                                 && is_low u2
                              then attach (65536 + (u - 55296) * 1024
                                           + (u2 - 56320))
                                          (scanstring s4)
                              else attach u (scanstring s3)
                          | None => attach u (scanstring s3)
                          end
                      | _ => attach u (scanstring s3)
                      end
                  end
              | _ => None
              end
            else
              match unescape e with
              | Some d => attach d (scanstring s2)
              | None => None
              end
        end
      else if (0 <=? c) && (c <? 32) then None
      else attach c (scanstring s1)
  end.

(** [d[key] = value] on the items of a dictionary. *)
Fixpoint dict_set (d : pydict) (key value : str) : pydict :=
  match d with
  | [] => [(key, value)]
  | (k, v) :: d' =>
      if str_eqb k key then (k, value) :: d'
      else (k, v) :: dict_set d' key value
  end.

(** The pairs of an object, from the opening quote of a key on. *)
Fixpoint scan_pairs (fuel : nat) (d : pydict) (s : str)
  : option (pydict * str) :=
  match fuel with
  | O => None
  | S fuel' =>
      match s with
      | q :: s1 =>
          if q =? DQUOTE then
            match scanstring s1 with
            | None => None
            | Some (key, s2) =>
                match skip_ws s2 with
                | colon :: s3 =>
                    if colon =? 58 then
                      match skip_ws s3 with
                      | q2 :: s4 =>
                          if q2 =? DQUOTE then
                            match scanstring s4 with
                            | None => None
                            | Some (value, s5) =>
                                let d' := dict_set d key value in
                                match skip_ws s5 with
                                | n :: s6 =>
                                    if n =? 125 then Some (d', s6)
                                    else if n =? COMMA then
                                      scan_pairs fuel' d' (skip_ws s6)
                                    else None
                                | [] => None
                                end
                            end
                          else None
                      | [] => None
                      end
                    else None
                | [] => None
                end
            end
          else None
      | [] => None
      end
  end.

(** [JSONObject]: the text after an opening brace. *)
Definition scan_object (fuel : nat) (s : str) : option (pydict * str) :=
  match skip_ws s with
  | c :: s1 =>
      if c =? 125 then Some ([], s1)
      else scan_pairs fuel [] (c :: s1)
  | [] => None
  end.

(** The elements of an array, from the opening brace of one on. *)
Fixpoint scan_elems (fuel : nat) (s : str) : option (list pydict * str) :=
  match fuel with
  | O => None
  | S fuel' =>
      match s with
      | c :: s1 =>
          if c =? 123 then
            match scan_object fuel' s1 with
            | None => None
            | Some (d, s2) =>
                match skip_ws s2 with
                | n :: s3 =>
                    if n =? 93 then Some ([d], s3)
                    else if n =? COMMA then
                      match scan_elems fuel' (skip_ws s3) with
                      | Some (ds, s4) => Some (d :: ds, s4)
                      | None => None
                      end
                    else None
                | [] => None
                end
            end
          else None
      | [] => None
      end
  end.

(** [JSONArray]: the text after an opening bracket. *)
Definition scan_array (fuel : nat) (s : str) : option (list pydict * str) :=
  match skip_ws s with
  | c :: s1 =>
      if c =? 93 then Some ([], s1)
      else scan_elems fuel (c :: s1)
  | [] => None
  end.

(** [json.loads] of a document that is a list of such objects. *)
Definition loads (s : str) : option (list pydict) :=
  match skip_ws s with
  | c :: s1 =>
      if c =? 91 then
        match scan_array (S (length s)) s1 with
        | Some (lst, s2) =>
            match skip_ws s2 with
            | [] => Some lst
            | _ :: _ => None
            end
        | None => None
        end
      else None
  | [] => None
  end.

End JsonDecode.

(** ** The script *)

(** The header texts looked up on line 3: 基金碼 and 基金全稱. *)
Definition col_id : str := [22522; 37329; 30908].
Definition col_name : str := [22522; 37329; 20840; 31281].

(** What the script prints, one constructor per [print]. *)
Inductive Msg : Type :=
| MsgReading                              (* Reading CSV from: ... *)
| MsgTryingBig5                           (* UTF-8 decode failed, trying Big5... *)
| MsgTooShort                             (* Error: CSV file is too short. *)
| MsgErrorFindingHeaders (missing : str)  (* Error finding headers: 'x' is not in list *)
| MsgAvailableHeaders (headers : list str)(* Available headers: [...] *)
| MsgWriting (count : nat)                (* Writing n funds to: ... *)
| MsgSuccess.                             (* Success! *)

(** The files the script touches and its standard output. *)
Record World : Type := mkWorld {
  csv_file : option bytes;    (* the content of CSV_PATH, when the file exists *)
  json_dir : bool;            (* whether the directory of JSON_PATH exists *)
  json_file : option bytes;   (* the content of JSON_PATH, when the file exists *)
  stdout : list Msg
}.

(** How a call of [generate_fund_list] ends: at the [return] of line 28, at
    the one of line 40, after line 68, or with an exception. *)
Inductive Exit : Type :=
| ReturnTooShort
| ReturnNoHeaders
| ReturnSuccess
| Raised (e : exn).

Definition print (w : World) (m : Msg) : World :=
  mkWorld (csv_file w) (json_dir w) (json_file w) (stdout w ++ [m]).

(** [os.makedirs(os.path.dirname(JSON_PATH), exist_ok=True)] *)
Definition makedirs (w : World) : World :=
  mkWorld (csv_file w) true (json_file w) (stdout w).

Definition set_json_file (w : World) (content : bytes) : World :=
  mkWorld (csv_file w) (json_dir w) (Some content) (stdout w).

(** [for chunk in iterable: fp.write(chunk)] on a file opened with
    [encoding='utf-8']: the octets written, and the exception if a chunk
    cannot be encoded. Line breaks are written as they are
    ([os.linesep] of POSIX). *)
Fixpoint write_chunks (written : bytes) (chunks : list str)
  : bytes * option exn :=
  match chunks with
  | [] => (written, None)
  | chunk :: chunks' =>
      match Codec.utf_8_encode chunk with
      | Some b => write_chunks (written ++ b) chunks'
      | None => (written, Some UnicodeEncodeError)
      end
  end.

(** Lines 65-66: the file is opened for writing, which empties it, and is
    closed on both ways out. *)
Definition json_dump (funds : list pydict) (w : World) : option exn * World :=
  let (written, e) := write_chunks [] (Json.iterencode funds) in
  (e, set_json_file w written).

Section Script.

Variable big5_map : Z -> Z -> option Z.

(** Lines 15-23. *)
Definition read_lines (w : World) : result (list str) * World :=
  match csv_file w with
  | None => (Raise FileNotFoundError, w)
  | Some raw =>
      match Codec.utf_8_sig_decode raw with
      | Some text => (Ok (readlines text), w)
      | None =>
          let w1 := print w MsgTryingBig5 in
          match Codec.big5_decode big5_map raw with
          | Some text => (Ok (readlines text), w1)
          | None => (Raise UnicodeDecodeError, w1)
          end
      end
  end.

Definition generate_fund_list (w : World) : Exit * World :=
  let w := print w MsgReading in
  match read_lines w with
  | (Raise e, w) => (Raised e, w)
  | (Ok lines, w) =>
      if (length lines <? 3)%nat then
        (ReturnTooShort, print w MsgTooShort)
      else
        let header_line := strip (nth 2 lines []) in
        let headers := split COMMA header_line in
        match index col_id headers with
        | None =>
            (ReturnNoHeaders,
             print (print w (MsgErrorFindingHeaders col_id))
                   (MsgAvailableHeaders headers))
        | Some id_index =>
            match index col_name headers with
            | None =>
                (ReturnNoHeaders,
                 print (print w (MsgErrorFindingHeaders col_name))
                       (MsgAvailableHeaders headers))
            | Some name_index =>
                match for_lines id_index name_index [] (skipn 3 lines) with
                | Raise e => (Raised e, w)
                | Ok funds =>
                    let w := print w (MsgWriting (length funds)) in
                    let w := makedirs w in
                    match json_dump funds w with
                    | (Some e, w) => (Raised e, w)
                    | (None, w) => (ReturnSuccess, print w MsgSuccess)
                    end
                end
            end
        end
  end.

End Script.

(** ** The specification's reading of the rows loop *)

Module Spec.

(** A row is accepted when it has enough fields to cover both column
    indices and both values are non-empty after trimming. *)
Definition accepted (id_index name_index : nat) (row : list str) : bool :=
  (id_index <? length row)%nat && (name_index <? length row)%nat
  && truthy (strip (nth id_index row []))
  && truthy (strip (nth name_index row [])).

(** The record of an accepted row: both values, trimmed. *)
Definition record (id_index name_index : nat) (row : list str) : pydict :=
  fund (strip (nth id_index row [])) (strip (nth name_index row [])).

(** The accepted records of a list of rows, in the order of the rows. *)
Definition records (id_index name_index : nat) (rows : list (list str))
  : list pydict :=
  map (record id_index name_index)
      (filter (accepted id_index name_index) rows).

(** A string is trimmed when it neither starts nor ends with white
    space. *)
Definition trimmed (s : str) : Prop :=
  lstrip s = s /\ lstrip (rev s) = rev s.

(** A line as [readlines] gives it: not empty, no carriage return, and a
    line feed only as its last character. *)
Definition is_line (line : str) : Prop :=
  exists body,
    (line = body ++ [LF] \/ (line = body /\ body <> []))
    /\ Forall (fun c => Csv.is_newline c = false) body.

Fixpoint join (sep : str) (parts : list str) : str :=
  match parts with
  | [] => []
  | [p] => p
  | p :: parts' => p ++ sep ++ join sep parts'
  end.

(** A field written between quotes, its quotes doubled. *)
Definition quote_field (f : str) : str :=
  DQUOTE :: flat_map (fun c => if c =? DQUOTE then [DQUOTE; DQUOTE] else [c]) f
  ++ [DQUOTE].

(** A record written with every field quoted, and its line feed. *)
Definition quoted_line (fs : list str) : str :=
  join [COMMA] (map quote_field fs) ++ [LF].

Definition indent (n : nat) : str := repeat 32 n.

Definition quoted (s : str) : str := [DQUOTE] ++ s ++ [DQUOTE].

(** One object with the keys id and name, at two spaces, its members at
    four. *)
Definition object_text (d : pydict) : str :=
  match d with
  | [(k1, v1); (k2, v2)] =>
      indent 2 ++ [123; LF]
      ++ indent 4 ++ Json.encode_basestring k1 ++ [58; 32]
      ++ Json.encode_basestring v1 ++ [COMMA; LF]
      ++ indent 4 ++ Json.encode_basestring k2 ++ [58; 32]
      ++ Json.encode_basestring v2 ++ [LF]
      ++ indent 2 ++ [125]
  | _ => []
  end.

(** The document: a bracket, the objects one under the other separated by
    commas, a bracket; the empty list on one line. *)
Definition document (funds : list pydict) : str :=
  match funds with
  | [] => [91; 93]
  | _ :: _ => [91; LF] ++ join [COMMA; LF] (map object_text funds) ++ [LF; 93]
  end.

(** A record with exactly the keys id and name, in this order. *)
Definition is_fund (d : pydict) : Prop :=
  exists a b, d = fund a b.

End Spec.

(** ** Sample data *)

Module Sample.

Definition header : str := col_id ++ [COMMA] ++ col_name ++ [LF].

(** The seven lines of the scenario of the specification. *)
Definition lines : list str :=
  [ lit "meta1" ++ [LF];
    lit "meta2" ++ [LF];
    header;
    lit "001,Alpha Growth Fund" ++ [LF];
    lit ",Orphan Fund" ++ [LF];
    lit "002," ++ [LF];
    lit "003,Beta Bond Fund" ++ [LF] ].

Definition text : str := concat lines.

(** The file, in UTF-8. *)
Definition raw : bytes :=
  match Codec.utf_8_encode text with
  | Some b => b
  | None => []
  end.

Definition funds : list pydict :=
  [ fund (lit "001") (lit "Alpha Growth Fund");
    fund (lit "003") (lit "Beta Bond Fund") ].

(** The list as the specification writes it, on one line. *)
Definition compact : str :=
  [91; 123] ++ Spec.quoted (lit "id") ++ [58] ++ Spec.quoted (lit "001")
  ++ [COMMA] ++ Spec.quoted (lit "name") ++ [58]
  ++ Spec.quoted (lit "Alpha Growth Fund") ++ [125; COMMA; 123]
  ++ Spec.quoted (lit "id") ++ [58] ++ Spec.quoted (lit "003")
  ++ [COMMA] ++ Spec.quoted (lit "name") ++ [58]
  ++ Spec.quoted (lit "Beta Bond Fund") ++ [125; 93].

Definition world (content : option bytes) : World :=
  mkWorld content false None [].

(** The five pairs of the Big5 table that the two header texts need. *)
Definition big5_map (c c2 : Z) : option Z :=
  if (c =? 176) && (c2 =? 242) then Some 22522
  else if (c =? 170) && (c2 =? 247) then Some 37329
  else if (c =? 189) && (c2 =? 88) then Some 30908
  else if (c =? 165) && (c2 =? 254) then Some 20840
  else if (c =? 186) && (c2 =? 217) then Some 31281
  else None.

(** A file in Big5 that is not valid UTF-8: two lines, the header and a
    row. *)
Definition raw_big5 : bytes :=
  [109; 10; 109; 10; 176; 242; 170; 247; 189; 88; 44;
   176; 242; 170; 247; 165; 254; 186; 217; 10; 55; 44; 66; 10].


(** A line whose only field has one character more than
    [Csv.field_limit]. *)
Definition long_line : str := N.iter 131073 (cons 65) [LF].

End Sample.

(** ** The paths of the script (source lines 6-8)

    [os.path] is [posixpath]. The value of [os.path.abspath(__file__)],
    which depends on where the script is stored, is the argument [file]. *)

Module Path.

Definition SEP : Z := 47.

(** [s.startswith(c)] and [s.endswith(c)] for a one-character [c]. *)
Definition startswith (c : Z) (s : str) : bool :=
  match s with
  | x :: _ => x =? c
  | [] => false
  end.

Definition endswith (c : Z) (s : str) : bool := startswith c (rev s).

(** [s.rfind(c)]: the highest index of [c] in [s], or [-1]. *)
Fixpoint rfind (c : Z) (s : str) : Z :=
  match s with
  | [] => -1
  | x :: s' =>
      let r := rfind c s' in
      if 0 <=? r then r + 1
      else if x =? c then 0
      else -1
  end.

Fixpoint lstrip_char (c : Z) (s : str) : str :=
  match s with
  | [] => []
  | x :: s' => if x =? c then lstrip_char c s' else s
  end.

(** [s.rstrip(c)] for a one-character [c]. *)
Definition rstrip_char (c : Z) (s : str) : str :=
  rev (lstrip_char c (rev s)).

(** One turn of the loop of [posixpath.join]. *)
Definition join_step (path b : str) : str :=
  if startswith SEP b then b
  else if negb (truthy path) || endswith SEP path then path ++ b
  else path ++ SEP :: b.

(** [os.path.join(a, *p)] *)
Definition join (a : str) (p : list str) : str := fold_left join_step p a.

(** [os.path.dirname(p)] *)
Definition dirname (p : str) : str :=
  let i := rfind SEP p + 1 in
  let head := firstn (Z.to_nat i) p in
  if truthy head && negb (str_eqb head (repeat SEP (length head)))
  then rstrip_char SEP head
  else head.

End Path.

Definition BASE_DIR (file : str) : str := Path.dirname (Path.dirname file).

(** The name of the source file: six CJK characters and [.csv]. *)
Definition csv_name : str :=
  [22522; 37329; 22522; 26412; 36039; 26009] ++ lit ".csv".

Definition CSV_PATH (file : str) : str :=
  Path.join (BASE_DIR file) [lit "public"; lit "data"; lit "fund"; csv_name].

Definition JSON_PATH (file : str) : str :=
  Path.join (BASE_DIR file) [lit "src"; lit "data"; lit "fund-list.json"].

(** ** Vocabulary of the further properties *)

Module Text.

(** A text with every line feed written as carriage return, line feed. *)
Definition crlf (t : str) : str :=
  flat_map (fun c => if c =? LF then [CR; LF] else [c]) t.

(** A Unicode scalar value: a code point that is not a surrogate. *)
Definition scalar (c : Z) : Prop :=
  0 <= c < 1114112 /\ ~ (55296 <= c <= 57343).

(** The number of line feeds of a text. *)
Definition line_feeds (t : str) : nat := count_occ Z.eq_dec t LF.

End Text.

(** ** The contract in its own words

    What the extractor is meant to do, written with character classes and
    list equations only: none of [strip], [split], [index], the CSV reader
    or the decoders occurs here. *)

Module Contract.

(** Made of white space only; the empty string is. *)
Definition blank (s : str) : Prop := Forall (fun c => isspace c = true) s.



(** A row is accepted when it has a field at both indices and neither of
    the two is blank. *)
Definition accepted (i n : nat) (row : list str) : Prop :=
  (i < length row)%nat /\ (n < length row)%nat
  /\ ~ blank (nth i row []) /\ ~ blank (nth n row []).


(** The octets are a beginning of the byte-order mark, not all of it. *)
Definition bom_prefix (raw : bytes) : Prop :=
  exists rest, rest <> [] /\ [239; 187; 191] = raw ++ rest.

(** [text] is what a file holding [raw] reads as in UTF-8 with an optional
    byte-order mark: nothing when the file is a cut byte-order mark, else
    the text whose UTF-8 encoding is the file, its mark apart. *)
Definition utf_8_sig_text (raw : bytes) (text : str) : Prop :=
  (bom_prefix raw /\ text = [])
  \/ (exists body,
         raw = [239; 187; 191] ++ body
         /\ Codec.utf_8_encode text = Some body)
  \/ (~ bom_prefix raw
      /\ (forall body, raw <> [239; 187; 191] ++ body)
      /\ Codec.utf_8_encode text = Some raw).

(** A field as it is written in a line: between quotes with its quotes
    doubled, or as it is. *)
Definition cell_text (c : bool * str) : str :=
  if fst c then Spec.quote_field (snd c) else snd c.

(** A record written with some fields quoted and some not, and its line
    feed. *)
Definition cells_line (cells : list (bool * str)) : str :=
  Spec.join [COMMA] (map cell_text cells) ++ [LF].

(** A field that can be written without quotes. *)
Definition plain_field (f : str) : Prop :=
  Forall (fun c => c <> DQUOTE /\ c <> COMMA /\ c <> LF /\ c <> CR) f.

(** A record that can be written on one line: at least one field, not the
    single empty unquoted field (which is the empty line), unquoted fields
    plain, every field within the size limit. *)
Definition cells_ok (cells : list (bool * str)) : Prop :=
  cells <> [] /\ cells <> [(false, [])]
  /\ Forall (fun c => (fst c = false -> plain_field (snd c))
                      /\ Z.of_nat (length (snd c)) <= Csv.field_limit)
            cells.

(** A character that JSON writes as it is inside a string. *)
Definition plain_char (c : Z) : Prop :=
  32 <= c /\ c <> DQUOTE /\ c <> BACKSLASH.

End Contract.

(** * Properties *)

(** ** Strings and lists *)

Lemma str_eqb_eq (a b : str) : str_eqb a b = true <-> a = b.
Proof.
  revert b; induction a as [|x a IH]; intros [|y b]; simpl;
    try (split; [discriminate | discriminate]); try tauto.
  rewrite andb_true_iff, Z.eqb_eq, IH.
  split; [intros [-> ->]; reflexivity | intros H; inversion H; auto].
Qed.

Lemma str_eqb_refl (a : str) : str_eqb a a = true.
Proof. apply str_eqb_eq; reflexivity. Qed.

Lemma index_Some (x : str) (l : list str) (i : nat) :
  index x l = Some i ->
  nth_error l i = Some x /\ forall j, (j < i)%nat -> nth_error l j <> Some x.
Proof.
  revert i; induction l as [|y l IH]; intros i; simpl; [discriminate|].
  destruct (str_eqb y x) eqn:E.
  - intros H; inversion H; subst; simpl. apply str_eqb_eq in E; subst.
    split; [reflexivity | intros j Hj; lia].
  - destruct (index x l) as [k|]; [|discriminate].
    intros H; inversion H; subst; simpl.
    destruct (IH k eq_refl) as [Hk Hlt]. split; [exact Hk|].
    intros [|j] Hj; simpl.
    + intros Hy; inversion Hy; subst. rewrite str_eqb_refl in E; discriminate.
    + apply Hlt; lia.
Qed.

Lemma index_None (x : str) (l : list str) : index x l = None <-> ~ In x l.
Proof.
  induction l as [|y l IH]; simpl; [tauto|].
  destruct (str_eqb y x) eqn:E.
  - apply str_eqb_eq in E; subst. split; [discriminate | intros H; exfalso; auto].
  - destruct (index x l) as [k|].
    + split; [discriminate|]. intros H; exfalso.
      destruct IH as [_ IH]. assert (Hn : ~ In x l) by tauto.
      specialize (IH Hn). discriminate.
    + split; [|reflexivity]. intros _ [Hy|Hin].
      * subst; rewrite str_eqb_refl in E; discriminate.
      * apply IH in Hin; auto.
Qed.

Lemma index_In (x : str) (l : list str) : In x l -> exists i, index x l = Some i.
Proof.
  intros H. destruct (index x l) as [i|] eqn:E; [eauto|].
  apply index_None in E; contradiction.
Qed.

Lemma nth_error_nth_str (l : list str) (i : nat) (x : str) :
  nth_error l i = Some x -> nth i l [] = x /\ (i < length l)%nat.
Proof.
  intros H; split; [apply nth_error_nth; exact H|].
  apply nth_error_Some; congruence.
Qed.

(** ** Trimming *)

Lemma lstrip_head (s : str) (c : Z) (t : str) :
  lstrip s = c :: t -> isspace c = false.
Proof.
  induction s as [|d s IH]; simpl; [discriminate|].
  destruct (isspace d) eqn:E; [exact IH|].
  intros H; inversion H; subst; exact E.
Qed.

Lemma lstrip_split (s : str) :
  exists ws, Forall (fun c => isspace c = true) ws /\ s = ws ++ lstrip s.
Proof.
  induction s as [|d s [ws [Hws Heq]]]; simpl.
  - exists []; auto.
  - destruct (isspace d) eqn:E.
    + exists (d :: ws); split; [constructor; auto | simpl; congruence].
    + exists []; auto.
Qed.

Lemma lstrip_idem (s : str) : lstrip (lstrip s) = lstrip s.
Proof.
  destruct (lstrip s) as [|c t] eqn:E; [reflexivity|].
  simpl. rewrite (lstrip_head _ _ _ E). reflexivity.
Qed.

Lemma strip_trimmed (s : str) : Spec.trimmed (strip s).
Proof.
  unfold Spec.trimmed, strip, rstrip. rewrite rev_involutive, lstrip_idem.
  split; [|reflexivity].
  destruct (lstrip_split (rev (lstrip s))) as [ws [_ Heq]].
  set (u := lstrip (rev (lstrip s))) in *.
  destruct (rev u) as [|c r] eqn:Er; [reflexivity|].
  assert (Ht : lstrip s = c :: (r ++ rev ws)).
  { rewrite <- (rev_involutive (lstrip s)), Heq, rev_app_distr, Er.
    reflexivity. }
  simpl. rewrite (lstrip_head _ _ _ Ht). reflexivity.
Qed.

Lemma trimmed_strip (s : str) : Spec.trimmed s -> strip s = s.
Proof.
  intros [H1 H2]. unfold strip, rstrip. rewrite H1, H2. apply rev_involutive.
Qed.

Lemma strip_idem (s : str) : strip (strip s) = strip s.
Proof. apply trimmed_strip, strip_trimmed. Qed.

Lemma truthy_nonempty (s : str) : truthy s = true <-> s <> [].
Proof. destruct s; simpl; split; congruence. Qed.

(** ** The rows loop *)

Lemma max_ltb (i n m : nat) :
  (Nat.max i n <? m)%nat = ((i <? m)%nat && (n <? m)%nat).
Proof.
  destruct (i <? m)%nat eqn:E1, (n <? m)%nat eqn:E2; simpl;
    rewrite ?Nat.ltb_lt, ?Nat.ltb_ge in *; lia.
Qed.

Lemma loop_body_row (i n : nat) (funds : list pydict) (line : str)
  (row : list str) :
  Csv.next_reader [line] = Ok row ->
  loop_body i n funds line = Ok (funds ++ Spec.records i n [row]).
Proof.
  intros H. unfold loop_body, Spec.records, Spec.accepted, Spec.record.
  rewrite H, max_ltb. cbn [filter].
  destruct ((i <? length row)%nat && (n <? length row)%nat); simpl.
  - destruct (truthy (strip (nth i row [])) && truthy (strip (nth n row [])));
      simpl; [reflexivity | rewrite app_nil_r; reflexivity].
  - rewrite app_nil_r; reflexivity.
Qed.

Lemma loop_body_raise (i n : nat) (funds : list pydict) (line : str) (e : exn) :
  Csv.next_reader [line] = Raise e -> loop_body i n funds line = Raise e.
Proof. intros H; unfold loop_body; rewrite H; reflexivity. Qed.

Lemma records_app (i n : nat) (r1 r2 : list (list str)) :
  Spec.records i n (r1 ++ r2) = Spec.records i n r1 ++ Spec.records i n r2.
Proof. unfold Spec.records. rewrite filter_app, map_app. reflexivity. Qed.

Lemma for_lines_rows (i n : nat) (data : list str) (rows : list (list str)) :
  Forall2 (fun line row => Csv.next_reader [line] = Ok row) data rows ->
  forall funds,
    for_lines i n funds data = Ok (funds ++ Spec.records i n rows).
Proof.
  induction 1 as [|line row data rows Hrow _ IH]; intros funds; simpl.
  - rewrite app_nil_r; reflexivity.
  - rewrite (loop_body_row _ _ _ _ _ Hrow), IH, <- app_assoc.
    rewrite <- records_app. reflexivity.
Qed.


Lemma for_lines_app (i n : nat) (d1 d2 : list str) (funds : list pydict) :
  for_lines i n funds (d1 ++ d2) =
  match for_lines i n funds d1 with
  | Ok f => for_lines i n f d2
  | Raise e => Raise e
  end.
Proof.
  revert funds; induction d1 as [|line d1 IH]; intros funds; simpl.
  - reflexivity.
  - destruct (loop_body i n funds line); [apply IH | reflexivity].
Qed.


(** ** Lines of a text *)

Lemma is_newline_false (c : Z) :
  Csv.is_newline c = false <-> c <> LF /\ c <> CR.
Proof.
  unfold Csv.is_newline. rewrite orb_false_iff, !Z.eqb_neq. tauto.
Qed.

Lemma universal_newlines_no_cr_len (n : nat) :
  forall t, (length t <= n)%nat ->
            Forall (fun c => c <> CR) (universal_newlines t).
Proof.
  induction n as [|n IH]; intros [|c t] Hlen; simpl in *;
    try (constructor; fail); try lia.
  destruct (c =? CR) eqn:E.
  - constructor; [unfold LF, CR; lia|].
    destruct t as [|d t']; [constructor|].
    destruct (d =? LF); apply IH; simpl in *; lia.
  - apply Z.eqb_neq in E. constructor; [exact E | apply IH; lia].
Qed.

Lemma universal_newlines_no_cr (t : str) :
  Forall (fun c => c <> CR) (universal_newlines t).
Proof. apply (universal_newlines_no_cr_len (length t)); lia. Qed.

Lemma keep_lines_is_line (u : str) :
  Forall (fun c => c <> CR) u -> Forall Spec.is_line (keep_lines u).
Proof.
  induction 1 as [|c u Hc _ IH]; simpl; [constructor|].
  destruct (c =? LF) eqn:E.
  - constructor; [|exact IH]. exists []; split; [left; reflexivity | constructor].
  - apply Z.eqb_neq in E.
    assert (Hn : Csv.is_newline c = false) by (apply is_newline_false; auto).
    destruct (keep_lines u) as [|l ls].
    + constructor; [|constructor]. exists [c]; split.
      * right; split; [reflexivity | discriminate].
      * constructor; [exact Hn | constructor].
    + inversion IH as [|? ? [body [Hshape Hbody]] Hls]; subst.
      constructor; [|exact Hls]. exists (c :: body); split.
      * destruct Hshape as [-> | [-> _]];
          [left; reflexivity | right; split; [reflexivity | discriminate]].
      * constructor; assumption.
Qed.

Lemma readlines_is_line (t : str) : Forall Spec.is_line (readlines t).
Proof. apply keep_lines_is_line, universal_newlines_no_cr. Qed.

Lemma is_line_nonempty (line : str) : Spec.is_line line -> line <> [].
Proof.
  intros [body [[-> | [-> Hb]] _]]; [destruct body; discriminate | exact Hb].
Qed.

(** ** The reader never fails on a line within the field limit *)

Module CsvFacts.
Import Csv.

Ltac crush_step :=
  repeat match goal with
         | |- context [if ?b then _ else _] => destruct b eqn:?
         | H : (_ <=? _) = true |- _ => apply Z.leb_le in H
         | H : (_ <=? _) = false |- _ => apply Z.leb_gt in H
         end;
  simpl in *; try discriminate; try lia;
  try (eexists; split; [reflexivity|]; simpl;
       repeat split; simpl; try congruence; try lia).

Lemma parse_reset_inv : inv parse_reset 0.
Proof. unfold inv; simpl; repeat split; try lia; discriminate. Qed.

Lemma step_inv (r : ReaderObj) (k : nat) (c : Z) :
  inv r k -> Z.of_nat k < field_limit -> is_newline c = false ->
  exists r', parse_process_char r (Chr c) = Some r' /\ inv r' (S k).
Proof.
  intros (Hlen & Hk & Hst) Hlim Hnl. destruct r as [st fs f fl].
  unfold inv, parse_process_char, start_field, parse_add_char, set_state,
    parse_save_field in *.
  simpl in *. rewrite Hnl. destruct st; try congruence; crush_step.
Qed.

Lemma parse_line_app (r : ReaderObj) (a b : str) :
  parse_line r (a ++ b) =
  match parse_line r a with
  | Some r' => parse_line r' b
  | None => None
  end.
Proof.
  revert r; induction a as [|c a IH]; intros r; simpl; [reflexivity|].
  destruct (parse_process_char r (Chr c)); [apply IH | reflexivity].
Qed.

Lemma parse_line_inv (body : str) :
  forall r k,
    inv r k -> Z.of_nat (k + length body) <= field_limit ->
    Forall (fun c => is_newline c = false) body ->
    exists r', parse_line r body = Some r' /\ inv r' (k + length body).
Proof.
  induction body as [|c body IH]; intros r k Hinv Hlim Hnl; simpl.
  - exists r; split; [reflexivity|]. rewrite Nat.add_0_r; exact Hinv.
  - inversion Hnl as [|? ? Hc Hrest]; subst. simpl in Hlim.
    destruct (step_inv r k c Hinv) as [r1 [-> Hinv1]]; [lia | exact Hc |].
    destruct (IH r1 (S k) Hinv1) as [r2 [-> Hinv2]]; [lia | exact Hrest |].
    exists r2; split; [reflexivity|].
    replace (k + S (length body))%nat with (S k + length body)%nat by lia.
    exact Hinv2.
Qed.

(** The end of the line, with or without its line feed, completes the
    record. *)
Lemma finish_eol (r : ReaderObj) (k : nat) (rest : list str) :
  inv r k ->
  exists row, match parse_process_char r EOL with
              | None => Raise CsvError
              | Some self2 =>
                  if state_eqb (state self2) START_RECORD
                  then Ok (fields self2, rest)
                  else iternext self2 []
              end = Ok (row, if state_eqb (state r) IN_QUOTED_FIELD
                             then [] else rest).
Proof.
  intros (Hlen & Hk & Hst). destruct r as [st fs f fl].
  unfold parse_process_char, start_field, set_state, parse_save_field.
  simpl in *. destruct st; try congruence; simpl; eexists;
    try reflexivity.
  rewrite orb_true_r. reflexivity.
Qed.

Lemma finish_lf (r : ReaderObj) (k : nat) :
  inv r k -> Z.of_nat k < field_limit ->
  exists row rest,
    match parse_process_char r (Chr LF) with
    | None => Raise CsvError
    | Some self1 =>
        match parse_process_char self1 EOL with
        | None => Raise CsvError
        | Some self2 =>
            if state_eqb (state self2) START_RECORD
            then Ok (fields self2, [])
            else iternext self2 []
        end
    end = Ok (row, rest).
Proof.
  intros (Hlen & Hk & Hst) Hlim. destruct r as [st fs f fl].
  unfold parse_process_char, start_field, parse_add_char, set_state,
    parse_save_field.
  simpl in *. destruct st; try congruence; simpl;
    try (do 2 eexists; reflexivity).
  destruct (field_limit <=? fl) eqn:E; [apply Z.leb_le in E; lia|].
  simpl. rewrite orb_true_r. do 2 eexists; reflexivity.
Qed.

Lemma next_reader_total (line : str) :
  Spec.is_line line -> Z.of_nat (length line) <= field_limit ->
  exists row, next_reader [line] = Ok row.
Proof.
  intros [body [Hshape Hbody]] Hlim. unfold next_reader. simpl iternext.
  destruct Hshape as [-> | [-> _]].
  - rewrite length_app in Hlim; simpl in Hlim.
    rewrite parse_line_app.
    destruct (parse_line_inv body parse_reset 0 parse_reset_inv)
      as [r [-> Hinv]]; [simpl; lia | exact Hbody |].
    simpl parse_line.
    destruct (finish_lf r _ Hinv) as [row [rest Hres]]; [simpl; lia|].
    destruct (parse_process_char r (Chr LF)) as [r1|]; [|discriminate].
    simpl in Hres. rewrite Hres. eauto.
  - destruct (parse_line_inv body parse_reset 0 parse_reset_inv)
      as [r [-> Hinv]]; [simpl; lia | exact Hbody |].
    destruct (finish_eol r _ [] Hinv) as [row Hres].
    simpl in Hres. rewrite Hres. eauto.
Qed.

Lemma rows_exist (data : list str) :
  Forall (fun line => Spec.is_line line
                      /\ Z.of_nat (length line) <= field_limit) data ->
  exists rows,
    Forall2 (fun line row => next_reader [line] = Ok row) data rows.
Proof.
  induction 1 as [|line data [Hl Hlen] _ [rows IH]].
  - exists []; constructor.
  - destruct (next_reader_total line Hl Hlen) as [row Hrow].
    exists (row :: rows); constructor; assumption.
Qed.

End CsvFacts.

(** ** The rows of the output *)




(** ** Parsing one line *)

Lemma eol_state (r r' : Csv.ReaderObj) :
  Csv.parse_process_char r Csv.EOL = Some r' ->
  Csv.state r' = Csv.START_RECORD \/ Csv.state r' = Csv.IN_QUOTED_FIELD.
Proof.
  destruct r as [st fs f fl]. unfold Csv.parse_process_char, Csv.start_field.
  destruct st; simpl; intros H; inversion H; subst; simpl; auto.
Qed.

Lemma next_reader_no_stop (line : str) :
  Csv.next_reader [line] <> Raise StopIteration.
Proof.
  unfold Csv.next_reader. simpl.
  destruct (Csv.parse_line Csv.parse_reset line) as [r1|]; [|discriminate].
  destruct (Csv.parse_process_char r1 Csv.EOL) as [r2|] eqn:E; [|discriminate].
  destruct (eol_state _ _ E) as [-> | ->]; simpl; [discriminate|].
  rewrite orb_true_r. discriminate.
Qed.

Lemma iter_cons_app (n : N) (c : Z) (l : str) :
  N.iter n (cons c) l = N.iter n (cons c) [] ++ l.
Proof.
  induction n as [|n IH] using N.peano_ind; [reflexivity|].
  rewrite !N.iter_succ, IH. reflexivity.
Qed.

Lemma iter_cons_Forall (P : Z -> Prop) (n : N) (c : Z) :
  P c -> Forall P (N.iter n (cons c) []).
Proof.
  intros Hc. induction n as [|n IH] using N.peano_ind; [constructor|].
  rewrite N.iter_succ. constructor; assumption.
Qed.

Lemma universal_newlines_id (u : str) :
  Forall (fun c => c <> CR) u -> universal_newlines u = u.
Proof.
  induction 1 as [|c u Hc _ IH]; simpl; [reflexivity|].
  apply Z.eqb_neq in Hc. rewrite Hc, IH. reflexivity.
Qed.

Lemma keep_lines_single (body : str) :
  Forall (fun c => c <> LF) body -> keep_lines (body ++ [LF]) = [body ++ [LF]].
Proof.
  induction 1 as [|c body Hc _ IH]; simpl; [reflexivity|].
  apply Z.eqb_neq in Hc. rewrite Hc, IH. reflexivity.
Qed.

(** A text that is one line is read as that line. *)
Lemma readlines_single (body : str) :
  Forall (fun c => Csv.is_newline c = false) body ->
  readlines (body ++ [LF]) = [body ++ [LF]].
Proof.
  intros H. unfold readlines.
  assert (Hcr : Forall (fun c => c <> CR) (body ++ [LF])).
  { apply Forall_app; split.
    - eapply Forall_impl; [|exact H]. intros c Hc.
      apply is_newline_false in Hc. tauto.
    - constructor; [unfold LF, CR; lia | constructor]. }
  rewrite (universal_newlines_id _ Hcr). apply keep_lines_single.
  eapply Forall_impl; [|exact H]. intros c Hc.
  apply is_newline_false in Hc. tauto.
Qed.

(** C10, the claim as written, fails: a line produced by reading a file
    whose single field has 131073 characters makes the reader raise
    [csv.Error], field larger than field limit. *)
Lemma C10_long_field_raises :
  In Sample.long_line (readlines Sample.long_line)
  /\ Csv.next_reader [Sample.long_line] = Raise CsvError
  /\ loop_body 0 1 [] Sample.long_line = Raise CsvError.
Proof.
  split; [|split].
  - unfold Sample.long_line. rewrite iter_cons_app, readlines_single.
    + left; reflexivity.
    + apply iter_cons_Forall. reflexivity.
  - vm_compute. reflexivity.
  - vm_compute. reflexivity.
Qed.

(** ** Header resolution *)



(** ** Reading the source file *)

Lemma read_lines_world (big5_map : Z -> Z -> option Z) (w w1 : World)
  (r : result (list str)) :
  read_lines big5_map w = (r, w1) ->
  csv_file w1 = csv_file w /\ json_file w1 = json_file w
  /\ json_dir w1 = json_dir w.
Proof.
  unfold read_lines. destruct (csv_file w) as [raw|] eqn:E.
  - destruct (Codec.utf_8_sig_decode raw).
    + intros H; inversion H; subst; auto.
    + destruct (Codec.big5_decode big5_map raw);
        intros H; inversion H; subst; simpl; auto.
  - intros H; inversion H; subst; auto.
Qed.

Lemma print_neq (w : World) (m : Msg) : print w m <> w.
Proof.
  intros H. apply (f_equal (fun x => length (stdout x))) in H.
  simpl in H. rewrite length_app in H. simpl in H. lia.
Qed.

(** C3. When the file has fewer than three lines, or its header line lacks
    one of the two column names, the call returns early, the output file
    and its directory are as they were, and in the second case the last
    thing printed is the list of the headers that were found. *)
Theorem C3_early_return_writes_nothing
  (big5_map : Z -> Z -> option Z) (w w1 : World) (lines : list str) :
  read_lines big5_map (print w MsgReading) = (Ok lines, w1) ->
  (length lines < 3)%nat
  \/ index col_id (split COMMA (strip (nth 2 lines []))) = None
  \/ index col_name (split COMMA (strip (nth 2 lines []))) = None ->
  exists e w',
    generate_fund_list big5_map w = (e, w')
    /\ json_file w' = json_file w /\ json_dir w' = json_dir w
    /\ ((length lines < 3)%nat -> e = ReturnTooShort)
    /\ ((3 <= length lines)%nat ->
        e = ReturnNoHeaders
        /\ exists missing,
            stdout w'
            = stdout w1
              ++ [MsgErrorFindingHeaders missing;
                  MsgAvailableHeaders
                    (split COMMA (strip (nth 2 lines [])))]).
Proof.
  intros Hread Hcase.
  destruct (read_lines_world _ _ _ _ Hread) as (_ & Hfile & Hdir).
  simpl in Hfile, Hdir.
  unfold generate_fund_list. rewrite Hread.
  destruct (length lines <? 3)%nat eqn:Elen.
  - apply Nat.ltb_lt in Elen.
    eexists _, _; split; [reflexivity|]. simpl.
    repeat split; try assumption; intros; lia.
  - apply Nat.ltb_ge in Elen.
    set (headers := split COMMA (strip (nth 2 lines []))) in *.
    destruct (index col_id headers) as [i|] eqn:Ei.
    + destruct (index col_name headers) as [n|] eqn:En.
      * exfalso. destruct Hcase as [H | [H | H]]; [lia | discriminate..].
      * eexists _, _; split; [reflexivity|]. simpl.
        repeat split; try assumption; try (intros; lia).
        exists col_name. rewrite <- app_assoc. reflexivity.
    + eexists _, _; split; [reflexivity|]. simpl.
      repeat split; try assumption; try (intros; lia).
      exists col_id. rewrite <- app_assoc. reflexivity.
Qed.

Lemma C3_early_return_writes_nothing_witness :
  exists e w',
    generate_fund_list Sample.big5_map
      (mkWorld (Some [239; 187]) false (Some [1; 2]) []) = (e, w')
    /\ json_file w' = Some [1; 2] /\ json_dir w' = false
    /\ e = ReturnTooShort.
Proof.
  destruct (C3_early_return_writes_nothing Sample.big5_map
              (mkWorld (Some [239; 187]) false (Some [1; 2]) [])
              (mkWorld (Some [239; 187]) false (Some [1; 2]) [MsgReading])
              [])
    as (e & w' & Hrun & Hfile & Hdir & Hshort & _).
  - vm_compute; reflexivity.
  - left; simpl; lia.
  - exists e, w'. repeat split; try assumption. apply Hshort; simpl; lia.
Defined.

(** ** The scenario of the specification *)

(** C2. On the seven lines of the scenario the extractor keeps the first
    and the last data row and drops the two in between: the records are
    those of the list the specification gives, the file written is the
    UTF-8 text of that list, and reading either the file's text or the
    one-line text of the specification back gives the same list. *)
Theorem C2_scenario (big5_map : Z -> Z -> option Z) :
  readlines Sample.text = Sample.lines
  /\ for_lines 0 1 [] (skipn 3 Sample.lines) = Ok Sample.funds
  /\ generate_fund_list big5_map (Sample.world (Some Sample.raw))
     = (ReturnSuccess,
        mkWorld (Some Sample.raw) true
                (Codec.utf_8_encode (Json.dumps Sample.funds))
                [MsgReading; MsgWriting 2; MsgSuccess])
  /\ JsonDecode.loads (Json.dumps Sample.funds) = Some Sample.funds
  /\ JsonDecode.loads Sample.compact = Some Sample.funds.
Proof.
  repeat apply conj; vm_compute; reflexivity.
Qed.

(** ** Splitting the header, parsing the rows *)

Lemma split_nonempty (sep : Z) (s : str) : split sep s <> [].
Proof.
  destruct s as [|c s]; simpl; [discriminate|].
  destruct (c =? sep); [discriminate|].
  destruct (split sep s); discriminate.
Qed.

Lemma split_join (sep : Z) (s : str) : Spec.join [sep] (split sep s) = s.
Proof.
  induction s as [|c s IH]; simpl; [reflexivity|].
  pose proof (split_nonempty sep s) as Hne.
  destruct (c =? sep) eqn:E.
  - apply Z.eqb_eq in E; subst c.
    destruct (split sep s) as [|w ws]; [congruence|].
    change (Spec.join [sep] ([] :: w :: ws))
      with ([] ++ [sep] ++ Spec.join [sep] (w :: ws)).
    rewrite IH. reflexivity.
  - destruct (split sep s) as [|w ws]; [congruence|].
    destruct ws as [|w' ws]; simpl in *; rewrite <- IH; reflexivity.
Qed.

Lemma split_no_sep (sep : Z) (s : str) :
  Forall (fun p => ~ In sep p) (split sep s).
Proof.
  induction s as [|c s IH]; simpl.
  - constructor; [intros [] | constructor].
  - destruct (c =? sep) eqn:E.
    + constructor; [intros [] | exact IH].
    + apply Z.eqb_neq in E.
      destruct (split sep s) as [|w ws].
      * constructor; [|constructor]. intros [H | []]; congruence.
      * inversion IH as [|? ? Hw Hws]; subst.
        constructor; [|exact Hws]. intros [H | H]; [congruence | auto].
Qed.

Lemma add_char_ok (st : Csv.ParserState) (fs : list str) (buf : str) (c : Z) :
  Z.of_nat (length buf) < Csv.field_limit ->
  Csv.parse_add_char (Csv.mkReader st fs buf (Z.of_nat (length buf))) c
  = Some (Csv.mkReader st fs (c :: buf) (Z.of_nat (length (c :: buf)))).
Proof.
  intros H. unfold Csv.parse_add_char. simpl Csv.field_len.
  destruct (Csv.field_limit <=? Z.of_nat (length buf)) eqn:E.
  - apply Z.leb_le in E. lia.
  - simpl. do 2 f_equal. lia.
Qed.

Lemma parse_line_cons (r : Csv.ReaderObj) (c : Z) (l : str) :
  Csv.parse_line r (c :: l)
  = match Csv.parse_process_char r (Csv.Chr c) with
    | Some r' => Csv.parse_line r' l
    | None => None
    end.
Proof. reflexivity. Qed.

Lemma step_quote_seen (fs : list str) (buf : str) (n : Z) :
  Csv.parse_process_char
    (Csv.mkReader Csv.IN_QUOTED_FIELD fs buf n) (Csv.Chr DQUOTE)
  = Some (Csv.mkReader Csv.QUOTE_IN_QUOTED_FIELD fs buf n).
Proof. reflexivity. Qed.

Lemma step_quote_doubled (fs : list str) (buf : str) :
  Z.of_nat (length buf) < Csv.field_limit ->
  Csv.parse_process_char
    (Csv.mkReader Csv.QUOTE_IN_QUOTED_FIELD fs buf (Z.of_nat (length buf)))
    (Csv.Chr DQUOTE)
  = Some (Csv.mkReader Csv.IN_QUOTED_FIELD fs (DQUOTE :: buf)
                       (Z.of_nat (length (DQUOTE :: buf)))).
Proof.
  intros H. unfold Csv.parse_process_char. cbn [Csv.state].
  change (DQUOTE =? DQUOTE) with true. cbv iota.
  rewrite (add_char_ok _ _ _ _ H). reflexivity.
Qed.

Lemma step_quoted_char (fs : list str) (buf : str) (c : Z) :
  (c =? DQUOTE) = false ->
  Z.of_nat (length buf) < Csv.field_limit ->
  Csv.parse_process_char
    (Csv.mkReader Csv.IN_QUOTED_FIELD fs buf (Z.of_nat (length buf)))
    (Csv.Chr c)
  = Some (Csv.mkReader Csv.IN_QUOTED_FIELD fs (c :: buf)
                       (Z.of_nat (length (c :: buf)))).
Proof.
  intros E H. unfold Csv.parse_process_char. cbn [Csv.state].
  rewrite E. apply add_char_ok; exact H.
Qed.

(** Inside quotes every character of the field, a doubled quote counting
    for one, goes to the buffer. *)
Lemma quoted_body (f : str) :
  forall (fs : list str) (buf rest : str),
    Z.of_nat (length buf + length f) <= Csv.field_limit ->
    Csv.parse_line
      (Csv.mkReader Csv.IN_QUOTED_FIELD fs buf (Z.of_nat (length buf)))
      (flat_map (fun c => if c =? DQUOTE then [DQUOTE; DQUOTE] else [c]) f
       ++ rest)
    = Csv.parse_line
        (Csv.mkReader Csv.IN_QUOTED_FIELD fs (rev f ++ buf)
                      (Z.of_nat (length (rev f ++ buf))))
        rest.
Proof.
  induction f as [|c f IH]; intros fs buf rest Hlen; [reflexivity|].
  cbn [length] in Hlen.
  assert (Hbuf : Z.of_nat (length buf) < Csv.field_limit) by lia.
  assert (Hnext : Z.of_nat (length (c :: buf) + length f) <= Csv.field_limit)
    by (cbn [length]; lia).
  cbn [rev]. rewrite <- app_assoc. change ([c] ++ buf) with (c :: buf).
  rewrite <- (IH fs (c :: buf) rest Hnext).
  cbn [flat_map]. destruct (c =? DQUOTE) eqn:E.
  - apply Z.eqb_eq in E; subst c. cbn [app].
    rewrite parse_line_cons, step_quote_seen.
    rewrite parse_line_cons, (step_quote_doubled _ _ Hbuf). reflexivity.
  - cbn [app]. rewrite parse_line_cons, (step_quoted_char _ _ _ E Hbuf).
    reflexivity.
Qed.

Lemma step_open_quote (st : Csv.ParserState) (fs : list str) :
  st = Csv.START_RECORD \/ st = Csv.START_FIELD ->
  Csv.parse_process_char (Csv.mkReader st fs [] 0) (Csv.Chr DQUOTE)
  = Some (Csv.mkReader Csv.IN_QUOTED_FIELD fs [] (Z.of_nat (length (@nil Z)))).
Proof. intros [-> | ->]; reflexivity. Qed.

(** A quoted field read from the start of a field: the reader is left
    after the closing quote, the field in its buffer. *)
Lemma quoted_field (f : str) (st : Csv.ParserState) (fs : list str)
  (rest : str) :
  st = Csv.START_RECORD \/ st = Csv.START_FIELD ->
  Z.of_nat (length f) <= Csv.field_limit ->
  Csv.parse_line (Csv.mkReader st fs [] 0) (Spec.quote_field f ++ rest)
  = Csv.parse_line
      (Csv.mkReader Csv.QUOTE_IN_QUOTED_FIELD fs (rev f)
                    (Z.of_nat (length (rev f))))
      rest.
Proof.
  intros Hst Hlen. unfold Spec.quote_field.
  rewrite <- app_comm_cons, <- app_assoc.
  rewrite parse_line_cons, (step_open_quote st fs Hst).
  rewrite quoted_body by (cbn [length]; lia).
  rewrite app_nil_r. cbn [app].
  rewrite parse_line_cons, step_quote_seen. reflexivity.
Qed.

Lemma step_after_quote_comma (fs : list str) (buf : str) (n : Z) :
  Csv.parse_process_char
    (Csv.mkReader Csv.QUOTE_IN_QUOTED_FIELD fs buf n) (Csv.Chr COMMA)
  = Some (Csv.mkReader Csv.START_FIELD (fs ++ [rev buf]) [] 0).
Proof. reflexivity. Qed.

Lemma step_after_quote_lf (fs : list str) (buf : str) (n : Z) :
  Csv.parse_process_char
    (Csv.mkReader Csv.QUOTE_IN_QUOTED_FIELD fs buf n) (Csv.Chr LF)
  = Some (Csv.mkReader Csv.EAT_CRNL (fs ++ [rev buf]) [] 0).
Proof. reflexivity. Qed.

Lemma quoted_fields (fs : list str) :
  forall (f : str) (st : Csv.ParserState) (acc : list str),
    st = Csv.START_RECORD \/ st = Csv.START_FIELD ->
    Forall (fun g => Z.of_nat (length g) <= Csv.field_limit) (f :: fs) ->
    Csv.parse_line (Csv.mkReader st acc [] 0)
                   (Spec.join [COMMA] (map Spec.quote_field (f :: fs)) ++ [LF])
    = Some (Csv.mkReader Csv.EAT_CRNL (acc ++ f :: fs) [] 0).
Proof.
  induction fs as [|g fs IH]; intros f st acc Hst Hall;
    inversion Hall as [|? ? Hf Hrest]; subst.
  - cbn [map Spec.join].
    rewrite (quoted_field f st acc [LF] Hst Hf).
    rewrite parse_line_cons, step_after_quote_lf, rev_involutive.
    reflexivity.
  - change (Spec.join [COMMA] (map Spec.quote_field (f :: g :: fs)))
      with (Spec.quote_field f ++ [COMMA]
            ++ Spec.join [COMMA] (map Spec.quote_field (g :: fs))).
    rewrite <- !app_assoc.
    rewrite (quoted_field f st acc _ Hst Hf).
    cbn [app]. rewrite parse_line_cons, step_after_quote_comma, rev_involutive.
    etransitivity; [apply (IH g Csv.START_FIELD (acc ++ [f])); auto|].
    rewrite <- app_assoc. reflexivity.
Qed.

(** A record whose fields are all written between quotes is read back
    field by field, commas, quotes and line breaks inside the fields
    included. *)
Lemma next_reader_quoted (fs : list str) :
  fs <> [] ->
  Forall (fun g => Z.of_nat (length g) <= Csv.field_limit) fs ->
  Csv.next_reader [Spec.quoted_line fs] = Ok fs.
Proof.
  intros Hne Hall. destruct fs as [|f fs]; [congruence|].
  unfold Csv.next_reader, Spec.quoted_line. cbn [Csv.iternext].
  unfold Csv.parse_reset.
  rewrite (quoted_fields fs f Csv.START_RECORD [] (or_introl eq_refl) Hall).
  reflexivity.
Qed.

Lemma loop_body_appends (i n : nat) (funds funds' : list pydict) (line : str) :
  loop_body i n funds line = Ok funds' -> funds' <> funds ->
  exists row,
    Csv.next_reader [line] = Ok row /\ (Nat.max i n < length row)%nat.
Proof.
  unfold loop_body. destruct (Csv.next_reader [line]) as [row|e];
    [|discriminate].
  destruct (Nat.max i n <? length row)%nat eqn:E.
  - intros _ _. exists row; split; [reflexivity | apply Nat.ltb_lt; exact E].
  - intros H Hne. inversion H; subst. congruence.
Qed.

(** ** A run that succeeds *)

Lemma run_success_inv (big5_map : Z -> Z -> option Z) (w w' : World) :
  generate_fund_list big5_map w = (ReturnSuccess, w') ->
  exists lines w1 i n funds out,
    read_lines big5_map (print w MsgReading) = (Ok lines, w1)
    /\ (3 <= length lines)%nat
    /\ index col_id (split COMMA (strip (nth 2 lines []))) = Some i
    /\ index col_name (split COMMA (strip (nth 2 lines []))) = Some n
    /\ for_lines i n [] (skipn 3 lines) = Ok funds
    /\ write_chunks [] (Json.iterencode funds) = (out, None)
    /\ w' = print (set_json_file
                     (makedirs (print w1 (MsgWriting (length funds)))) out)
                  MsgSuccess.
Proof.
  unfold generate_fund_list.
  destruct (read_lines big5_map (print w MsgReading)) as [[lines|e] w1] eqn:Er;
    [|discriminate].
  destruct (length lines <? 3)%nat eqn:Elen; [discriminate|].
  apply Nat.ltb_ge in Elen.
  destruct (index col_id _) as [i|] eqn:Ei; [|discriminate].
  destruct (index col_name _) as [n|] eqn:En; [|discriminate].
  destruct (for_lines i n [] (skipn 3 lines)) as [funds|e] eqn:Ef;
    [|discriminate].
  unfold json_dump.
  destruct (write_chunks [] (Json.iterencode funds)) as [out [e|]] eqn:Ew;
    [discriminate|].
  intros H; inversion H; subst.
  exists lines, w1, i, n, funds, out. repeat split; assumption.
Qed.

Lemma run_success (big5_map : Z -> Z -> option Z) (w w1 : World)
  (lines : list str) (i n : nat) (funds : list pydict) (out : bytes) :
  read_lines big5_map (print w MsgReading) = (Ok lines, w1) ->
  (3 <= length lines)%nat ->
  index col_id (split COMMA (strip (nth 2 lines []))) = Some i ->
  index col_name (split COMMA (strip (nth 2 lines []))) = Some n ->
  for_lines i n [] (skipn 3 lines) = Ok funds ->
  write_chunks [] (Json.iterencode funds) = (out, None) ->
  generate_fund_list big5_map w
  = (ReturnSuccess,
     print (set_json_file
              (makedirs (print w1 (MsgWriting (length funds)))) out)
           MsgSuccess).
Proof.
  intros Hr Hlen Hi Hn Hf Hw. unfold generate_fund_list. rewrite Hr.
  apply Nat.ltb_ge in Hlen. rewrite Hlen, Hi, Hn, Hf.
  unfold json_dump. rewrite Hw. reflexivity.
Qed.

(** What is read depends on the source file only. *)
Lemma read_lines_same_csv (big5_map : Z -> Z -> option Z) (w w2 : World) :
  csv_file w = csv_file w2 ->
  fst (read_lines big5_map w) = fst (read_lines big5_map w2).
Proof.
  intros H. unfold read_lines. rewrite <- H.
  destruct (csv_file w) as [raw|]; [|reflexivity].
  destruct (Codec.utf_8_sig_decode raw); [reflexivity|].
  destruct (Codec.big5_decode big5_map raw); reflexivity.
Qed.

Lemma utf_8_encode_app (a b : str) :
  Codec.utf_8_encode (a ++ b)
  = match Codec.utf_8_encode a, Codec.utf_8_encode b with
    | Some x, Some y => Some (x ++ y)
    | _, _ => None
    end.
Proof.
  induction a as [|c a IH]; simpl.
  - destruct (Codec.utf_8_encode b); reflexivity.
  - rewrite IH. destruct (Codec.utf_8_encode_char c); [|reflexivity].
    destruct (Codec.utf_8_encode a); [|reflexivity].
    destruct (Codec.utf_8_encode b); [rewrite app_assoc|]; reflexivity.
Qed.

Lemma write_chunks_ok (chunks : list str) :
  forall written out,
    write_chunks written chunks = (out, None) ->
    exists b, Codec.utf_8_encode (concat chunks) = Some b
              /\ out = written ++ b.
Proof.
  induction chunks as [|chunk chunks IH]; intros written out; simpl.
  - intros H; inversion H; subst. exists []; split; [reflexivity|].
    rewrite app_nil_r; reflexivity.
  - rewrite utf_8_encode_app.
    destruct (Codec.utf_8_encode chunk) as [b|]; [|discriminate].
    intros H. destruct (IH _ _ H) as [b' [-> ->]].
    exists (b ++ b'); split; [reflexivity | rewrite app_assoc; reflexivity].
Qed.

Lemma for_lines_funds (i n : nat) (data : list str) :
  forall acc funds,
    for_lines i n acc data = Ok funds ->
    Forall Spec.is_fund acc -> Forall Spec.is_fund funds.
Proof.
  induction data as [|line data IH]; intros acc funds; simpl.
  - intros H; inversion H; subst; auto.
  - destruct (loop_body i n acc line) as [acc'|e] eqn:E; [|discriminate].
    intros H Hacc. apply (IH _ _ H).
    unfold loop_body in E.
    destruct (Csv.next_reader [line]) as [row|]; [|discriminate].
    destruct (Nat.max i n <? length row)%nat;
      [|inversion E; subst; exact Hacc].
    destruct (truthy _ && truthy _); inversion E; subst; [|exact Hacc].
    apply Forall_app; split; [exact Hacc|].
    constructor; [|constructor]. eexists _, _; reflexivity.
Qed.

(** ** The text of the document *)

Lemma object_chunks (a b : str) :
  Spec.indent 2 ++ concat (Json.iterencode_dict (fund a b) 1)
  = Spec.object_text (fund a b).
Proof.
  unfold fund, Spec.object_text, Json.iterencode_dict, Json.iterencode_items,
    Json.newline_indent, Json.item_separator, Json.key_separator, Spec.indent.
  cbn [concat app repeat Nat.mul Nat.add].
  repeat rewrite <- app_assoc. reflexivity.
Qed.

Lemma elems_cons (buf : str) (level : nat) (d : pydict) (rest : list pydict) :
  concat (Json.iterencode_elems buf level (d :: rest))
  = buf ++ concat (Json.iterencode_dict d level)
    ++ concat (Json.iterencode_elems
                 (Json.item_separator ++ Json.newline_indent level) level rest).
Proof.
  cbn [Json.iterencode_elems]. rewrite concat_cons, concat_app. reflexivity.
Qed.

Lemma elems_text (funds : list pydict) :
  forall (d : pydict) (buf : str),
    Forall Spec.is_fund (d :: funds) ->
    concat (Json.iterencode_elems (buf ++ Json.newline_indent 1) 1 (d :: funds))
    = buf ++ [LF] ++ Spec.join [COMMA; LF] (map Spec.object_text (d :: funds)).
Proof.
  induction funds as [|d' funds IH]; intros d buf Hall;
    inversion Hall as [|? ? [a [b ->]] Hrest]; subst.
  - rewrite elems_cons. cbn [Json.iterencode_elems concat map Spec.join].
    rewrite app_nil_r, <- object_chunks.
    unfold Json.newline_indent, Spec.indent. cbn [Nat.mul Nat.add].
    repeat rewrite <- app_assoc. reflexivity.
  - change (Spec.join [COMMA; LF] (map Spec.object_text (fund a b :: d' :: funds)))
      with (Spec.object_text (fund a b) ++ [COMMA; LF]
            ++ Spec.join [COMMA; LF] (map Spec.object_text (d' :: funds))).
    rewrite elems_cons.
    rewrite (IH d' Json.item_separator Hrest), <- object_chunks.
    unfold Json.newline_indent, Spec.indent, Json.item_separator.
    cbn [Nat.mul Nat.add].
    repeat rewrite <- app_assoc. reflexivity.
Qed.

Lemma dumps_document (funds : list pydict) :
  Forall Spec.is_fund funds -> Json.dumps funds = Spec.document funds.
Proof.
  intros Hall. destruct funds as [|d funds]; [reflexivity|].
  unfold Json.dumps, Json.iterencode, Spec.document.
  rewrite concat_app.
  change (91 :: Json.newline_indent 1) with ([91] ++ Json.newline_indent 1).
  rewrite (elems_text funds d [91] Hall).
  cbn [concat Json.newline_indent Nat.mul repeat app].
  repeat rewrite <- app_assoc. reflexivity.
Qed.

Lemma escape_plain (c : Z) : 128 <= c -> Json.escape c = [c].
Proof.
  intros H. unfold Json.escape, BACKSLASH, DQUOTE.
  repeat match goal with
         | |- context [if ?b then _ else _] =>
             let E := fresh in
             destruct b eqn:E;
             [rewrite ?andb_true_iff, ?Z.eqb_eq, ?Z.leb_le, ?Z.ltb_lt in E;
              lia|]
         end.
  reflexivity.
Qed.

Lemma run_same_csv (big5_map : Z -> Z -> option Z) (w w' w2 : World) :
  generate_fund_list big5_map w = (ReturnSuccess, w') ->
  csv_file w2 = csv_file w ->
  exists w2',
    generate_fund_list big5_map w2 = (ReturnSuccess, w2')
    /\ json_file w2' = json_file w' /\ json_dir w2' = true
    /\ csv_file w2' = csv_file w2.
Proof.
  intros Hrun Hcsv.
  destruct (run_success_inv _ _ _ Hrun)
    as (lines & w1 & i & n & funds & out & Hr & Hlen & Hi & Hn & Hf & Hw & ->).
  pose proof (read_lines_same_csv big5_map (print w2 MsgReading)
                (print w MsgReading) Hcsv) as Hfst.
  destruct (read_lines big5_map (print w2 MsgReading)) as [r w1'] eqn:Er2.
  rewrite Hr in Hfst. simpl in Hfst. subst r.
  eexists. split; [exact (run_success _ _ _ _ _ _ _ _ Er2 Hlen Hi Hn Hf Hw)|].
  simpl. repeat split.
  destruct (read_lines_world _ _ _ _ Er2) as (Hc & _). exact Hc.
Qed.

(** ** UTF-8: decoding what was encoded *)

Ltac zcases :=
  repeat match goal with
         | |- context [?a <=? ?b] => destruct (Z.leb_spec a b); try lia
         | |- context [?a <? ?b] => destruct (Z.ltb_spec a b); try lia
         end.

Lemma decode_1 (b0 : Z) (rest : bytes) :
  0 <= b0 < 128 ->
  Codec.utf_8_decode (b0 :: rest)
  = Codec.cons_opt b0 (Codec.utf_8_decode rest).
Proof.
  intros H. cbn [Codec.utf_8_decode]. zcases. reflexivity.
Qed.

Lemma decode_2 (b0 b1 : Z) (rest : bytes) :
  194 <= b0 <= 223 -> 128 <= b1 <= 191 ->
  Codec.utf_8_decode (b0 :: b1 :: rest)
  = Codec.cons_opt ((b0 - 192) * 64 + (b1 - 128)) (Codec.utf_8_decode rest).
Proof.
  intros H0 H1. cbn [Codec.utf_8_decode]. unfold Codec.is_cont.
  zcases. reflexivity.
Qed.

Lemma decode_3 (b0 b1 b2 : Z) (rest : bytes) :
  224 <= b0 <= 239 -> 128 <= b1 <= 191 -> 128 <= b2 <= 191 ->
  2048 <= (b0 - 224) * 4096 + (b1 - 128) * 64 + (b2 - 128) ->
  ~ (55296 <= (b0 - 224) * 4096 + (b1 - 128) * 64 + (b2 - 128) <= 57343) ->
  Codec.utf_8_decode (b0 :: b1 :: b2 :: rest)
  = Codec.cons_opt ((b0 - 224) * 4096 + (b1 - 128) * 64 + (b2 - 128))
                   (Codec.utf_8_decode rest).
Proof.
  intros H0 H1 H2 Hlow Hsur. cbn [Codec.utf_8_decode]. unfold Codec.is_cont.
  cbv zeta. zcases; reflexivity.
Qed.

Lemma decode_4 (b0 b1 b2 b3 : Z) (rest : bytes) :
  240 <= b0 <= 244 -> 128 <= b1 <= 191 -> 128 <= b2 <= 191 ->
  128 <= b3 <= 191 ->
  65536 <= (b0 - 240) * 262144 + (b1 - 128) * 4096 + (b2 - 128) * 64
           + (b3 - 128) <= 1114111 ->
  Codec.utf_8_decode (b0 :: b1 :: b2 :: b3 :: rest)
  = Codec.cons_opt ((b0 - 240) * 262144 + (b1 - 128) * 4096
                    + (b2 - 128) * 64 + (b3 - 128))
                   (Codec.utf_8_decode rest).
Proof.
  intros H0 H1 H2 H3 Hc. cbn [Codec.utf_8_decode]. unfold Codec.is_cont.
  cbv zeta. zcases; reflexivity.
Qed.

Ltac some_inv :=
  match goal with
  | |- Some ?x = Some ?b -> _ =>
      let E := fresh in
      intros E; assert (b = x) by congruence; subst b; clear E
  end.

Lemma utf_8_char_round_trip (c : Z) (b rest : bytes) :
  Codec.utf_8_encode_char c = Some b ->
  Codec.utf_8_decode (b ++ rest) = Codec.cons_opt c (Codec.utf_8_decode rest).
Proof.
  unfold Codec.utf_8_encode_char.
  destruct (Z.ltb_spec c 0); [discriminate|].
  destruct (Z.ltb_spec c 128).
  { some_inv. cbn [app]. apply decode_1; lia. }
  destruct (Z.ltb_spec c 2048).
  { some_inv. cbn [app].
    rewrite decode_2 by (Z.div_mod_to_equations; lia).
    f_equal. Z.div_mod_to_equations; lia. }
  destruct (Z.ltb_spec c 65536).
  { destruct (Z.leb_spec 55296 c); destruct (Z.leb_spec c 57343);
      cbn [andb]; try discriminate;
      some_inv; cbn [app];
      (rewrite decode_3 by (Z.div_mod_to_equations; lia));
      f_equal; Z.div_mod_to_equations; lia. }
  destruct (Z.ltb_spec c 1114112); [|discriminate].
  some_inv. cbn [app].
  rewrite decode_4 by (Z.div_mod_to_equations; lia).
  f_equal. Z.div_mod_to_equations; lia.
Qed.

Lemma utf_8_round_trip (s : str) :
  forall b, Codec.utf_8_encode s = Some b -> Codec.utf_8_decode b = Some s.
Proof.
  induction s as [|c s IH]; intros b; simpl.
  - intros E; inversion E; reflexivity.
  - destruct (Codec.utf_8_encode_char c) as [bc|] eqn:Ec; [|discriminate].
    destruct (Codec.utf_8_encode s) as [bs|]; [|discriminate].
    intros E; inversion E; subst.
    rewrite (utf_8_char_round_trip _ _ _ Ec), (IH bs eq_refl). reflexivity.
Qed.

(** ** JSON: reading back what was written *)

Lemma hexval_hexdigit (n : Z) :
  0 <= n < 16 -> JsonDecode.hexval (Json.hexdigit n) = Some n.
Proof.
  intros H. unfold Json.hexdigit, JsonDecode.hexval.
  destruct (Z.ltb_spec n 10); zcases; cbn [andb]; f_equal; lia.
Qed.

Lemma hex4_hexdigit (c : Z) :
  0 <= c < 65536 ->
  JsonDecode.hex4 (Json.hexdigit ((c / 4096) mod 16))
                  (Json.hexdigit ((c / 256) mod 16))
                  (Json.hexdigit ((c / 16) mod 16))
                  (Json.hexdigit (c mod 16)) = Some c.
Proof.
  intros H. unfold JsonDecode.hex4.
  rewrite !hexval_hexdigit by (apply Z.mod_pos_bound; lia).
  f_equal. Z.div_mod_to_equations; lia.
Qed.

Lemma scanstring_u (h1 h2 h3 h4 u : Z) (s3 : str) :
  JsonDecode.hex4 h1 h2 h3 h4 = Some u ->
  JsonDecode.is_high u = false ->
  JsonDecode.scanstring (BACKSLASH :: 117 :: h1 :: h2 :: h3 :: h4 :: s3)
  = JsonDecode.attach u (JsonDecode.scanstring s3).
Proof.
  intros Hhex Hhigh.
  cbn [JsonDecode.scanstring].
  change (BACKSLASH =? DQUOTE) with false.
  change (BACKSLASH =? BACKSLASH) with true.
  change (117 =? 117) with true. cbv iota.
  rewrite Hhex.
  destruct s3 as [|b [|v [|g1 [|g2 [|g3 [|g4 s4]]]]]]; try reflexivity.
  destruct (JsonDecode.hex4 g1 g2 g3 g4); [|reflexivity].
  rewrite Hhigh. reflexivity.
Qed.

Lemma scanstring_escape (c : Z) (more : str) :
  JsonDecode.scanstring (Json.escape c ++ more)
  = JsonDecode.attach c (JsonDecode.scanstring more).
Proof.
  unfold Json.escape.
  destruct (Z.eqb_spec c BACKSLASH) as [->|Hbs]; [reflexivity|].
  destruct (Z.eqb_spec c DQUOTE) as [->|Hdq]; [reflexivity|].
  destruct (Z.eqb_spec c 8) as [->|H8]; [reflexivity|].
  destruct (Z.eqb_spec c 12) as [->|H12]; [reflexivity|].
  destruct (Z.eqb_spec c 10) as [->|H10]; [reflexivity|].
  destruct (Z.eqb_spec c 13) as [->|H13]; [reflexivity|].
  destruct (Z.eqb_spec c 9) as [->|H9]; [reflexivity|].
  destruct ((0 <=? c) && (c <? 32)) eqn:Hctl.
  - apply andb_true_iff in Hctl. destruct Hctl as [H0 H32].
    apply Z.leb_le in H0. apply Z.ltb_lt in H32.
    cbn [app]. apply scanstring_u.
    + apply hex4_hexdigit. lia.
    + unfold JsonDecode.is_high. apply andb_false_iff. left.
      apply Z.leb_gt. lia.
  - cbn [app JsonDecode.scanstring].
    destruct (Z.eqb_spec c DQUOTE); [contradiction|].
    destruct (Z.eqb_spec c BACKSLASH); [contradiction|].
    rewrite Hctl. reflexivity.
Qed.

Lemma scanstring_flat (s rest : str) :
  JsonDecode.scanstring (flat_map Json.escape s ++ DQUOTE :: rest)
  = Some (s, rest).
Proof.
  induction s as [|c s IH]; [reflexivity|].
  cbn [flat_map]. rewrite <- app_assoc, scanstring_escape, IH. reflexivity.
Qed.

Lemma basestring_app (s rest : str) :
  Json.encode_basestring s ++ rest
  = DQUOTE :: flat_map Json.escape s ++ DQUOTE :: rest.
Proof.
  unfold Json.encode_basestring. cbn [app]. rewrite <- app_assoc. reflexivity.
Qed.

Lemma skip_ws_stop (c : Z) (s : str) :
  JsonDecode.is_ws c = false -> JsonDecode.skip_ws (c :: s) = c :: s.
Proof. intros H. cbn [JsonDecode.skip_ws]. rewrite H. reflexivity. Qed.

Lemma skip_ws_spaces (n : nat) (s : str) :
  JsonDecode.skip_ws (repeat Json.SPACE n ++ s) = JsonDecode.skip_ws s.
Proof. induction n as [|n IH]; [reflexivity|exact IH]. Qed.

Lemma skip_ws_newline_indent (level : nat) (s : str) :
  JsonDecode.skip_ws (Json.newline_indent level ++ s) = JsonDecode.skip_ws s.
Proof.
  unfold Json.newline_indent. cbn [app].
  change (JsonDecode.skip_ws (LF :: ?x)) with (JsonDecode.skip_ws x).
  apply skip_ws_spaces.
Qed.

Lemma scan_pairs_member (fuel : nat) (d : pydict) (key value rest : str) :
  JsonDecode.scan_pairs (S fuel) d
    (Json.encode_basestring key ++ Json.key_separator
     ++ Json.encode_basestring value ++ rest)
  = match JsonDecode.skip_ws rest with
    | n :: s6 =>
        if n =? 125 then Some (JsonDecode.dict_set d key value, s6)
        else if n =? COMMA then
          JsonDecode.scan_pairs fuel (JsonDecode.dict_set d key value)
                                (JsonDecode.skip_ws s6)
        else None
    | [] => None
    end.
Proof.
  rewrite !basestring_app. unfold Json.key_separator. cbn [app].
  cbn [JsonDecode.scan_pairs].
  change (DQUOTE =? DQUOTE) with true. cbv iota.
  rewrite scanstring_flat. cbv iota beta.
  rewrite (skip_ws_stop 58) by reflexivity.
  change (58 =? 58) with true. cbv iota.
  change (JsonDecode.skip_ws (Json.SPACE :: ?x)) with (JsonDecode.skip_ws x).
  rewrite (skip_ws_stop DQUOTE) by reflexivity.
  change (DQUOTE =? DQUOTE) with true. cbv iota.
  rewrite scanstring_flat. reflexivity.
Qed.

Lemma scan_object_fund (fuel : nat) (a b rest : str) :
  (2 <= fuel)%nat ->
  JsonDecode.scan_object fuel
    (Json.newline_indent 2
     ++ Json.encode_basestring key_id ++ Json.key_separator
     ++ Json.encode_basestring a
     ++ (Json.item_separator ++ Json.newline_indent 2)
     ++ Json.encode_basestring key_name ++ Json.key_separator
     ++ Json.encode_basestring b
     ++ Json.newline_indent 1 ++ [125] ++ rest)
  = Some (fund a b, rest).
Proof.
  intros Hfuel. destruct fuel as [|[|fuel]]; try lia.
  unfold JsonDecode.scan_object.
  rewrite skip_ws_newline_indent.
  rewrite (basestring_app key_id).
  rewrite (skip_ws_stop DQUOTE) by reflexivity.
  change (DQUOTE =? 125) with false. cbv iota.
  rewrite <- (basestring_app key_id).
  rewrite scan_pairs_member.
  unfold Json.item_separator at 1. rewrite <- app_assoc. cbn [app].
  rewrite (skip_ws_stop COMMA) by reflexivity.
  change (COMMA =? 125) with false.
  change (COMMA =? COMMA) with true. cbv iota.
  rewrite skip_ws_newline_indent.
  rewrite (basestring_app key_name).
  rewrite (skip_ws_stop DQUOTE) by reflexivity.
  rewrite <- (basestring_app key_name).
  rewrite scan_pairs_member.
  rewrite skip_ws_newline_indent. cbn [app].
  rewrite (skip_ws_stop 125) by reflexivity.
  reflexivity.
Qed.

Lemma dict_text (a b rest : str) :
  concat (Json.iterencode_dict (fund a b) 1) ++ rest
  = 123 :: Json.newline_indent 2
     ++ Json.encode_basestring key_id ++ Json.key_separator
     ++ Json.encode_basestring a
     ++ (Json.item_separator ++ Json.newline_indent 2)
     ++ Json.encode_basestring key_name ++ Json.key_separator
     ++ Json.encode_basestring b
     ++ Json.newline_indent 1 ++ [125] ++ rest.
Proof.
  unfold fund. cbn [Json.iterencode_dict Json.iterencode_items app concat].
  repeat rewrite <- app_assoc. reflexivity.
Qed.

Lemma scan_elems_funds (funds : list pydict) :
  forall (d : pydict) (fuel : nat) (tail : str),
    Forall Spec.is_fund (d :: funds) ->
    (length funds + 3 <= fuel)%nat ->
    JsonDecode.scan_elems fuel
      (concat (Json.iterencode_dict d 1)
       ++ concat (Json.iterencode_elems
                    (Json.item_separator ++ Json.newline_indent 1) 1 funds)
       ++ Json.newline_indent 0 ++ [93] ++ tail)
    = Some (d :: funds, tail).
Proof.
  induction funds as [|d' funds IH]; intros d fuel tail Hall Hfuel;
    inversion Hall as [|? ? [a [b ->]] Hrest]; subst;
    (destruct fuel as [|fuel]; [cbn [length] in Hfuel; lia|]);
    cbn [length] in Hfuel;
    rewrite dict_text; cbn [JsonDecode.scan_elems];
    change (123 =? 123) with true; cbv iota;
    rewrite scan_object_fund by lia.
  - cbn [Json.iterencode_elems concat app].
    rewrite skip_ws_newline_indent. cbn [app].
    rewrite (skip_ws_stop 93) by reflexivity. reflexivity.
  - rewrite elems_cons. repeat rewrite <- app_assoc.
    unfold Json.item_separator at 1. cbn [app].
    rewrite (skip_ws_stop COMMA) by reflexivity.
    change (COMMA =? 93) with false.
    change (COMMA =? COMMA) with true. cbv iota.
    rewrite skip_ws_newline_indent.
    inversion Hrest as [|? ? [a' [b' Hd']] Hrest']; subst.
    rewrite dict_text. rewrite (skip_ws_stop 123) by reflexivity.
    rewrite <- dict_text.
    assert (Hfuel' : (length funds + 3 <= fuel)%nat) by lia.
    pose proof (IH (fund a' b') fuel tail Hrest Hfuel') as E.
    cbn [app] in E. rewrite E. reflexivity.
Qed.

Lemma elems_length (lst : list pydict) :
  forall (buf : str) (level : nat),
    (length lst <= length (concat (Json.iterencode_elems buf level lst)))%nat.
Proof.
  induction lst as [|d lst IH]; intros buf level; [cbn; lia|].
  rewrite elems_cons, !length_app. cbn [length].
  specialize (IH (Json.item_separator ++ Json.newline_indent level) level).
  assert (1 <= length (concat (Json.iterencode_dict d level)))%nat;
    [|lia].
  destruct d; cbn [Json.iterencode_dict concat app length]; lia.
Qed.

Lemma loads_dumps (funds : list pydict) :
  Forall Spec.is_fund funds ->
  JsonDecode.loads (Json.dumps funds) = Some funds.
Proof.
  intros Hall. destruct funds as [|d funds]; [reflexivity|].
  unfold JsonDecode.loads.
  assert (Hlen : (length funds + 3 <= S (length (Json.dumps (d :: funds))))%nat).
  { unfold Json.dumps, Json.iterencode. rewrite concat_app, length_app.
    pose proof (elems_length (d :: funds) (91 :: Json.newline_indent 1) 1)
      as Hl.
    cbn [length] in Hl. cbn [concat length app].
    change (length (Json.newline_indent 0 ++ [93])) with 2%nat. lia. }
  revert Hlen. generalize (S (length (Json.dumps (d :: funds)))) as fuel.
  intros fuel Hlen.
  unfold Json.dumps, Json.iterencode.
  rewrite concat_app, elems_cons. cbn [concat]. rewrite app_nil_r.
  repeat rewrite <- app_assoc. cbn [app].
  rewrite (skip_ws_stop 91) by reflexivity.
  change (91 =? 91) with true. cbv iota.
  unfold JsonDecode.scan_array.
  rewrite skip_ws_newline_indent.
  inversion Hall as [|? ? [a [b Hd]] Hrest]; subst.
  rewrite dict_text, (skip_ws_stop 123) by reflexivity.
  change (123 =? 93) with false. cbv iota.
  rewrite <- dict_text.
  pose proof (scan_elems_funds funds (fund a b) fuel [] Hall Hlen) as E.
  cbn [app] in E. rewrite E. reflexivity.
Qed.

(** A loop that ends normally has parsed every data line, and what it
    returns are the accepted records of the rows. *)
Lemma for_lines_parsed (i n : nat) (data : list str) :
  forall acc funds,
    for_lines i n acc data = Ok funds ->
    exists rows,
      Forall2 (fun line row => Csv.next_reader [line] = Ok row) data rows
      /\ funds = acc ++ Spec.records i n rows.
Proof.
  induction data as [|line data IH]; intros acc funds; cbn [for_lines].
  - intros E. exists []. split; [constructor|].
    rewrite app_nil_r. congruence.
  - destruct (Csv.next_reader [line]) as [row|e] eqn:Erow.
    + rewrite (loop_body_row i n acc line row Erow). intros E.
      destruct (IH _ _ E) as (rows & Hrows & ->).
      exists (row :: rows). split; [constructor; assumption|].
      rewrite <- app_assoc, <- records_app. reflexivity.
    + rewrite (loop_body_raise i n acc line e Erow). discriminate.
Qed.

(** C7. The file a successful run leaves is read back as exactly the
    accepted records of the rows of the data lines, in their order: its
    bytes decode as UTF-8 and the decoded text parses as JSON into that
    list. Running again, from the state the first run left or from any
    state with the same source file, succeeds and leaves the same bytes. *)
Theorem C7_round_trip_and_rerun
  (big5_map : Z -> Z -> option Z) (w w' : World) :
  generate_fund_list big5_map w = (ReturnSuccess, w') ->
  exists lines w1 i n rows out text,
    read_lines big5_map (print w MsgReading) = (Ok lines, w1)
    /\ index col_id (split COMMA (strip (nth 2 lines []))) = Some i
    /\ index col_name (split COMMA (strip (nth 2 lines []))) = Some n
    /\ Forall2 (fun line row => Csv.next_reader [line] = Ok row)
               (skipn 3 lines) rows
    /\ json_file w' = Some out
    /\ Codec.utf_8_decode out = Some text
    /\ JsonDecode.loads text = Some (Spec.records i n rows)
    /\ (exists w2,
           generate_fund_list big5_map w' = (ReturnSuccess, w2)
           /\ json_file w2 = Some out)
    /\ (forall w0,
           csv_file w0 = csv_file w ->
           exists w2,
             generate_fund_list big5_map w0 = (ReturnSuccess, w2)
             /\ json_file w2 = Some out).
Proof.
  intros Hrun.
  destruct (run_success_inv _ _ _ Hrun)
    as (lines & w1 & i & n & funds & out & Hr & Hlen & Hi & Hn & Hf & Hw & Hw').
  assert (Hfunds : Forall Spec.is_fund funds)
    by (apply (for_lines_funds _ _ _ _ _ Hf); constructor).
  destruct (for_lines_parsed _ _ _ _ _ Hf) as (rows & Hrows & Hrec).
  cbn [app] in Hrec.
  destruct (write_chunks_ok _ _ _ Hw) as [b [Henc ->]]. cbn [app] in *.
  assert (Hfile : json_file w' = Some b) by (subst w'; reflexivity).
  assert (Hcsv : csv_file w' = csv_file w).
  { destruct (read_lines_world _ _ _ _ Hr) as (Hc & _).
    subst w'. cbn. rewrite Hc. reflexivity. }
  exists lines, w1, i, n, rows, b, (Json.dumps funds).
  split; [exact Hr|]. split; [exact Hi|]. split; [exact Hn|].
  split; [exact Hrows|]. split; [exact Hfile|].
  split; [exact (utf_8_round_trip _ _ Henc)|].
  split; [rewrite <- Hrec; apply loads_dumps; exact Hfunds|].
  split.
  - destruct (run_same_csv big5_map w w' w' Hrun Hcsv)
      as (w2 & Hrun2 & Hfile2 & _).
    exists w2. split; [exact Hrun2|]. rewrite Hfile2. exact Hfile.
  - intros w0 Hcsv0.
    destruct (run_same_csv big5_map w w' w0 Hrun Hcsv0)
      as (w2 & Hrun2 & Hfile2 & _).
    exists w2. split; [exact Hrun2|]. rewrite Hfile2. exact Hfile.
Qed.

Lemma C7_round_trip_and_rerun_witness :
  exists i n rows out text,
    json_file (snd (generate_fund_list Sample.big5_map
                      (Sample.world (Some Sample.raw)))) = Some out
    /\ Codec.utf_8_decode out = Some text
    /\ JsonDecode.loads text = Some (Spec.records i n rows)
    /\ exists w2,
         generate_fund_list Sample.big5_map
           (snd (generate_fund_list Sample.big5_map
                   (Sample.world (Some Sample.raw))))
         = (ReturnSuccess, w2)
         /\ json_file w2 = Some out.
Proof.
  destruct (C7_round_trip_and_rerun Sample.big5_map
              (Sample.world (Some Sample.raw))
              (snd (generate_fund_list Sample.big5_map
                      (Sample.world (Some Sample.raw)))))
    as (lines & w1 & i & n & rows & out & text & _ & _ & _ & _
        & Hfile & Hdec & Hloads & Hrerun & _).
  - vm_compute; reflexivity.
  - exists i, n, rows, out, text. auto.
Defined.

(** * Further properties of the script *)

(** ** The paths *)

Lemma rfind_absent (c : Z) (s : str) : ~ In c s -> Path.rfind c s = -1.
Proof.
  induction s as [|x s IH]; intros Hn; [reflexivity|].
  cbn [Path.rfind]. rewrite IH by (intros Hin; apply Hn; right; exact Hin).
  cbn. destruct (Z.eqb_spec x c) as [->|]; [|reflexivity].
  exfalso; apply Hn; left; reflexivity.
Qed.

Lemma rfind_last (c : Z) (p tail : str) :
  ~ In c tail -> Path.rfind c (p ++ c :: tail) = Z.of_nat (length p).
Proof.
  intros Hn. induction p as [|x p IH].
  - cbn [app Path.rfind length]. rewrite (rfind_absent _ _ Hn).
    cbn. rewrite Z.eqb_refl. reflexivity.
  - cbn [app Path.rfind length]. rewrite IH.
    destruct (Z.leb_spec 0 (Z.of_nat (length p))); lia.
Qed.

Lemma endswith_app (c : Z) (x y : str) :
  y <> [] -> Path.endswith c (x ++ y) = Path.endswith c y.
Proof.
  intros Hy. unfold Path.endswith. rewrite rev_app_distr.
  destruct (rev y) as [|a l] eqn:E; [|reflexivity].
  exfalso. apply Hy. rewrite <- (rev_involutive y), E. reflexivity.
Qed.

Lemma endswith_absent (c : Z) (y : str) :
  ~ In c y -> Path.endswith c y = false.
Proof.
  intros Hn. unfold Path.endswith.
  destruct (rev y) as [|a l] eqn:E; [reflexivity|].
  cbn. destruct (Z.eqb_spec a c) as [->|]; [|reflexivity].
  exfalso. apply Hn, in_rev. rewrite E. left; reflexivity.
Qed.

Lemma endswith_other (c : Z) (p : str) :
  p <> [] -> Path.endswith c p = false -> exists a, In a p /\ a <> c.
Proof.
  intros Hp. unfold Path.endswith.
  destruct (rev p) as [|a l] eqn:E.
  - exfalso. apply Hp. rewrite <- (rev_involutive p), E. reflexivity.
  - cbn. intros Ha. exists a. split.
    + apply in_rev. rewrite E. left; reflexivity.
    + apply Z.eqb_neq; exact Ha.
Qed.

Lemma rstrip_char_last (c : Z) (p : str) :
  Path.endswith c p = false -> Path.rstrip_char c (p ++ [c]) = p.
Proof.
  unfold Path.endswith, Path.rstrip_char. rewrite rev_app_distr.
  cbn [rev app Path.lstrip_char]. rewrite Z.eqb_refl.
  destruct (rev p) as [|a l] eqn:E.
  - intros _. rewrite <- (rev_involutive p), E. reflexivity.
  - cbn [Path.startswith Path.lstrip_char]. intros ->.
    rewrite <- E. apply rev_involutive.
Qed.

(** The directory of a path whose last component follows a directory name
    that does not end with a separator. *)
Lemma dirname_child (p tail : str) :
  p <> [] -> Path.endswith Path.SEP p = false -> ~ In Path.SEP tail ->
  Path.dirname (p ++ Path.SEP :: tail) = p.
Proof.
  intros Hp Hend Htail. unfold Path.dirname.
  rewrite (rfind_last _ _ _ Htail).
  replace (Z.to_nat (Z.of_nat (length p) + 1)) with (length (p ++ [Path.SEP]))
    by (rewrite length_app; cbn [length]; lia).
  replace (p ++ Path.SEP :: tail) with ((p ++ [Path.SEP]) ++ tail)
    by (rewrite <- app_assoc; reflexivity).
  rewrite firstn_app, firstn_all, Nat.sub_diag. cbn [firstn].
  rewrite app_nil_r.
  assert (Hne : truthy (p ++ [Path.SEP]) = true) by (destruct p; reflexivity).
  assert (Hneq : str_eqb (p ++ [Path.SEP])
                         (repeat Path.SEP (length (p ++ [Path.SEP]))) = false).
  { destruct (str_eqb _ _) eqn:E; [|reflexivity].
    apply str_eqb_eq in E.
    destruct (endswith_other _ _ Hp Hend) as (a & Hin & Ha).
    exfalso. apply Ha. apply (repeat_spec (length (p ++ [Path.SEP]))).
    rewrite <- E. apply in_or_app. left; exact Hin. }
  rewrite Hne, Hneq. cbn [andb negb].
  apply rstrip_char_last; exact Hend.
Qed.

(** Joining a name that holds no separator to a directory. *)
Lemma join_step_name (path b : str) :
  b <> [] -> ~ In Path.SEP b ->
  Path.join_step path b
  = (if negb (truthy path) || Path.endswith Path.SEP path
     then path else path ++ [Path.SEP]) ++ b.
Proof.
  intros Hb Hn. unfold Path.join_step.
  assert (Hs : Path.startswith Path.SEP b = false).
  { destruct b as [|x b]; [reflexivity|]. cbn.
    apply Z.eqb_neq. intros ->. apply Hn; left; reflexivity. }
  rewrite Hs.
  destruct (negb (truthy path) || Path.endswith Path.SEP path);
    [reflexivity|]. rewrite <- app_assoc. reflexivity.
Qed.

Lemma join_step_after_name (x b c : str) :
  b <> [] -> ~ In Path.SEP b -> c <> [] -> ~ In Path.SEP c ->
  Path.join_step (x ++ b) c = (x ++ b) ++ Path.SEP :: c.
Proof.
  intros Hb Hnb Hc Hnc. rewrite (join_step_name _ _ Hc Hnc).
  rewrite (endswith_app _ x b Hb), (endswith_absent _ _ Hnb).
  destruct (x ++ b) eqn:E.
  - destruct x; destruct b; try discriminate. exfalso; apply Hb; reflexivity.
  - cbn [truthy negb orb]. rewrite <- app_assoc. reflexivity.
Qed.

Ltac no_sep :=
  let H := fresh in
  intros H; vm_compute in H;
  repeat (destruct H as [H|H]; [discriminate H|]); exact H.

Lemma join_step_dir (p c : str) :
  p <> [] -> Path.endswith Path.SEP p = false ->
  c <> [] -> ~ In Path.SEP c ->
  Path.join_step p c = p ++ Path.SEP :: c
  /\ p ++ Path.SEP :: c <> []
  /\ Path.endswith Path.SEP (p ++ Path.SEP :: c) = false.
Proof.
  intros Hp Hend Hc Hnc. split; [|split].
  - rewrite (join_step_name _ _ Hc Hnc), Hend.
    destruct p; [contradiction|]. cbn [truthy negb orb].
    rewrite <- app_assoc. reflexivity.
  - destruct p; discriminate.
  - replace (p ++ Path.SEP :: c) with ((p ++ [Path.SEP]) ++ c)
      by (rewrite <- app_assoc; reflexivity).
    rewrite (endswith_app _ _ _ Hc). apply endswith_absent; exact Hnc.
Qed.

Lemma join_step_first (a c : str) :
  c <> [] -> ~ In Path.SEP c ->
  Path.join_step a c <> []
  /\ Path.endswith Path.SEP (Path.join_step a c) = false.
Proof.
  intros Hc Hnc. rewrite (join_step_name _ _ Hc Hnc). split.
  - intros E. apply app_eq_nil in E. destruct E as [_ E]. contradiction.
  - rewrite (endswith_app _ _ _ Hc). apply endswith_absent; exact Hnc.
Qed.

(** X1. Whatever the place of the script, the directory that the run
    creates before writing, [os.path.dirname(JSON_PATH)], is
    [os.path.join(BASE_DIR, 'src', 'data')], and [JSON_PATH] is the file
    [fund-list.json] directly inside it; likewise [CSV_PATH] is the source
    file directly inside [os.path.join(BASE_DIR, 'public', 'data',
    'fund')]. *)
Theorem X1_output_directory_holds_the_file (file : str) :
  Path.dirname (JSON_PATH file)
  = Path.join (BASE_DIR file) [lit "src"; lit "data"]
  /\ JSON_PATH file
     = Path.dirname (JSON_PATH file) ++ Path.SEP :: lit "fund-list.json"
  /\ Path.dirname (CSV_PATH file)
     = Path.join (BASE_DIR file) [lit "public"; lit "data"; lit "fund"]
  /\ CSV_PATH file = Path.dirname (CSV_PATH file) ++ Path.SEP :: csv_name.
Proof.
  unfold JSON_PATH, CSV_PATH, Path.join. cbn [fold_left].
  generalize (BASE_DIR file) as base. intros base.
  destruct (join_step_first base (lit "src")) as [Hs1 Hs2];
    [discriminate|no_sep|].
  destruct (join_step_dir (Path.join_step base (lit "src")) (lit "data")
              Hs1 Hs2) as (Hd & Hd1 & Hd2); [discriminate|no_sep|].
  destruct (join_step_dir _ (lit "fund-list.json") Hd1 Hd2)
    as (Hf & _ & _); [discriminate|no_sep|].
  destruct (join_step_first base (lit "public")) as [Hp1 Hp2];
    [discriminate|no_sep|].
  destruct (join_step_dir (Path.join_step base (lit "public")) (lit "data")
              Hp1 Hp2) as (He & He1 & He2); [discriminate|no_sep|].
  destruct (join_step_dir _ (lit "fund") He1 He2)
    as (Hg & Hg1 & Hg2); [discriminate|no_sep|].
  destruct (join_step_dir _ csv_name Hg1 Hg2)
    as (Hc & _ & _); [discriminate|no_sep|].
  rewrite Hd, Hf, He, Hg, Hc.
  rewrite !dirname_child; try assumption; try no_sep.
  repeat split; reflexivity.
Qed.

(** X2. For a script stored as [root/dir/name], where [root] is not empty
    and does not end with a separator and neither [dir] (not empty) nor
    [name] holds one, [BASE_DIR] is [root]: the source is read from
    [root/public/data/fund/] and the list written to
    [root/src/data/fund-list.json]. *)
Theorem X2_paths_from_script_location (root dir name : str) :
  root <> [] -> Path.endswith Path.SEP root = false ->
  dir <> [] -> ~ In Path.SEP dir -> ~ In Path.SEP name ->
  BASE_DIR (root ++ Path.SEP :: dir ++ Path.SEP :: name) = root
  /\ CSV_PATH (root ++ Path.SEP :: dir ++ Path.SEP :: name)
     = root ++ lit "/public/data/fund/" ++ csv_name
  /\ JSON_PATH (root ++ Path.SEP :: dir ++ Path.SEP :: name)
     = root ++ lit "/src/data/fund-list.json".
Proof.
  intros Hroot Hend Hdir Hnd Hnn.
  assert (Hbase : BASE_DIR (root ++ Path.SEP :: dir ++ Path.SEP :: name)
                  = root).
  { unfold BASE_DIR.
    replace (root ++ Path.SEP :: dir ++ Path.SEP :: name)
      with ((root ++ Path.SEP :: dir) ++ Path.SEP :: name)
      by (rewrite <- app_assoc; reflexivity).
    rewrite (dirname_child (root ++ Path.SEP :: dir) name).
    - apply dirname_child; assumption.
    - destruct root; discriminate.
    - replace (root ++ Path.SEP :: dir) with ((root ++ [Path.SEP]) ++ dir)
        by (rewrite <- app_assoc; reflexivity).
      rewrite (endswith_app _ _ _ Hdir). apply endswith_absent; exact Hnd.
    - exact Hnn. }
  split; [exact Hbase|].
  unfold CSV_PATH, JSON_PATH, Path.join. rewrite Hbase. cbn [fold_left].
  destruct (join_step_dir root (lit "public") Hroot Hend)
    as (Hp & Hp1 & Hp2); [discriminate|no_sep|].
  destruct (join_step_dir _ (lit "data") Hp1 Hp2)
    as (He & He1 & He2); [discriminate|no_sep|].
  destruct (join_step_dir _ (lit "fund") He1 He2)
    as (Hg & Hg1 & Hg2); [discriminate|no_sep|].
  destruct (join_step_dir _ csv_name Hg1 Hg2)
    as (Hc & _ & _); [discriminate|no_sep|].
  destruct (join_step_dir root (lit "src") Hroot Hend)
    as (Hs & Hs1 & Hs2); [discriminate|no_sep|].
  destruct (join_step_dir _ (lit "data") Hs1 Hs2)
    as (Hd & Hd1 & Hd2); [discriminate|no_sep|].
  destruct (join_step_dir _ (lit "fund-list.json") Hd1 Hd2)
    as (Hf & _ & _); [discriminate|no_sep|].
  rewrite Hp, He, Hg, Hc, Hs, Hd, Hf.
  repeat rewrite <- app_assoc. split; f_equal.
Qed.

Lemma X2_paths_from_script_location_witness :
  BASE_DIR (lit "/repo/scripts/generate_fund_list.py") = lit "/repo"
  /\ JSON_PATH (lit "/repo/scripts/generate_fund_list.py")
     = lit "/repo/src/data/fund-list.json".
Proof.
  destruct (X2_paths_from_script_location
              (lit "/repo") (lit "scripts") (lit "generate_fund_list.py"))
    as (Hb & _ & Hj).
  - discriminate.
  - reflexivity.
  - discriminate.
  - no_sep.
  - no_sep.
  - split; [exact Hb | exact Hj].
Defined.

(** ** How a run can fail *)

Lemma iternext_raise (input : list str) :
  forall (self : Csv.ReaderObj) (e : exn),
    Csv.iternext self input = Raise e -> e = CsvError \/ e = StopIteration.
Proof.
  induction input as [|line input IH]; intros self e; cbn [Csv.iternext].
  - destruct (negb (Csv.field_len self =? 0)
              || Csv.state_eqb (Csv.state self) Csv.IN_QUOTED_FIELD);
      intros H; inversion H; auto.
  - destruct (Csv.parse_line self line) as [self1|];
      [|intros H; inversion H; auto].
    destruct (Csv.parse_process_char self1 Csv.EOL) as [self2|];
      [|intros H; inversion H; auto].
    destruct (Csv.state_eqb (Csv.state self2) Csv.START_RECORD);
      [discriminate|apply IH].
Qed.

Lemma loop_body_raise_csv (i n : nat) (funds : list pydict) (line : str)
  (e : exn) :
  loop_body i n funds line = Raise e ->
  e = CsvError /\ Csv.next_reader [line] = Raise CsvError.
Proof.
  unfold loop_body.
  destruct (Csv.next_reader [line]) as [row|e0] eqn:E.
  - destruct (Nat.max i n <? length row)%nat; [|discriminate].
    destruct (truthy (strip (nth i row [])) && truthy (strip (nth n row [])));
      discriminate.
  - intros H; inversion H; subst e0.
    assert (He : e = CsvError \/ e = StopIteration).
    { unfold Csv.next_reader in E.
      destruct (Csv.iternext Csv.parse_reset [line]) as [[row rest]|e1] eqn:E1;
        [discriminate|].
      inversion E; subst. exact (iternext_raise _ _ _ E1). }
    destruct He as [->| ->]; [auto|].
    exfalso. exact (next_reader_no_stop line E).
Qed.

Lemma for_lines_raise (i n : nat) (data : list str) :
  forall (acc : list pydict) (e : exn),
    for_lines i n acc data = Raise e ->
    e = CsvError
    /\ exists line, In line data /\ Csv.next_reader [line] = Raise CsvError.
Proof.
  induction data as [|line data IH]; intros acc e; cbn [for_lines];
    [discriminate|].
  destruct (loop_body i n acc line) as [acc'|e0] eqn:E.
  - intros H. destruct (IH _ _ H) as (He & l & Hin & Hl).
    split; [exact He|]. exists l. split; [right; exact Hin|exact Hl].
  - intros H; inversion H; subst e0.
    destruct (loop_body_raise_csv _ _ _ _ _ E) as [He Hl].
    split; [exact He|]. exists line. split; [left; reflexivity|exact Hl].
Qed.

Lemma write_chunks_exn (chunks : list str) :
  forall (written out : bytes) (e : exn),
    write_chunks written chunks = (out, Some e) -> e = UnicodeEncodeError.
Proof.
  induction chunks as [|c chunks IH]; intros written out e;
    cbn [write_chunks]; [discriminate|].
  destruct (Codec.utf_8_encode c); [apply IH|].
  intros H; inversion H; reflexivity.
Qed.

Lemma read_lines_raise (big5_map : Z -> Z -> option Z) (w w1 : World)
  (e : exn) :
  read_lines big5_map w = (Raise e, w1) ->
  (csv_file w = None /\ e = FileNotFoundError /\ w1 = w)
  \/ (exists raw,
         csv_file w = Some raw /\ Codec.utf_8_sig_decode raw = None
         /\ Codec.big5_decode big5_map raw = None
         /\ e = UnicodeDecodeError /\ w1 = print w MsgTryingBig5).
Proof.
  unfold read_lines. destruct (csv_file w) as [raw|].
  - destruct (Codec.utf_8_sig_decode raw) eqn:E1; [discriminate|].
    destruct (Codec.big5_decode big5_map raw) eqn:E2; [discriminate|].
    intros H; inversion H; subst. right. exists raw. auto.
  - intros H; inversion H; subst. left. auto.
Qed.

Lemma read_lines_ok (big5_map : Z -> Z -> option Z) (w w1 : World)
  (lines : list str) :
  read_lines big5_map w = (Ok lines, w1) ->
  exists raw,
    csv_file w = Some raw
    /\ ((exists text, Codec.utf_8_sig_decode raw = Some text
                      /\ lines = readlines text /\ w1 = w)
        \/ (exists text, Codec.utf_8_sig_decode raw = None
                         /\ Codec.big5_decode big5_map raw = Some text
                         /\ lines = readlines text
                         /\ w1 = print w MsgTryingBig5)).
Proof.
  unfold read_lines. destruct (csv_file w) as [raw|]; [|discriminate].
  destruct (Codec.utf_8_sig_decode raw) as [text|] eqn:E1.
  - intros H; inversion H; subst.
    exists raw. split; [reflexivity|]. left. exists text. auto.
  - destruct (Codec.big5_decode big5_map raw) as [text|] eqn:E2;
      [|discriminate].
    intros H; inversion H; subst.
    exists raw. split; [reflexivity|]. right. exists text. auto.
Qed.

(** The three places where a run can raise. *)
Lemma run_raised_inv (big5_map : Z -> Z -> option Z) (w w' : World)
  (e : exn) :
  generate_fund_list big5_map w = (Raised e, w') ->
  read_lines big5_map (print w MsgReading) = (Raise e, w')
  \/ (exists lines i n,
         read_lines big5_map (print w MsgReading) = (Ok lines, w')
         /\ for_lines i n [] (skipn 3 lines) = Raise e)
  \/ (e = UnicodeEncodeError /\ json_dir w' = true
      /\ exists lines w1,
           read_lines big5_map (print w MsgReading) = (Ok lines, w1)).
Proof.
  unfold generate_fund_list.
  destruct (read_lines big5_map (print w MsgReading)) as [[lines|e0] w1]
    eqn:Er.
  - destruct (length lines <? 3)%nat; [discriminate|].
    destruct (index col_id _) as [i|]; [|discriminate].
    destruct (index col_name _) as [n|]; [|discriminate].
    destruct (for_lines i n [] (skipn 3 lines)) as [funds|e1] eqn:Ef.
    + unfold json_dump.
      destruct (write_chunks [] (Json.iterencode funds)) as [out [e2|]]
        eqn:Ew; [|discriminate].
      intros H; inversion H; subst. right; right.
      split; [exact (write_chunks_exn _ _ _ _ Ew)|].
      split; [reflexivity|]. exists lines, w1. reflexivity.
    + intros H; inversion H; subst. right; left.
      exists lines, i, n. auto.
  - intros H; inversion H; subst. left. reflexivity.
Qed.

(** X3. A run that raises does so with one of four exceptions, never with
    [StopIteration]: [FileNotFoundError] exactly when the source file is
    missing, [UnicodeDecodeError] exactly when the file is neither UTF-8
    nor Big5, and [csv.Error] only when some data line (a line after the
    third) is one the CSV reader rejects. *)
Theorem X3_exceptions_of_a_run
  (big5_map : Z -> Z -> option Z) (w w' : World) (e : exn) :
  generate_fund_list big5_map w = (Raised e, w') ->
  e <> StopIteration
  /\ (e = FileNotFoundError <-> csv_file w = None)
  /\ (e = UnicodeDecodeError <->
      exists raw,
        csv_file w = Some raw /\ Codec.utf_8_sig_decode raw = None
        /\ Codec.big5_decode big5_map raw = None)
  /\ (e = CsvError ->
      exists lines w1 line,
        read_lines big5_map (print w MsgReading) = (Ok lines, w1)
        /\ In line (skipn 3 lines)
        /\ Csv.next_reader [line] = Raise CsvError).
Proof.
  intros Hrun.
  destruct (run_raised_inv _ _ _ _ Hrun)
    as [Hr | [(lines & i & n & Hr & Hf) | (He & _ & lines & w1 & Hr)]].
  - destruct (read_lines_raise _ _ _ _ Hr)
      as [(Hc & -> & _) | (raw & Hc & H1 & H2 & -> & _)]; cbn in Hc.
    + split; [discriminate|]. split; [tauto|].
      split; [|discriminate].
      split; [discriminate|]. intros (raw & Hraw & _). congruence.
    + split; [discriminate|].
      split; [split; [discriminate|congruence]|].
      split; [|discriminate].
      split; [intros _; exists raw; auto | reflexivity].
  - destruct (for_lines_raise _ _ _ _ _ Hf) as (-> & line & Hin & Hline).
    destruct (read_lines_ok _ _ _ _ Hr) as (raw & Hc & Hdec). cbn in Hc.
    split; [discriminate|].
    split; [split; [discriminate|congruence]|].
    split.
    + split; [discriminate|]. intros (raw' & Hc' & H1 & H2).
      assert (raw' = raw) by congruence. subst raw'.
      destruct Hdec as [(t & Ht & _) | (t & _ & Ht & _)]; congruence.
    + intros _. exists lines, w', line. auto.
  - subst e. destruct (read_lines_ok _ _ _ _ Hr) as (raw & Hc & Hdec).
    cbn in Hc.
    split; [discriminate|].
    split; [split; [discriminate|congruence]|].
    split; [|discriminate].
    split; [discriminate|]. intros (raw' & Hc' & H1 & H2).
    assert (raw' = raw) by congruence. subst raw'.
    destruct Hdec as [(t & Ht & _) | (t & _ & Ht & _)]; congruence.
Qed.

Lemma X3_exceptions_of_a_run_witness :
  FileNotFoundError <> StopIteration
  /\ (FileNotFoundError = FileNotFoundError
      <-> csv_file (Sample.world None) = None).
Proof.
  destruct (X3_exceptions_of_a_run Sample.big5_map (Sample.world None)
              (snd (generate_fund_list Sample.big5_map (Sample.world None)))
              FileNotFoundError)
    as (Hstop & Hmissing & _).
  - reflexivity.
  - split; [exact Hstop | exact Hmissing].
Defined.

(** X4. Output is touched only by the write step: a run that raises
    anything but [UnicodeEncodeError] (a missing file, a file in neither
    encoding, a data line the CSV reader rejects) leaves the output file
    and its directory exactly as they were, whatever the number of rows
    already accepted. *)
Theorem X4_failure_before_writing_keeps_output
  (big5_map : Z -> Z -> option Z) (w w' : World) (e : exn) :
  generate_fund_list big5_map w = (Raised e, w') ->
  e <> UnicodeEncodeError ->
  json_file w' = json_file w /\ json_dir w' = json_dir w
  /\ csv_file w' = csv_file w.
Proof.
  intros Hrun Hne.
  destruct (run_raised_inv _ _ _ _ Hrun)
    as [Hr | [(lines & i & n & Hr & Hf) | (He & _)]];
    [| |contradiction];
    destruct (read_lines_world _ _ _ _ Hr) as (Hc & Hj & Hd);
    cbn in Hc, Hj, Hd; auto.
Qed.

Lemma X4_failure_before_writing_keeps_output_witness :
  json_file (snd (generate_fund_list Sample.big5_map
                    (mkWorld (Some [255]) true (Some [91; 93]) [])))
  = Some [91; 93].
Proof.
  destruct (X4_failure_before_writing_keeps_output Sample.big5_map
              (mkWorld (Some [255]) true (Some [91; 93]) [])
              (snd (generate_fund_list Sample.big5_map
                      (mkWorld (Some [255]) true (Some [91; 93]) [])))
              UnicodeDecodeError)
    as (Hfile & _).
  - reflexivity.
  - discriminate.
  - exact Hfile.
Defined.

(** ** What a run prints and how many records it keeps *)

Lemma filter_length (A : Type) (f : A -> bool) (l : list A) :
  (length (filter f l) <= length l)%nat.
Proof.
  induction l as [|a l IH]; cbn [filter length]; [lia|].
  destruct (f a); cbn [length]; lia.
Qed.

(** X5. A successful run prints, after what was already on the output, the
    reading message, the Big5 notice exactly when the file is not UTF-8,
    then the number of records it is about to write and the success
    marker; nothing else. The number is that of the records of the rows
    the data lines parse into, at the positions that [col_id] and
    [col_name] have in the header line. *)
Theorem X5_progress_trace
  (big5_map : Z -> Z -> option Z) (w w' : World) :
  generate_fund_list big5_map w = (ReturnSuccess, w') ->
  exists raw lines w1 i n rows,
    csv_file w = Some raw
    /\ read_lines big5_map (print w MsgReading) = (Ok lines, w1)
    /\ index col_id (split COMMA (strip (nth 2 lines []))) = Some i
    /\ index col_name (split COMMA (strip (nth 2 lines []))) = Some n
    /\ Forall2 (fun line row => Csv.next_reader [line] = Ok row)
               (skipn 3 lines) rows
    /\ for_lines i n [] (skipn 3 lines) = Ok (Spec.records i n rows)
    /\ stdout w'
       = stdout w ++ [MsgReading]
         ++ match Codec.utf_8_sig_decode raw with
            | Some _ => []
            | None => [MsgTryingBig5]
            end
         ++ [MsgWriting (length (Spec.records i n rows)); MsgSuccess].
Proof.
  intros Hrun.
  destruct (run_success_inv _ _ _ Hrun)
    as (lines & w1 & i & n & funds & out & Hr & Hlen & Hi & Hn & Hf & Hw & ->).
  destruct (read_lines_ok _ _ _ _ Hr) as (raw & Hc & Hdec). cbn in Hc.
  destruct (for_lines_parsed _ _ _ _ _ Hf) as (rows & Hrows & Hrec).
  cbn [app] in Hrec. subst funds.
  exists raw, lines, w1, i, n, rows.
  split; [exact Hc|]. split; [exact Hr|]. split; [exact Hi|].
  split; [exact Hn|]. split; [exact Hrows|]. split; [exact Hf|].
  cbn [stdout print set_json_file makedirs].
  destruct Hdec as [(t & Ht & _ & ->) | (t & Ht & _ & _ & ->)];
    rewrite Ht; cbn [stdout print];
    repeat rewrite <- app_assoc; reflexivity.
Qed.

Lemma X5_progress_trace_witness :
  stdout (snd (generate_fund_list Sample.big5_map
                 (Sample.world (Some Sample.raw_big5))))
  = [MsgReading; MsgTryingBig5; MsgWriting 1; MsgSuccess].
Proof.
  destruct (X5_progress_trace Sample.big5_map
              (Sample.world (Some Sample.raw_big5))
              (snd (generate_fund_list Sample.big5_map
                      (Sample.world (Some Sample.raw_big5)))))
    as (raw & lines & w1 & i & n & rows & Hc & Hr & Hi & Hn & _ & Hf & Hout).
  - vm_compute; reflexivity.
  - rewrite Hout. cbn in Hc. inversion Hc; subst raw.
    vm_compute in Hr. inversion Hr; subst lines w1.
    vm_compute in Hi. inversion Hi; subst i.
    vm_compute in Hn. inversion Hn; subst n.
    remember (Spec.records 0 1 rows) as recs eqn:Erecs.
    vm_compute in Hf. inversion Hf as [Hrec]. reflexivity.
Defined.

(** X6. The rows loop only appends: the list it returns is the list it
    started from followed by at most one record per data line. *)
Theorem X6_at_most_one_record_per_line
  (i n : nat) (data : list str) (acc funds : list pydict) :
  for_lines i n acc data = Ok funds ->
  exists more,
    funds = acc ++ more /\ (length more <= length data)%nat.
Proof.
  intros Hf. destruct (for_lines_parsed _ _ _ _ _ Hf) as (rows & Hrows & ->).
  exists (Spec.records i n rows). split; [reflexivity|].
  unfold Spec.records. rewrite length_map.
  rewrite (Forall2_length Hrows). apply filter_length.
Qed.

Lemma X6_at_most_one_record_per_line_witness :
  exists more,
    Sample.funds = [] ++ more /\ (length more <= 4)%nat.
Proof.
  apply (X6_at_most_one_record_per_line 0 1 (skipn 3 Sample.lines) []
           Sample.funds).
  vm_compute; reflexivity.
Defined.

(** X8. The rows loop stops at the first data line the CSV reader rejects
    and raises its error, however many lines before it were accepted and
    whatever follows: no list is returned. *)
Theorem X8_first_rejected_line_stops_the_loop
  (i n : nat) (acc : list pydict) (d1 d2 : list str) (line : str)
  (rows : list (list str)) :
  Forall2 (fun l row => Csv.next_reader [l] = Ok row) d1 rows ->
  Csv.next_reader [line] = Raise CsvError ->
  for_lines i n acc (d1 ++ line :: d2) = Raise CsvError.
Proof.
  intros Hrows Hline.
  rewrite for_lines_app, (for_lines_rows _ _ _ _ Hrows).
  cbn [for_lines]. rewrite (loop_body_raise _ _ _ _ _ Hline). reflexivity.
Qed.

Lemma X8_first_rejected_line_stops_the_loop_witness :
  for_lines 0 1 []
    ([lit "001,Alpha" ++ [LF]] ++ Sample.long_line :: [lit "003,Beta" ++ [LF]])
  = Raise CsvError.
Proof.
  apply (X8_first_rejected_line_stops_the_loop 0 1 []
           [lit "001,Alpha" ++ [LF]] [lit "003,Beta" ++ [LF]]
           Sample.long_line [[lit "001"; lit "Alpha"]]).
  - constructor; [vm_compute; reflexivity | constructor].
  - vm_compute; reflexivity.
Defined.

(** ** [str.strip] on the two values of a row *)

Lemma lstrip_spaces (ws s : str) :
  Forall (fun c => isspace c = true) ws -> lstrip (ws ++ s) = lstrip s.
Proof.
  induction 1 as [|c ws Hc _ IH]; [reflexivity|].
  cbn [app lstrip]. rewrite Hc. exact IH.
Qed.

Lemma lstrip_nil (s : str) :
  lstrip s = [] <-> Forall (fun c => isspace c = true) s.
Proof.
  split.
  - intros H. destruct (lstrip_split s) as (ws & Hws & Hs).
    rewrite H, app_nil_r in Hs. subst s. exact Hws.
  - intros H. rewrite <- (app_nil_r s). rewrite (lstrip_spaces _ _ H).
    reflexivity.
Qed.

Lemma rstrip_split (s : str) :
  exists ws, Forall (fun c => isspace c = true) ws /\ s = rstrip s ++ ws.
Proof.
  destruct (lstrip_split (rev s)) as (ws & Hws & Hs).
  exists (rev ws). split; [apply Forall_rev; exact Hws|].
  unfold rstrip. rewrite <- rev_app_distr, <- Hs, rev_involutive.
  reflexivity.
Qed.

Lemma strip_nil (s : str) :
  strip s = [] <-> Forall (fun c => isspace c = true) s.
Proof.
  split.
  - intros H. destruct (lstrip_split s) as (ws & Hws & Hs).
    destruct (rstrip_split (lstrip s)) as (ws' & Hws' & Hs').
    fold (strip s) in Hs'. rewrite H in Hs'. cbn [app] in Hs'.
    rewrite Hs, Hs'. apply Forall_app. split; assumption.
  - intros H. unfold strip. apply lstrip_nil in H. rewrite H. reflexivity.
Qed.

(** X9. A value counts as missing exactly when it consists of white space
    only (the empty value included): [strip] returns the empty string for
    such values and for no others, and a row whose identifier or name is
    such a value leaves the list of records as it was. *)
Theorem X9_blank_values_are_missing :
  (forall s : str,
      strip s = [] <-> Forall (fun c => isspace c = true) s)
  /\ (forall (i n : nat) (funds : list pydict) (line : str) (row : list str),
         Csv.next_reader [line] = Ok row ->
         Forall (fun c => isspace c = true) (nth i row [])
         \/ Forall (fun c => isspace c = true) (nth n row []) ->
         loop_body i n funds line = Ok funds).
Proof.
  split; [exact strip_nil|].
  intros i n funds line row Hrow Hblank. unfold loop_body. rewrite Hrow.
  destruct (Nat.max i n <? length row)%nat; [|reflexivity].
  destruct Hblank as [H|H]; apply strip_nil in H; rewrite H;
    [reflexivity|]. rewrite andb_false_r. reflexivity.
Qed.

(** X10. [strip] removes the white space around a value and nothing else:
    a value made of a trimmed text between two runs of white space is
    stripped to that text, white space inside it included. *)
Theorem X10_strip_keeps_the_inner_text (l m r : str) :
  Forall (fun c => isspace c = true) l ->
  Forall (fun c => isspace c = true) r ->
  Spec.trimmed m ->
  strip (l ++ m ++ r) = m.
Proof.
  intros Hl Hr [Hm1 Hm2]. unfold strip. rewrite (lstrip_spaces _ _ Hl).
  destruct m as [|c m].
  - cbn [app]. apply lstrip_nil in Hr. rewrite Hr. reflexivity.
  - assert (Hc : isspace c = false) by exact (lstrip_head _ _ _ Hm1).
    cbn [app lstrip]. rewrite Hc. unfold rstrip.
    change (c :: m ++ r) with ((c :: m) ++ r).
    rewrite rev_app_distr, (lstrip_spaces (rev r)) by (apply Forall_rev; exact Hr).
    rewrite Hm2. apply rev_involutive.
Qed.

Lemma X10_strip_keeps_the_inner_text_witness :
  strip (lit "  " ++ lit "Alpha Growth Fund" ++ [32; LF])
  = lit "Alpha Growth Fund".
Proof.
  apply (X10_strip_keeps_the_inner_text (lit "  ") (lit "Alpha Growth Fund")
           [32; LF]).
  - repeat constructor.
  - repeat constructor.
  - split; reflexivity.
Defined.

Lemma X9_blank_values_are_missing_witness :
  loop_body 0 1 [] (lit " ,Orphan Fund" ++ [LF]) = Ok [].
Proof.
  destruct X9_blank_values_are_missing as [_ Hrow].
  apply (Hrow 0%nat 1%nat [] (lit " ,Orphan Fund" ++ [LF])
           [lit " "; lit "Orphan Fund"]).
  - vm_compute; reflexivity.
  - left. repeat constructor.
Defined.

(** ** [readlines] in text mode *)

Lemma keep_lines_nil (u : str) : keep_lines u = [] -> u = [].
Proof.
  destruct u as [|c u]; [reflexivity|]. cbn [keep_lines].
  destruct (c =? LF); [discriminate|].
  destruct (keep_lines u); discriminate.
Qed.

Lemma keep_lines_concat (u : str) : concat (keep_lines u) = u.
Proof.
  induction u as [|c u IH]; [reflexivity|]. cbn [keep_lines].
  destruct (Z.eqb_spec c LF) as [->|Hc].
  - cbn [concat app]. rewrite IH. reflexivity.
  - destruct (keep_lines u) as [|l ls] eqn:E.
    + rewrite (keep_lines_nil _ E). reflexivity.
    + cbn [concat app] in *. rewrite IH. reflexivity.
Qed.




Lemma universal_newlines_crlf (t : str) :
  Forall (fun c => c <> CR) t -> universal_newlines (Text.crlf t) = t.
Proof.
  induction 1 as [|c t Hc _ IH]; [reflexivity|].
  unfold Text.crlf. cbn [flat_map]. fold (Text.crlf t).
  destruct (Z.eqb_spec c LF) as [->|Hlf].
  - cbn [app universal_newlines].
    change (CR =? CR) with true. change (LF =? LF) with true. cbv iota.
    rewrite IH. reflexivity.
  - cbn [app universal_newlines].
    destruct (Z.eqb_spec c CR); [contradiction|]. rewrite IH. reflexivity.
Qed.

Lemma universal_newlines_cr (t : str) :
  Forall (fun c => c <> CR) t ->
  universal_newlines (map (fun c => if c =? LF then CR else c) t) = t.
Proof.
  induction 1 as [|c t Hc _ IH]; [reflexivity|].
  cbn [map universal_newlines].
  destruct (Z.eqb_spec c LF) as [->|Hlf].
  - change (CR =? CR) with true. cbv iota.
    destruct t as [|d t]; [reflexivity|].
    cbn [map] in *.
    assert (Hd : ((if d =? LF then CR else d) =? LF) = false).
    { destruct (Z.eqb_spec d LF); [reflexivity|].
      apply Z.eqb_neq; assumption. }
    rewrite Hd, IH. reflexivity.
  - destruct (Z.eqb_spec c CR); [contradiction|]. rewrite IH. reflexivity.
Qed.

(** X12. The line ending convention of the file does not matter: a text
    written with carriage return and line feed, or with carriage return
    alone, at the end of each line is read as the same lines as the text
    written with line feeds. *)
Theorem X12_line_endings_do_not_matter (t : str) :
  Forall (fun c => c <> CR) t ->
  readlines (Text.crlf t) = readlines t
  /\ readlines (map (fun c => if c =? LF then CR else c) t) = readlines t.
Proof.
  intros H. unfold readlines.
  rewrite (universal_newlines_crlf _ H), (universal_newlines_cr _ H),
    (universal_newlines_id _ H).
  split; reflexivity.
Qed.

Lemma X12_line_endings_do_not_matter_witness :
  readlines (Text.crlf Sample.text) = Sample.lines.
Proof.
  destruct (X12_line_endings_do_not_matter Sample.text) as [H _].
  - vm_compute. repeat constructor; discriminate.
  - rewrite H. vm_compute. reflexivity.
Defined.

(** ** The CSV reader on lines without quotes *)

(** The fields that saving the current field would give. *)
Lemma unquoted_body (body : str) :
  forall (st : Csv.ParserState) (fs : list str) (buf : str),
    st = Csv.START_FIELD \/ st = Csv.IN_FIELD ->
    ~ In DQUOTE body ->
    Forall (fun c => Csv.is_newline c = false) body ->
    Z.of_nat (length buf + length body) <= Csv.field_limit ->
    exists st' fs' buf',
      Csv.parse_line (Csv.mkReader st fs buf (Z.of_nat (length buf))) body
      = Some (Csv.mkReader st' fs' buf' (Z.of_nat (length buf')))
      /\ (st' = Csv.START_FIELD \/ st' = Csv.IN_FIELD)
      /\ fs' ++ [rev buf']
         = fs ++ match split COMMA body with
                 | p :: ps => (rev buf ++ p) :: ps
                 | [] => []
                 end.
Proof.
  induction body as [|c body IH]; intros st fs buf Hst Hq Hnl Hlim.
  - exists st, fs, buf. cbn [Csv.parse_line split].
    rewrite app_nil_r. auto.
  - inversion Hnl as [|? ? Hc Hrest]; subst.
    assert (Hcq : (c =? DQUOTE) = false).
    { apply Z.eqb_neq. intros ->. apply Hq; left; reflexivity. }
    assert (Hq' : ~ In DQUOTE body)
      by (intros Hin; apply Hq; right; exact Hin).
    cbn [length] in Hlim. rewrite parse_line_cons. cbn [split].
    destruct (Z.eqb_spec c COMMA) as [->|Hcomma].
    + assert (Hstep :
                Csv.parse_process_char
                  (Csv.mkReader st fs buf (Z.of_nat (length buf)))
                  (Csv.Chr COMMA)
                = Some (Csv.mkReader Csv.START_FIELD (fs ++ [rev buf]) []
                                     (Z.of_nat (@length Z [])))).
      { destruct Hst as [-> | ->]; reflexivity. }
      rewrite Hstep.
      destruct (IH Csv.START_FIELD (fs ++ [rev buf]) [])
        as (st' & fs' & buf' & Hp & Hst' & Hrow); auto.
      { cbn [length]. lia. }
      exists st', fs', buf'. split; [exact Hp|]. split; [exact Hst'|].
      rewrite Hrow, <- app_assoc, app_nil_r. cbn [rev app].
      pose proof (split_nonempty COMMA body) as Hne.
      destruct (split COMMA body); [contradiction|reflexivity].
    + assert (Hstep :
                Csv.parse_process_char
                  (Csv.mkReader st fs buf (Z.of_nat (length buf)))
                  (Csv.Chr c)
                = Some (Csv.mkReader Csv.IN_FIELD fs (c :: buf)
                                     (Z.of_nat (length (c :: buf))))).
      { assert (Hcc : (c =? COMMA) = false) by (apply Z.eqb_neq; exact Hcomma).
        assert (Hadd := add_char_ok).
        destruct Hst as [-> | ->];
          unfold Csv.parse_process_char, Csv.start_field;
          cbn [Csv.state]; rewrite Hc, ?Hcq, Hcc.
        - unfold Csv.set_state.
          rewrite (Hadd Csv.START_FIELD fs buf c) by lia. reflexivity.
        - rewrite (Hadd Csv.IN_FIELD fs buf c) by lia. reflexivity. }
      rewrite Hstep.
      destruct (IH Csv.IN_FIELD fs (c :: buf))
        as (st' & fs' & buf' & Hp & Hst' & Hrow); auto.
      { cbn [length]. lia. }
      exists st', fs', buf'. split; [exact Hp|]. split; [exact Hst'|].
      rewrite Hrow. cbn [rev].
      pose proof (split_nonempty COMMA body) as Hne.
      destruct (split COMMA body) as [|p ps]; [contradiction|].
      rewrite <- app_assoc. reflexivity.
Qed.

Lemma parse_line_start (c : Z) (rest : str) :
  Csv.is_newline c = false ->
  Csv.parse_line Csv.parse_reset (c :: rest)
  = Csv.parse_line (Csv.mkReader Csv.START_FIELD [] [] 0) (c :: rest).
Proof.
  intros Hc. rewrite !parse_line_cons.
  unfold Csv.parse_process_char, Csv.parse_reset. cbn [Csv.state].
  rewrite Hc. reflexivity.
Qed.

(** X13. On a line that holds no double quote the CSV reader and the plain
    split on commas used for the header agree: for a non-empty line
    without quote or carriage return, within the field size limit, with or
    without its final line feed, the row is the list of the pieces between
    the commas. *)
Theorem X13_unquoted_line_is_split_on_commas (body : str) :
  body <> [] ->
  ~ In DQUOTE body ->
  Forall (fun c => Csv.is_newline c = false) body ->
  Z.of_nat (length body) <= Csv.field_limit ->
  Csv.next_reader [body ++ [LF]] = Ok (split COMMA body)
  /\ Csv.next_reader [body] = Ok (split COMMA body).
Proof.
  intros Hne Hq Hnl Hlim.
  destruct (unquoted_body body Csv.START_FIELD [] [])
    as (st' & fs' & buf' & Hp & Hst' & Hrow); auto.
  assert (Hsplit : fs' ++ [rev buf'] = split COMMA body).
  { rewrite Hrow. cbn [rev app].
    destruct (split COMMA body); reflexivity. }
  destruct body as [|c body]; [contradiction|].
  assert (Hc : Csv.is_newline c = false) by (inversion Hnl; assumption).
  change (Z.of_nat (@length Z [])) with 0 in Hp.
  unfold Csv.next_reader. cbn [Csv.iternext]. split.
  - change ((c :: body) ++ [LF]) with (c :: (body ++ [LF])).
    rewrite (parse_line_start c _ Hc).
    change (c :: (body ++ [LF])) with ((c :: body) ++ [LF]).
    rewrite CsvFacts.parse_line_app, Hp.
    destruct Hst' as [-> | ->]; cbn; rewrite Hsplit; reflexivity.
  - rewrite (parse_line_start c _ Hc), Hp.
    destruct Hst' as [-> | ->]; cbn; rewrite Hsplit; reflexivity.
Qed.

Lemma X13_unquoted_line_is_split_on_commas_witness :
  Csv.next_reader [lit "003,Beta Bond Fund" ++ [LF]]
  = Ok (split COMMA (lit "003,Beta Bond Fund")).
Proof.
  destruct (X13_unquoted_line_is_split_on_commas (lit "003,Beta Bond Fund"))
    as [H _].
  - discriminate.
  - no_sep.
  - vm_compute. repeat constructor.
  - vm_compute. discriminate.
  - exact H.
Defined.

(** ** UTF-8: the decoder accepts the canonical encoding only *)

Ltac bool_facts :=
  repeat match goal with
         | H : _ && _ = true |- _ =>
             apply andb_true_iff in H; destruct H
         | H : negb _ = true |- _ => apply negb_true_iff in H
         | H : _ && _ = false |- _ => apply andb_false_iff in H
         | H : (_ <=? _) = true |- _ => apply Z.leb_le in H
         | H : (_ <? _) = true |- _ => apply Z.ltb_lt in H
         | H : (_ <=? _) = false \/ _ |- _ => rewrite Z.leb_gt in H
         | H : _ \/ (_ <=? _) = false |- _ => rewrite Z.leb_gt in H
         | H : (_ <=? _) = false |- _ => apply Z.leb_gt in H
         | H : (_ <? _) = false |- _ => apply Z.ltb_ge in H
         end.

Lemma cons_opt_inv (c : Z) (r : option str) (s : str) :
  Codec.cons_opt c r = Some s -> exists s', r = Some s' /\ s = c :: s'.
Proof.
  destruct r as [s'|]; [|discriminate].
  intros H; inversion H. exists s'. auto.
Qed.

Lemma encode_1 (b0 : Z) :
  0 <= b0 < 128 -> Codec.utf_8_encode_char b0 = Some [b0].
Proof. intros H. unfold Codec.utf_8_encode_char. zcases. reflexivity. Qed.

Lemma encode_2 (b0 b1 : Z) :
  194 <= b0 <= 223 -> 128 <= b1 <= 191 ->
  Codec.utf_8_encode_char ((b0 - 192) * 64 + (b1 - 128)) = Some [b0; b1].
Proof.
  intros H0 H1. unfold Codec.utf_8_encode_char. zcases.
  f_equal. f_equal; [|f_equal]; Z.div_mod_to_equations; lia.
Qed.

Lemma encode_3 (b0 b1 b2 : Z) :
  224 <= b0 <= 239 -> 128 <= b1 <= 191 -> 128 <= b2 <= 191 ->
  2048 <= (b0 - 224) * 4096 + (b1 - 128) * 64 + (b2 - 128) ->
  ~ (55296 <= (b0 - 224) * 4096 + (b1 - 128) * 64 + (b2 - 128) <= 57343) ->
  Codec.utf_8_encode_char ((b0 - 224) * 4096 + (b1 - 128) * 64 + (b2 - 128))
  = Some [b0; b1; b2].
Proof.
  intros H0 H1 H2 Hlow Hsur. unfold Codec.utf_8_encode_char.
  destruct (Z.ltb_spec ((b0 - 224) * 4096 + (b1 - 128) * 64 + (b2 - 128)) 0);
    [lia|].
  destruct (Z.ltb_spec ((b0 - 224) * 4096 + (b1 - 128) * 64 + (b2 - 128)) 128);
    [lia|].
  destruct (Z.ltb_spec ((b0 - 224) * 4096 + (b1 - 128) * 64 + (b2 - 128)) 2048);
    [lia|].
  destruct (Z.ltb_spec ((b0 - 224) * 4096 + (b1 - 128) * 64 + (b2 - 128))
                       65536); [|lia].
  destruct (Z.leb_spec 55296
              ((b0 - 224) * 4096 + (b1 - 128) * 64 + (b2 - 128)));
    destruct (Z.leb_spec ((b0 - 224) * 4096 + (b1 - 128) * 64 + (b2 - 128))
                         57343); cbn [andb]; try lia;
    (f_equal; f_equal; [|f_equal; [|f_equal]]; Z.div_mod_to_equations; lia).
Qed.

Lemma encode_4 (b0 b1 b2 b3 : Z) :
  240 <= b0 <= 244 -> 128 <= b1 <= 191 -> 128 <= b2 <= 191 ->
  128 <= b3 <= 191 ->
  65536 <= (b0 - 240) * 262144 + (b1 - 128) * 4096 + (b2 - 128) * 64
           + (b3 - 128) <= 1114111 ->
  Codec.utf_8_encode_char ((b0 - 240) * 262144 + (b1 - 128) * 4096
                           + (b2 - 128) * 64 + (b3 - 128))
  = Some [b0; b1; b2; b3].
Proof.
  intros H0 H1 H2 H3 Hc. unfold Codec.utf_8_encode_char. zcases.
  f_equal. f_equal; [|f_equal; [|f_equal; [|f_equal]]];
    Z.div_mod_to_equations; lia.
Qed.

Lemma utf_8_decode_encode_len (k : nat) :
  forall (b : bytes) (s : str),
    (length b <= k)%nat ->
    Codec.utf_8_decode b = Some s -> Codec.utf_8_encode s = Some b.
Proof.
  induction k as [|k IH]; intros b s Hlen;
    (destruct b as [|b0 r0];
     [cbn; intros H; inversion H; reflexivity|]);
    cbn [length] in Hlen; [lia|].
  cbn [Codec.utf_8_decode].
  destruct ((0 <=? b0) && (b0 <? 128)) eqn:E1.
  { intros H. apply cons_opt_inv in H. destruct H as (s' & Hr & ->).
    bool_facts. cbn [Codec.utf_8_encode].
    rewrite encode_1 by lia. rewrite (IH r0 s') by (auto; lia).
    reflexivity. }
  destruct ((194 <=? b0) && (b0 <=? 223)) eqn:E2.
  { destruct r0 as [|b1 r1]; [discriminate|].
    destruct (Codec.is_cont b1) eqn:C1; [|discriminate].
    intros H. apply cons_opt_inv in H. destruct H as (s' & Hr & ->).
    unfold Codec.is_cont in C1. bool_facts. cbn [Codec.utf_8_encode].
    rewrite encode_2 by lia.
    cbn [length] in Hlen. rewrite (IH r1 s') by (auto; lia).
    reflexivity. }
  destruct ((224 <=? b0) && (b0 <=? 239)) eqn:E3.
  { destruct r0 as [|b1 [|b2 r2]]; try discriminate.
    cbv zeta.
    destruct (Codec.is_cont b1 && Codec.is_cont b2
              && (2048 <=? (b0 - 224) * 4096 + (b1 - 128) * 64 + (b2 - 128))
              && negb ((55296 <=? (b0 - 224) * 4096 + (b1 - 128) * 64
                                  + (b2 - 128))
                       && ((b0 - 224) * 4096 + (b1 - 128) * 64 + (b2 - 128)
                           <=? 57343))) eqn:C; [|discriminate].
    intros H. apply cons_opt_inv in H. destruct H as (s' & Hr & ->).
    unfold Codec.is_cont in C. clear E1 E2. bool_facts.
    cbn [Codec.utf_8_encode].
    rewrite encode_3 by lia.
    cbn [length] in Hlen. rewrite (IH r2 s') by (auto; lia).
    reflexivity. }
  destruct ((240 <=? b0) && (b0 <=? 244)) eqn:E4; [|discriminate].
  destruct r0 as [|b1 [|b2 [|b3 r3]]]; try discriminate.
  cbv zeta.
  destruct (Codec.is_cont b1 && Codec.is_cont b2 && Codec.is_cont b3
            && (65536 <=? (b0 - 240) * 262144 + (b1 - 128) * 4096
                          + (b2 - 128) * 64 + (b3 - 128))
            && ((b0 - 240) * 262144 + (b1 - 128) * 4096 + (b2 - 128) * 64
                + (b3 - 128) <=? 1114111)) eqn:C; [|discriminate].
  intros H. apply cons_opt_inv in H. destruct H as (s' & Hr & ->).
  unfold Codec.is_cont in C. clear E1 E2 E3. bool_facts.
  cbn [Codec.utf_8_encode].
  rewrite encode_4 by lia.
  cbn [length] in Hlen. rewrite (IH r3 s') by (auto; lia).
  reflexivity.
Qed.

Lemma encode_char_scalar (c : Z) (b : bytes) :
  Codec.utf_8_encode_char c = Some b -> Text.scalar c.
Proof.
  unfold Codec.utf_8_encode_char, Text.scalar.
  destruct (Z.ltb_spec c 0); [discriminate|].
  destruct (Z.ltb_spec c 128); [lia|].
  destruct (Z.ltb_spec c 2048); [lia|].
  destruct (Z.ltb_spec c 65536).
  - destruct (Z.leb_spec 55296 c); destruct (Z.leb_spec c 57343);
      cbn [andb]; try discriminate; lia.
  - destruct (Z.ltb_spec c 1114112); [lia|discriminate].
Qed.

Lemma scalar_encode_char (c : Z) :
  Text.scalar c -> exists b, Codec.utf_8_encode_char c = Some b.
Proof.
  unfold Codec.utf_8_encode_char, Text.scalar. intros [Hr Hs].
  destruct (Z.ltb_spec c 0); [lia|].
  destruct (Z.ltb_spec c 128); [eauto|].
  destruct (Z.ltb_spec c 2048); [eauto|].
  destruct (Z.ltb_spec c 65536).
  - destruct (Z.leb_spec 55296 c); destruct (Z.leb_spec c 57343);
      cbn [andb]; eauto; lia.
  - destruct (Z.ltb_spec c 1114112); [eauto|lia].
Qed.

Lemma encode_scalar (s : str) :
  forall b, Codec.utf_8_encode s = Some b -> Forall Text.scalar s.
Proof.
  induction s as [|c s IH]; intros b; [constructor|].
  cbn [Codec.utf_8_encode].
  destruct (Codec.utf_8_encode_char c) as [bc|] eqn:Ec; [|discriminate].
  destruct (Codec.utf_8_encode s) as [bs|]; [|discriminate].
  intros _. constructor; [exact (encode_char_scalar _ _ Ec)|].
  exact (IH bs eq_refl).
Qed.

Lemma scalar_encode (s : str) :
  Forall Text.scalar s -> exists b, Codec.utf_8_encode s = Some b.
Proof.
  induction 1 as [|c s Hc _ [bs IH]]; [exists []; reflexivity|].
  destruct (scalar_encode_char c Hc) as [bc Hbc].
  exists (bc ++ bs). cbn [Codec.utf_8_encode]. rewrite Hbc, IH. reflexivity.
Qed.

(** X14. The UTF-8 decoder and encoder are inverse of each other: some
    octets decode to a text exactly when the text encodes to those octets.
    So the decoder accepts only the one canonical encoding of a text, what
    it returns holds Unicode scalar values only (no surrogate, nothing
    above U+10FFFF), and exactly the texts of scalar values can be
    written. *)
Theorem X14_utf_8_decoder_inverts_encoder :
  (forall (b : bytes) (s : str),
      Codec.utf_8_decode b = Some s <-> Codec.utf_8_encode s = Some b)
  /\ (forall (b : bytes) (s : str),
         Codec.utf_8_decode b = Some s -> Forall Text.scalar s)
  /\ (forall s : str,
         Forall Text.scalar s <-> Codec.utf_8_encode s <> None).
Proof.
  split; [|split].
  - intros b s. split.
    + apply (utf_8_decode_encode_len (length b)). lia.
    + apply utf_8_round_trip.
  - intros b s H. apply (encode_scalar s b).
    apply (utf_8_decode_encode_len (length b)); [lia|exact H].
  - intros s. split.
    + intros H. destruct (scalar_encode s H) as [b Hb]. congruence.
    + destruct (Codec.utf_8_encode s) as [b|] eqn:E; [|congruence].
      intros _. exact (encode_scalar s b E).
Qed.

Lemma X14_utf_8_decoder_inverts_encoder_witness :
  Codec.utf_8_encode Sample.text = Some Sample.raw
  /\ Forall Text.scalar Sample.text.
Proof.
  destruct X14_utf_8_decoder_inverts_encoder as (Hinv & Hscalar & _).
  assert (H : Codec.utf_8_decode Sample.raw = Some Sample.text)
    by (vm_compute; reflexivity).
  split; [apply Hinv; exact H | exact (Hscalar _ _ H)].
Defined.

(** ** Where the characters of the output come from *)

Ltac chars_done :=
  cbn [Csv.fields Csv.field]; split;
  repeat first [ assumption
               | apply Forall_nil
               | apply Forall_cons
               | apply Forall_rev
               | apply Forall_app; split ].

(** The reader only moves characters of the line into the fields. *)
Lemma step_chars (P : Z -> Prop) (r r' : Csv.ReaderObj) (c : Csv.sym) :
  Forall (Forall P) (Csv.fields r) -> Forall P (Csv.field r) ->
  match c with Csv.Chr x => P x | Csv.EOL => True end ->
  Csv.parse_process_char r c = Some r' ->
  Forall (Forall P) (Csv.fields r') /\ Forall P (Csv.field r').
Proof.
  destruct r as [st fs f fl]. cbn [Csv.fields Csv.field].
  intros Hfs Hf Hc.
  unfold Csv.parse_process_char, Csv.start_field, Csv.parse_add_char,
    Csv.set_state, Csv.parse_save_field.
  cbn [Csv.state Csv.fields Csv.field Csv.field_len].
  destruct st; destruct c as [x|];
    repeat match goal with
           | |- context [if ?b then _ else _] => destruct b
           end;
    intros H; inversion H; subst; chars_done.
Qed.

Lemma parse_line_chars (P : Z -> Prop) (line : str) :
  forall r r',
    Forall (Forall P) (Csv.fields r) -> Forall P (Csv.field r) ->
    Forall P line ->
    Csv.parse_line r line = Some r' ->
    Forall (Forall P) (Csv.fields r') /\ Forall P (Csv.field r').
Proof.
  induction line as [|c line IH]; intros r r' Hfs Hf Hline;
    cbn [Csv.parse_line].
  - intros H; inversion H; subst. auto.
  - inversion Hline as [|? ? Hc Hrest]; subst.
    destruct (Csv.parse_process_char r (Csv.Chr c)) as [r1|] eqn:E;
      [|discriminate].
    destruct (step_chars P r r1 (Csv.Chr c) Hfs Hf Hc E) as [Hfs1 Hf1].
    apply IH; assumption.
Qed.

Lemma iternext_chars (P : Z -> Prop) (input : list str) :
  forall r row rest,
    Forall (Forall P) (Csv.fields r) -> Forall P (Csv.field r) ->
    Forall (Forall P) input ->
    Csv.iternext r input = Ok (row, rest) ->
    Forall (Forall P) row.
Proof.
  induction input as [|line input IH]; intros r row rest Hfs Hf Hin;
    cbn [Csv.iternext].
  - destruct (negb (Csv.field_len r =? 0)
              || Csv.state_eqb (Csv.state r) Csv.IN_QUOTED_FIELD);
      [|discriminate].
    intros H; inversion H; subst. cbn [Csv.parse_save_field Csv.fields].
    apply Forall_app. split; [assumption|].
    constructor; [apply Forall_rev; assumption|constructor].
  - inversion Hin as [|? ? Hline Hrest]; subst.
    destruct (Csv.parse_line r line) as [r1|] eqn:E1; [|discriminate].
    destruct (parse_line_chars P line r r1 Hfs Hf Hline E1) as [Hfs1 Hf1].
    destruct (Csv.parse_process_char r1 Csv.EOL) as [r2|] eqn:E2;
      [|discriminate].
    destruct (step_chars P r1 r2 Csv.EOL Hfs1 Hf1 I E2) as [Hfs2 Hf2].
    destruct (Csv.state_eqb (Csv.state r2) Csv.START_RECORD).
    + intros H; inversion H; subst. assumption.
    + apply IH; assumption.
Qed.

Lemma next_reader_chars (P : Z -> Prop) (line : str) (row : list str) :
  Forall P line -> Csv.next_reader [line] = Ok row -> Forall (Forall P) row.
Proof.
  intros Hline. unfold Csv.next_reader.
  destruct (Csv.iternext Csv.parse_reset [line]) as [[row' rest]|] eqn:E;
    [|discriminate].
  intros H; inversion H; subst.
  apply (iternext_chars P [line] Csv.parse_reset row rest);
    [constructor|constructor|repeat constructor; assumption|exact E].
Qed.

Lemma lstrip_chars (P : Z -> Prop) (s : str) :
  Forall P s -> Forall P (lstrip s).
Proof.
  induction 1 as [|c s Hc Hs IH]; [constructor|].
  cbn [lstrip]. destruct (isspace c); [exact IH|constructor; assumption].
Qed.

Lemma strip_chars (P : Z -> Prop) (s : str) :
  Forall P s -> Forall P (strip s).
Proof.
  intros H. unfold strip, rstrip.
  apply Forall_rev, lstrip_chars, Forall_rev, lstrip_chars, H.
Qed.

Lemma nth_chars (P : Z -> Prop) (row : list str) (i : nat) :
  Forall (Forall P) row -> Forall P (nth i row []).
Proof.
  intros H. destruct (Nat.lt_ge_cases i (length row)) as [Hlt|Hge].
  - rewrite Forall_forall in H. apply H, nth_In, Hlt.
  - rewrite (nth_overflow row [] Hge). constructor.
Qed.

(** Every value of every record is made of characters of its line. *)
Lemma for_lines_chars (P : Z -> Prop) (i n : nat) (data : list str) :
  forall acc funds,
    Forall (Forall P) data ->
    Forall (fun d => exists a b, d = fund a b /\ Forall P a /\ Forall P b)
           acc ->
    for_lines i n acc data = Ok funds ->
    Forall (fun d => exists a b, d = fund a b /\ Forall P a /\ Forall P b)
           funds.
Proof.
  induction data as [|line data IH]; intros acc funds Hdata Hacc;
    cbn [for_lines].
  - intros H; inversion H; subst. exact Hacc.
  - inversion Hdata as [|? ? Hline Hrest]; subst.
    destruct (loop_body i n acc line) as [acc'|] eqn:E; [|discriminate].
    apply IH; [exact Hrest|].
    unfold loop_body in E.
    destruct (Csv.next_reader [line]) as [row|] eqn:Erow; [|discriminate].
    pose proof (next_reader_chars P line row Hline Erow) as Hrow.
    destruct (Nat.max i n <? length row)%nat;
      [|inversion E; subst; exact Hacc].
    destruct (truthy (strip (nth i row [])) && truthy (strip (nth n row [])));
      inversion E; subst; [|exact Hacc].
    apply Forall_app. split; [exact Hacc|].
    constructor; [|constructor].
    exists (strip (nth i row [])), (strip (nth n row [])).
    split; [reflexivity|].
    split; apply strip_chars, nth_chars, Hrow.
Qed.

Ltac scalar_const :=
  unfold Text.scalar, DQUOTE, BACKSLASH, LF, CR, COMMA, Json.SPACE; lia.

Lemma hexdigit_scalar (n : Z) :
  0 <= n < 16 -> Text.scalar (Json.hexdigit n).
Proof.
  intros H. unfold Json.hexdigit, Text.scalar.
  destruct (Z.ltb_spec n 10); lia.
Qed.

Lemma escape_scalar (c : Z) : Text.scalar c -> Forall Text.scalar (Json.escape c).
Proof.
  intros Hc. unfold Json.escape.
  repeat match goal with
         | |- context [if ?b then _ else _] => destruct b
         end;
    repeat first [ apply Forall_nil
                 | apply Forall_cons
                 | assumption
                 | apply hexdigit_scalar; apply Z.mod_pos_bound; lia
                 | scalar_const ].
Qed.

Lemma basestring_scalar (s : str) :
  Forall Text.scalar s -> Forall Text.scalar (Json.encode_basestring s).
Proof.
  intros H. unfold Json.encode_basestring.
  constructor; [scalar_const|]. apply Forall_app. split.
  - induction H as [|c s Hc _ IH]; [constructor|].
    cbn [flat_map]. apply Forall_app. split; [apply escape_scalar|]; assumption.
  - constructor; [scalar_const|constructor].
Qed.

Lemma newline_indent_scalar (level : nat) :
  Forall Text.scalar (Json.newline_indent level).
Proof.
  unfold Json.newline_indent. constructor; [scalar_const|].
  apply Forall_forall. intros x Hin. apply repeat_spec in Hin. subst x.
  scalar_const.
Qed.

Lemma dict_chunks_scalar (a b : str) :
  Forall Text.scalar a -> Forall Text.scalar b ->
  Forall (Forall Text.scalar) (Json.iterencode_dict (fund a b) 1).
Proof.
  intros Ha Hb. unfold fund.
  cbn [Json.iterencode_dict Json.iterencode_items app].
  assert (Hid : Forall Text.scalar key_id).
  { change key_id with [105; 100]. repeat constructor; scalar_const. }
  assert (Hname : Forall Text.scalar key_name).
  { change key_name with [110; 97; 109; 101].
    repeat constructor; scalar_const. }
  assert (Hsep : Forall Text.scalar Json.key_separator)
    by (repeat constructor; scalar_const).
  assert (Hitem : Forall Text.scalar
                    (Json.item_separator ++ Json.newline_indent 2)).
  { apply Forall_app. split; [|apply newline_indent_scalar].
    repeat constructor; scalar_const. }
  repeat first [ assumption
               | apply basestring_scalar
               | apply newline_indent_scalar
               | apply Forall_nil
               | apply Forall_cons
               | scalar_const ].
Qed.

Lemma elems_chunks_scalar (lst : list pydict) :
  forall buf,
    Forall Text.scalar buf ->
    Forall (fun d => exists a b,
                d = fund a b /\ Forall Text.scalar a /\ Forall Text.scalar b)
           lst ->
    Forall (Forall Text.scalar) (Json.iterencode_elems buf 1 lst).
Proof.
  induction lst as [|d lst IH]; intros buf Hbuf Hall; [constructor|].
  inversion Hall as [|? ? (a & b & -> & Ha & Hb) Hrest]; subst.
  cbn [Json.iterencode_elems]. constructor; [exact Hbuf|].
  apply Forall_app. split; [apply dict_chunks_scalar; assumption|].
  apply IH; [|exact Hrest].
  apply Forall_app. split; [|apply newline_indent_scalar].
  repeat constructor; scalar_const.
Qed.

Lemma iterencode_scalar (lst : list pydict) :
  Forall (fun d => exists a b,
              d = fund a b /\ Forall Text.scalar a /\ Forall Text.scalar b)
         lst ->
  Forall (Forall Text.scalar) (Json.iterencode lst).
Proof.
  intros Hall. destruct lst as [|d lst].
  - repeat constructor; scalar_const.
  - unfold Json.iterencode. apply Forall_app. split.
    + apply elems_chunks_scalar; [|exact Hall].
      constructor; [scalar_const|apply newline_indent_scalar].
    + constructor; [apply newline_indent_scalar|].
      repeat constructor; scalar_const.
Qed.

Lemma write_chunks_scalar (chunks : list str) :
  Forall (Forall Text.scalar) chunks ->
  forall written, snd (write_chunks written chunks) = None.
Proof.
  induction 1 as [|c chunks Hc _ IH]; intros written; [reflexivity|].
  cbn [write_chunks]. destruct (scalar_encode c Hc) as [b Hb].
  rewrite Hb. apply IH.
Qed.

Lemma universal_newlines_chars_len (P : Z -> Prop) (k : nat) :
  P LF ->
  forall t, (length t <= k)%nat -> Forall P t ->
            Forall P (universal_newlines t).
Proof.
  intros Hlf. induction k as [|k IH]; intros t Hlen Ht;
    (destruct t as [|c t]; [constructor|]); cbn [length] in Hlen; [lia|].
  inversion Ht as [|? ? Hc Hrest]; subst.
  cbn [universal_newlines]. destruct (c =? CR).
  - constructor; [exact Hlf|].
    destruct t as [|d t]; [constructor|].
    inversion Hrest as [|? ? Hd Hrest']; subst. cbn [length] in Hlen.
    destruct (d =? LF); apply IH; try assumption; cbn [length]; lia.
  - constructor; [exact Hc|]. apply IH; [lia|exact Hrest].
Qed.

Lemma keep_lines_chars (P : Z -> Prop) (u : str) :
  Forall P u -> Forall (Forall P) (keep_lines u).
Proof.
  intros H. apply Forall_concat. rewrite keep_lines_concat. exact H.
Qed.

Lemma readlines_chars (P : Z -> Prop) (t : str) :
  P LF -> Forall P t -> Forall (Forall P) (readlines t).
Proof.
  intros Hlf Ht. apply keep_lines_chars.
  apply (universal_newlines_chars_len P (length t) Hlf); [lia|exact Ht].
Qed.

Lemma utf_8_sig_decode_scalar (raw : bytes) (text : str) :
  Codec.utf_8_sig_decode raw = Some text -> Forall Text.scalar text.
Proof.
  assert (H : forall b, Codec.utf_8_decode b = Some text ->
                        Forall Text.scalar text).
  { intros b Hb. apply (encode_scalar text b).
    apply (utf_8_decode_encode_len (length b)); [lia|exact Hb]. }
  unfold Codec.utf_8_sig_decode.
  destruct (length raw <? 3)%nat.
  - destruct (Codec.startswith Codec.BOM_UTF8 raw); [|apply H].
    intros E; inversion E; constructor.
  - destruct (str_eqb (firstn 3 raw) Codec.BOM_UTF8); apply H.
Qed.

Lemma big5_decode_scalar (big5_map : Z -> Z -> option Z) :
  (forall c c2 d, big5_map c c2 = Some d -> Text.scalar d) ->
  forall k raw text,
    (length raw <= k)%nat ->
    Codec.big5_decode big5_map raw = Some text -> Forall Text.scalar text.
Proof.
  intros Hmap. induction k as [|k IH]; intros raw text Hlen;
    (destruct raw as [|c r0];
     [cbn; intros H; inversion H; constructor|]);
    cbn [length] in Hlen; [lia|].
  cbn [Codec.big5_decode].
  destruct ((0 <=? c) && (c <? 128)) eqn:E.
  - intros H. apply cons_opt_inv in H. destruct H as (s' & Hr & ->).
    bool_facts. constructor; [unfold Text.scalar; lia|].
    apply (IH r0 s'); [lia|exact Hr].
  - destruct r0 as [|c2 r1]; [discriminate|].
    destruct (big5_map c c2) as [d|] eqn:Ed; [|discriminate].
    intros H. apply cons_opt_inv in H. destruct H as (s' & Hr & ->).
    constructor; [exact (Hmap _ _ _ Ed)|].
    cbn [length] in Hlen. apply (IH r1 s'); [lia|exact Hr].
Qed.

(** Where the write step can fail: after the rows loop, on its list. *)
Lemma run_write_failure_inv (big5_map : Z -> Z -> option Z) (w w' : World) :
  generate_fund_list big5_map w = (Raised UnicodeEncodeError, w') ->
  exists lines w1 i n funds,
    read_lines big5_map (print w MsgReading) = (Ok lines, w1)
    /\ for_lines i n [] (skipn 3 lines) = Ok funds
    /\ snd (write_chunks [] (Json.iterencode funds)) <> None.
Proof.
  unfold generate_fund_list.
  destruct (read_lines big5_map (print w MsgReading)) as [[lines|e0] w1]
    eqn:Er.
  - destruct (length lines <? 3)%nat; [discriminate|].
    destruct (index col_id _) as [i|]; [|discriminate].
    destruct (index col_name _) as [n|]; [|discriminate].
    destruct (for_lines i n [] (skipn 3 lines)) as [funds|e1] eqn:Ef.
    + unfold json_dump.
      destruct (write_chunks [] (Json.iterencode funds)) as [out [e2|]]
        eqn:Ew; [|discriminate].
      intros _. exists lines, w1, i, n, funds.
      split; [reflexivity|]. split; [exact Ef|].
      rewrite Ew. cbn [snd]. discriminate.
    + intros H; inversion H; subst.
      destruct (for_lines_raise _ _ _ _ _ Ef) as [He _]. discriminate He.
  - intros H; inversion H; subst.
    destruct (read_lines_raise _ _ _ _ Er)
      as [(_ & He & _) | (raw & _ & _ & _ & He & _)]; discriminate He.
Qed.

Lemma skipn_chars (P : Z -> Prop) (k : nat) (lines : list str) :
  Forall (Forall P) lines -> Forall (Forall P) (skipn k lines).
Proof.
  intros H. apply Forall_forall. intros l Hin.
  rewrite Forall_forall in H. apply H.
  rewrite <- (firstn_skipn k lines). apply in_or_app. right; exact Hin.
Qed.

(** The lines of a file are made of scalar values when it is UTF-8, and
    also in Big5 when the table of the codec only yields such values. *)
Lemma read_lines_scalar (big5_map : Z -> Z -> option Z) (w w1 : World)
  (lines : list str) :
  read_lines big5_map w = (Ok lines, w1) ->
  (exists raw, csv_file w = Some raw /\ Codec.utf_8_sig_decode raw <> None)
  \/ (forall c c2 d, big5_map c c2 = Some d -> Text.scalar d) ->
  Forall (Forall Text.scalar) lines.
Proof.
  intros Hr Hcase.
  assert (Hlf : Text.scalar LF) by scalar_const.
  destruct (read_lines_ok _ _ _ _ Hr)
    as (raw & Hc & [(t & Ht & -> & _) | (t & Hnone & Ht & -> & _)]).
  - apply readlines_chars; [exact Hlf|].
    exact (utf_8_sig_decode_scalar _ _ Ht).
  - apply readlines_chars; [exact Hlf|].
    destruct Hcase as [(raw' & Hc' & Hsome) | Hmap].
    + exfalso. apply Hsome. congruence.
    + exact (big5_decode_scalar big5_map Hmap (length raw) raw t
               (Nat.le_refl _) Ht).
Qed.

(** X15. The write step cannot fail on what the script reads from a UTF-8
    file, nor from a Big5 file when the codec table only yields Unicode
    scalar values: the run never raises [UnicodeEncodeError], so whenever
    it raises, the output file and its directory are as they were. *)
Theorem X15_write_cannot_fail
  (big5_map : Z -> Z -> option Z) (w w' : World) (e : exn) :
  (exists raw, csv_file w = Some raw /\ Codec.utf_8_sig_decode raw <> None)
  \/ (forall c c2 d, big5_map c c2 = Some d -> Text.scalar d) ->
  generate_fund_list big5_map w = (Raised e, w') ->
  e <> UnicodeEncodeError
  /\ json_file w' = json_file w /\ json_dir w' = json_dir w.
Proof.
  intros Hcase Hrun.
  assert (He : e <> UnicodeEncodeError).
  { intros ->.
    destruct (run_write_failure_inv _ _ _ Hrun)
      as (lines & w1 & i & n & funds & Hr & Hf & Hw).
    apply Hw. apply write_chunks_scalar, iterencode_scalar.
    apply (for_lines_chars Text.scalar i n (skipn 3 lines) [] funds);
      [|constructor|exact Hf].
    apply skipn_chars.
    apply (read_lines_scalar big5_map (print w MsgReading) w1 lines Hr).
    exact Hcase. }
  split; [exact He|].
  destruct (run_raised_inv _ _ _ _ Hrun)
    as [Hr | [(lines & i & n & Hr & Hf) | (He' & _)]];
    [| |contradiction];
    destruct (read_lines_world _ _ _ _ Hr) as (Hc & Hj & Hd);
    cbn in Hj, Hd; auto.
Qed.

Lemma X15_write_cannot_fail_witness :
  UnicodeDecodeError <> UnicodeEncodeError
  /\ json_file (snd (generate_fund_list Sample.big5_map
                       (mkWorld (Some [255]) true (Some [91; 93]) [])))
     = Some [91; 93].
Proof.
  destruct (X15_write_cannot_fail Sample.big5_map
              (mkWorld (Some [255]) true (Some [91; 93]) [])
              (snd (generate_fund_list Sample.big5_map
                      (mkWorld (Some [255]) true (Some [91; 93]) [])))
              UnicodeDecodeError)
    as (He & Hfile & _).
  - right. intros c c2 d. unfold Sample.big5_map.
    repeat match goal with
           | |- context [if ?b then _ else _] => destruct b
           end;
      intros H; inversion H; subst; unfold Text.scalar; lia.
  - reflexivity.
  - split; [exact He | exact Hfile].
Defined.

(** X16. The script invents no character: every character of the
    identifier and of the name of every record the rows loop returns
    occurs in one of the data lines. In particular, whatever property all
    the characters of the data lines have, those of the values have. *)
Theorem X16_values_are_made_of_line_characters
  (i n : nat) (data : list str) (funds : list pydict) :
  for_lines i n [] data = Ok funds ->
  Forall (fun d => exists a b,
              d = fund a b
              /\ Forall (fun c => exists line, In line data /\ In c line) a
              /\ Forall (fun c => exists line, In line data /\ In c line) b)
         funds.
Proof.
  intros Hf.
  apply (for_lines_chars (fun c => exists line, In line data /\ In c line)
           i n data [] funds); [|constructor|exact Hf].
  apply Forall_forall. intros line Hline.
  apply Forall_forall. intros c Hc. exists line. auto.
Qed.

Lemma X16_values_are_made_of_line_characters_witness :
  Forall (fun d => exists a b,
              d = fund a b
              /\ Forall (fun c => exists line,
                             In line (skipn 3 Sample.lines) /\ In c line) a
              /\ Forall (fun c => exists line,
                             In line (skipn 3 Sample.lines) /\ In c line) b)
         Sample.funds.
Proof.
  apply (X16_values_are_made_of_line_characters 0 1 (skipn 3 Sample.lines)
           Sample.funds).
  vm_compute; reflexivity.
Defined.

(** ** The layout of the output *)

Lemma escape_no_control (c : Z) :
  Forall (fun x => ~ (0 <= x < 32)) (Json.escape c).
Proof.
  unfold Json.escape, BACKSLASH, DQUOTE.
  destruct (c =? 92); [repeat constructor; lia|].
  destruct (c =? 34); [repeat constructor; lia|].
  destruct (c =? 8); [repeat constructor; lia|].
  destruct (c =? 12); [repeat constructor; lia|].
  destruct (c =? 10); [repeat constructor; lia|].
  destruct (c =? 13); [repeat constructor; lia|].
  destruct (c =? 9); [repeat constructor; lia|].
  destruct ((0 <=? c) && (c <? 32)) eqn:E.
  - assert (Hhex : forall n, 0 <= n < 16 -> ~ (0 <= Json.hexdigit n < 32)).
    { intros n Hn. unfold Json.hexdigit. destruct (Z.ltb_spec n 10); lia. }
    repeat constructor; try lia; apply Hhex; apply Z.mod_pos_bound; lia.
  - bool_facts. repeat constructor. lia.
Qed.

Lemma basestring_no_control (s : str) :
  Forall (fun x => ~ (0 <= x < 32)) (Json.encode_basestring s).
Proof.
  unfold Json.encode_basestring, DQUOTE.
  constructor; [lia|]. apply Forall_app. split.
  - induction s as [|c s IH]; [constructor|].
    cbn [flat_map]. apply Forall_app. split; [apply escape_no_control|exact IH].
  - repeat constructor. lia.
Qed.

Lemma line_feeds_app (a b : str) :
  Text.line_feeds (a ++ b) = (Text.line_feeds a + Text.line_feeds b)%nat.
Proof. apply count_occ_app. Qed.

Lemma line_feeds_none (t : str) :
  Forall (fun c => c <> LF) t -> Text.line_feeds t = 0%nat.
Proof.
  intros H. apply count_occ_not_In. intros Hin.
  rewrite Forall_forall in H. exact (H _ Hin eq_refl).
Qed.

Lemma line_feeds_basestring (s : str) :
  Text.line_feeds (Json.encode_basestring s) = 0%nat.
Proof.
  apply line_feeds_none.
  eapply Forall_impl; [|apply basestring_no_control].
  intros c Hc ->. apply Hc. unfold LF. lia.
Qed.

Lemma line_feeds_indent (k : nat) : Text.line_feeds (Spec.indent k) = 0%nat.
Proof.
  apply line_feeds_none. apply Forall_forall. intros x Hin.
  apply repeat_spec in Hin. subst x. discriminate.
Qed.

Lemma line_feeds_object (a b : str) :
  Text.line_feeds (Spec.object_text (fund a b)) = 3%nat.
Proof.
  unfold fund, Spec.object_text.
  repeat rewrite line_feeds_app.
  rewrite !line_feeds_basestring, !line_feeds_indent. reflexivity.
Qed.

Lemma line_feeds_objects (funds : list pydict) :
  forall d,
    Forall Spec.is_fund (d :: funds) ->
    Text.line_feeds (Spec.join [COMMA; LF] (map Spec.object_text (d :: funds)))
    = (4 * length funds + 3)%nat.
Proof.
  induction funds as [|d' funds IH]; intros d Hall;
    inversion Hall as [|? ? [a [b ->]] Hrest]; subst.
  - cbn [map Spec.join length]. apply line_feeds_object.
  - change (Spec.join [COMMA; LF]
              (map Spec.object_text (fund a b :: d' :: funds)))
      with (Spec.object_text (fund a b) ++ [COMMA; LF]
            ++ Spec.join [COMMA; LF] (map Spec.object_text (d' :: funds))).
    rewrite !line_feeds_app, line_feeds_object, (IH d' Hrest).
    change (Text.line_feeds [COMMA; LF]) with 1%nat.
    cbn [length]. lia.
Qed.

(** X17. The shape of the written text depends on the number of records
    only: a string literal holds no control character (line breaks, tabs
    and the like inside a value are written as escapes), so the text of a
    non-empty list has exactly four line feeds per record and one more,
    and the empty list none. *)
Theorem X17_four_lines_per_record (funds : list pydict) :
  Forall Spec.is_fund funds ->
  (forall s : str,
      Forall (fun c => ~ (0 <= c < 32)) (Json.encode_basestring s))
  /\ Text.line_feeds (Json.dumps funds)
     = match funds with
       | [] => 0%nat
       | _ :: _ => (4 * length funds + 1)%nat
       end.
Proof.
  intros Hall. split; [exact basestring_no_control|].
  rewrite (dumps_document _ Hall).
  destruct funds as [|d funds]; [reflexivity|].
  unfold Spec.document.
  rewrite !line_feeds_app, (line_feeds_objects funds d Hall).
  change (Text.line_feeds [91; LF]) with 1%nat.
  change (Text.line_feeds [LF; 93]) with 1%nat.
  cbn [length]. lia.
Qed.

Lemma X17_four_lines_per_record_witness :
  Text.line_feeds (Json.dumps Sample.funds) = 9%nat.
Proof.
  destruct (X17_four_lines_per_record Sample.funds) as [_ H].
  - repeat constructor; eexists; eexists; reflexivity.
  - exact H.
Defined.

(** ** A quoted field that the line does not close *)

(** X18. Each line is parsed on its own, so a quoted field still open at
    the end of its line is closed there: the reader does not fail and does
    not wait for a following line, it returns the row, whose field holds
    everything after the opening quote (doubled quotes read as one), the
    commas and the final line feed included. *)
Theorem X18_open_quote_is_closed_by_the_line_end (f : str) :
  Z.of_nat (length f) <= Csv.field_limit ->
  Csv.next_reader
    [DQUOTE :: flat_map (fun c => if c =? DQUOTE then [DQUOTE; DQUOTE]
                                  else [c]) f]
  = Ok [f].
Proof.
  intros Hlim. unfold Csv.next_reader. cbn [Csv.iternext].
  rewrite parse_line_cons. unfold Csv.parse_reset.
  rewrite (step_open_quote Csv.START_RECORD []) by (left; reflexivity).
  rewrite <- (app_nil_r (flat_map _ f)).
  rewrite (quoted_body f [] [] []) by (cbn [length]; lia).
  cbn [Csv.parse_line Csv.parse_process_char Csv.state Csv.state_eqb
       Csv.iternext Csv.field_len Csv.parse_save_field Csv.fields Csv.field].
  rewrite orb_true_r, app_nil_r, rev_involutive. reflexivity.
Qed.

Lemma X18_open_quote_is_closed_by_the_line_end_witness :
  Csv.next_reader [DQUOTE :: lit "Alpha, Growth" ++ [LF]]
  = Ok [lit "Alpha, Growth" ++ [LF]].
Proof.
  apply (X18_open_quote_is_closed_by_the_line_end
           (lit "Alpha, Growth" ++ [LF])).
  vm_compute. discriminate.
Defined.

(** ** The header line and the two lines before it *)

Lemma split_piece (p rest : str) :
  ~ In COMMA p -> split COMMA (p ++ COMMA :: rest) = p :: split COMMA rest.
Proof.
  induction p as [|c p IH]; intros Hn.
  - cbn [app split]. rewrite Z.eqb_refl. reflexivity.
  - cbn [app split].
    destruct (Z.eqb_spec c COMMA) as [->|_];
      [exfalso; apply Hn; left; reflexivity|].
    rewrite IH by (intros Hin; apply Hn; right; exact Hin). reflexivity.
Qed.

Lemma split_single (p : str) : ~ In COMMA p -> split COMMA p = [p].
Proof.
  induction p as [|c p IH]; intros Hn; [reflexivity|].
  cbn [split].
  destruct (Z.eqb_spec c COMMA) as [->|_];
    [exfalso; apply Hn; left; reflexivity|].
  rewrite IH by (intros Hin; apply Hn; right; exact Hin). reflexivity.
Qed.

(** X19. Splitting undoes joining: a header line written as names, none of
    which holds a comma, separated by commas is split back into exactly
    those names, so the position found for a column is one where its
    name was written. *)
Theorem X19_split_recovers_the_header_names (names : list str) :
  names <> [] ->
  Forall (fun h => ~ In COMMA h) names ->
  split COMMA (Spec.join [COMMA] names) = names
  /\ forall name i,
       index name (split COMMA (Spec.join [COMMA] names)) = Some i ->
       nth_error names i = Some name.
Proof.
  intros Hne Hall.
  assert (Hsplit : split COMMA (Spec.join [COMMA] names) = names).
  { destruct names as [|h names]; [contradiction|]. clear Hne.
    revert h Hall. induction names as [|h' names IH]; intros h Hall;
      inversion Hall as [|? ? Hh Hrest]; subst.
    - cbn [Spec.join]. apply split_single; exact Hh.
    - change (Spec.join [COMMA] (h :: h' :: names))
        with (h ++ [COMMA] ++ Spec.join [COMMA] (h' :: names)).
      cbn [app]. rewrite (split_piece _ _ Hh), (IH h' Hrest).
      reflexivity. }
  split; [exact Hsplit|].
  intros name i Hi. rewrite Hsplit in Hi.
  destruct (index_Some _ _ _ Hi) as [Hnth _]. exact Hnth.
Qed.

Lemma X19_split_recovers_the_header_names_witness :
  split COMMA (Spec.join [COMMA] [lit "x"; col_id; col_name])
  = [lit "x"; col_id; col_name].
Proof.
  destruct (X19_split_recovers_the_header_names [lit "x"; col_id; col_name])
    as [H _].
  - discriminate.
  - repeat constructor; no_sep.
  - exact H.
Defined.

(** X20. The first two lines of the file are ignored: two files whose
    lines agree from the third on end the same way, and when the run
    succeeds they give the same output file. *)
Theorem X20_metadata_lines_are_ignored
  (big5_map : Z -> Z -> option Z) (w v w1 v1 : World)
  (m1 m2 n1 n2 : str) (rest : list str) :
  read_lines big5_map (print w MsgReading) = (Ok (m1 :: m2 :: rest), w1) ->
  read_lines big5_map (print v MsgReading) = (Ok (n1 :: n2 :: rest), v1) ->
  fst (generate_fund_list big5_map w) = fst (generate_fund_list big5_map v)
  /\ (fst (generate_fund_list big5_map w) = ReturnSuccess ->
      json_file (snd (generate_fund_list big5_map w))
      = json_file (snd (generate_fund_list big5_map v))).
Proof.
  intros Hw Hv. unfold generate_fund_list. rewrite Hw, Hv.
  destruct rest as [|header data]; [split; [reflexivity|discriminate]|].
  change (length (m1 :: m2 :: header :: data) <? 3)%nat with false.
  change (length (n1 :: n2 :: header :: data) <? 3)%nat with false.
  cbn [nth skipn].
  destruct (index col_id (split COMMA (strip header))) as [i|];
    [|split; [reflexivity|discriminate]].
  destruct (index col_name (split COMMA (strip header))) as [n|];
    [|split; [reflexivity|discriminate]].
  destruct (for_lines i n [] data) as [funds|e];
    [|split; [reflexivity|discriminate]].
  unfold json_dump.
  destruct (write_chunks [] (Json.iterencode funds)) as [out [e|]];
    split; try reflexivity; discriminate.
Qed.

Lemma X20_metadata_lines_are_ignored_witness :
  json_file (snd (generate_fund_list Sample.big5_map
                    (Sample.world (Some Sample.raw))))
  = json_file
      (snd (generate_fund_list Sample.big5_map
              (Sample.world
                 (Codec.utf_8_encode
                    (lit "other" ++ [LF] ++ [LF]
                     ++ concat (skipn 2 Sample.lines)))))).
Proof.
  destruct (X20_metadata_lines_are_ignored Sample.big5_map
              (Sample.world (Some Sample.raw))
              (Sample.world
                 (Codec.utf_8_encode
                    (lit "other" ++ [LF] ++ [LF]
                     ++ concat (skipn 2 Sample.lines))))
              (print (Sample.world (Some Sample.raw)) MsgReading)
              (print (Sample.world
                        (Codec.utf_8_encode
                           (lit "other" ++ [LF] ++ [LF]
                            ++ concat (skipn 2 Sample.lines))))
                     MsgReading)
              (lit "meta1" ++ [LF]) (lit "meta2" ++ [LF])
              (lit "other" ++ [LF]) [LF]
              (skipn 2 Sample.lines))
    as [_ H].
  - vm_compute; reflexivity.
  - vm_compute; reflexivity.
  - apply H. vm_compute; reflexivity.
Defined.

(** * The contract of the extractor *)

(** ** Trimming and acceptance, without [strip] *)





Lemma accepted_iff (i n : nat) (row : list str) :
  Contract.accepted i n row <-> Spec.accepted i n row = true.
Proof.
  unfold Contract.accepted, Spec.accepted, Contract.blank.
  rewrite !andb_true_iff, !Nat.ltb_lt, !truthy_nonempty.
  rewrite <- !strip_nil. tauto.
Qed.

Lemma records_cons (i n : nat) (row : list str) (rows : list (list str)) :
  Spec.records i n (row :: rows)
  = if Spec.accepted i n row
    then Spec.record i n row :: Spec.records i n rows
    else Spec.records i n rows.
Proof.
  unfold Spec.records. cbn [filter].
  destruct (Spec.accepted i n row); reflexivity.
Qed.





(** ** Taking the first row of a data line *)

Lemma next_reader_raise_csv (line : str) (e : exn) :
  Csv.next_reader [line] = Raise e -> e = CsvError.
Proof.
  intros E.
  assert (He : e = CsvError \/ e = StopIteration).
  { unfold Csv.next_reader in E.
    destruct (Csv.iternext Csv.parse_reset [line]) as [[row rest]|e1] eqn:E1;
      [discriminate|].
    inversion E; subst. exact (iternext_raise _ _ _ E1). }
  destruct He as [->| ->]; [reflexivity|].
  exfalso. exact (next_reader_no_stop line E).
Qed.

(** C10, amended. Every line that reading the file produces is non-empty,
    and taking the first row of the reader on it never ends in
    [StopIteration]: the only way it can fail is [csv.Error], and only on
    a line longer than [Csv.field_limit] characters; on every line within
    the limit it returns a row. A line that is only a line feed adds no
    record. *)
Theorem C10_first_row_within_limit
  (text line : str) (i n : nat) (funds : list pydict) :
  In line (readlines text) ->
  line <> []
  /\ Csv.next_reader [line] <> Raise StopIteration
  /\ (forall e, Csv.next_reader [line] = Raise e ->
                e = CsvError /\ Csv.field_limit < Z.of_nat (length line))
  /\ (Z.of_nat (length line) <= Csv.field_limit ->
      exists row, Csv.next_reader [line] = Ok row)
  /\ loop_body i n funds [LF] = Ok funds.
Proof.
  intros Hin.
  pose proof (readlines_is_line text) as Hall. rewrite Forall_forall in Hall.
  specialize (Hall _ Hin).
  split; [|split; [|split; [|split]]].
  - apply is_line_nonempty; exact Hall.
  - apply next_reader_no_stop.
  - intros e He. split; [exact (next_reader_raise_csv _ _ He)|].
    destruct (Z.le_gt_cases (Z.of_nat (length line)) Csv.field_limit)
      as [Hle|Hgt]; [|lia].
    destruct (CsvFacts.next_reader_total line Hall Hle) as [row Hrow].
    congruence.
  - intros Hlen. apply CsvFacts.next_reader_total; assumption.
  - unfold loop_body. simpl. destruct (Nat.max i n); reflexivity.
Qed.

Lemma C10_first_row_within_limit_witness :
  lit "002," ++ [LF] <> []
  /\ Csv.next_reader [lit "002," ++ [LF]] <> Raise StopIteration
  /\ (exists row, Csv.next_reader [lit "002," ++ [LF]] = Ok row)
  /\ loop_body 0 1 [] [LF] = Ok [].
Proof.
  destruct (C10_first_row_within_limit Sample.text (lit "002," ++ [LF])
              0 1 [])
    as (Hne & Hstop & _ & Hrow & Hlf).
  - vm_compute. tauto.
  - split; [exact Hne|]. split; [exact Hstop|].
    split; [apply Hrow; vm_compute; discriminate | exact Hlf].
Defined.

(** ** Reading the file: UTF-8 with an optional byte-order mark, then Big5 *)

Lemma bom_prefix_short (raw : bytes) :
  Contract.bom_prefix raw -> (length raw < 3)%nat.
Proof.
  intros (rest & Hne & E).
  apply (f_equal (@length Z)) in E. rewrite length_app in E.
  cbn [length] in E. destruct rest; [contradiction|]. cbn [length] in E. lia.
Qed.

Lemma bom_prefix_cases (raw : bytes) :
  Contract.bom_prefix raw <-> raw = [] \/ raw = [239] \/ raw = [239; 187].
Proof.
  split.
  - intros (rest & Hne & E).
    destruct raw as [|b0 [|b1 [|b2 raw]]]; cbn [app] in E.
    + auto.
    + inversion E; subst. auto.
    + inversion E; subst. auto.
    + inversion E; subst. destruct raw; [|discriminate].
      cbn in *. subst rest. contradiction.
  - intros [-> | [-> | ->]].
    + exists [239; 187; 191]. split; [discriminate|reflexivity].
    + exists [187; 191]. split; [discriminate|reflexivity].
    + exists [191]. split; [discriminate|reflexivity].
Qed.

Lemma sig_bom (rest : bytes) :
  Codec.utf_8_sig_decode (239 :: 187 :: 191 :: rest) = Codec.utf_8_decode rest.
Proof. reflexivity. Qed.

Lemma sig_prefix (raw : bytes) :
  Contract.bom_prefix raw -> Codec.utf_8_sig_decode raw = Some [].
Proof.
  intros H. apply bom_prefix_cases in H.
  destruct H as [-> | [-> | ->]]; reflexivity.
Qed.

Lemma sig_plain (raw : bytes) :
  ~ Contract.bom_prefix raw ->
  (forall rest, raw <> 239 :: 187 :: 191 :: rest) ->
  Codec.utf_8_sig_decode raw = Codec.utf_8_decode raw.
Proof.
  intros Hp Hb. rewrite bom_prefix_cases in Hp.
  unfold Codec.utf_8_sig_decode, Codec.BOM_UTF8.
  destruct raw as [|b0 [|b1 [|b2 rest]]].
  - exfalso; apply Hp; auto.
  - cbn [length Nat.ltb Nat.leb Codec.startswith].
    destruct (Z.eqb_spec b0 239) as [->|]; [|reflexivity].
    exfalso; apply Hp; auto.
  - cbn [length Nat.ltb Nat.leb Codec.startswith].
    destruct (Z.eqb_spec b0 239) as [->|]; [|reflexivity].
    destruct (Z.eqb_spec b1 187) as [->|]; [|reflexivity].
    exfalso; apply Hp; auto.
  - cbn [length Nat.ltb Nat.leb firstn skipn str_eqb].
    destruct (Z.eqb_spec b0 239) as [->|]; [|reflexivity].
    destruct (Z.eqb_spec b1 187) as [->|]; [|reflexivity].
    destruct (Z.eqb_spec b2 191) as [->|]; [|reflexivity].
    exfalso. exact (Hb rest eq_refl).
Qed.

Lemma decode_iff_encode (b : bytes) (s : str) :
  Codec.utf_8_decode b = Some s <-> Codec.utf_8_encode s = Some b.
Proof.
  split.
  - apply (utf_8_decode_encode_len (length b)). lia.
  - apply utf_8_round_trip.
Qed.

Lemma sig_cases (raw : bytes) :
  Contract.bom_prefix raw
  \/ (exists rest, raw = 239 :: 187 :: 191 :: rest)
  \/ (~ Contract.bom_prefix raw
      /\ forall rest, raw <> 239 :: 187 :: 191 :: rest).
Proof.
  rewrite bom_prefix_cases.
  destruct raw as [|b0 [|b1 [|b2 rest]]]; [auto| | |].
  - destruct (Z.eq_dec b0 239) as [->|Hn]; [auto|].
    right; right. split; [|discriminate].
    intros [H|[H|H]]; inversion H; contradiction.
  - destruct (Z.eq_dec b0 239) as [->|Hn];
      [destruct (Z.eq_dec b1 187) as [->|Hn]; [auto|]|];
      right; right; (split; [|discriminate]);
      intros [H|[H|H]]; inversion H; contradiction.
  - destruct (Z.eq_dec b0 239) as [->|Hn];
      [destruct (Z.eq_dec b1 187) as [->|Hn];
       [destruct (Z.eq_dec b2 191) as [->|Hn]; [right; left; eauto|]|]|];
      right; right;
      (split; [intros [H|[H|H]]; discriminate H
              |intros r H; inversion H; contradiction]).
Qed.

Lemma sig_text (raw : bytes) (text : str) :
  Codec.utf_8_sig_decode raw = Some text <-> Contract.utf_8_sig_text raw text.
Proof.
  unfold Contract.utf_8_sig_text.
  destruct (sig_cases raw) as [Hp | [(rest & ->) | (Hp & Hb)]].
  - rewrite (sig_prefix _ Hp). split.
    + intros E; inversion E. left. auto.
    + intros [(_ & ->) | [(body & -> & _) | (Hn & _)]];
        [reflexivity| |contradiction].
      apply bom_prefix_short in Hp. cbn [app length] in Hp. lia.
  - rewrite sig_bom, decode_iff_encode. split.
    + intros E. right; left. exists rest. auto.
    + intros [(Hp & _) | [(body & E & Henc) | (_ & Hb & _)]].
      * apply bom_prefix_short in Hp. cbn [length] in Hp. lia.
      * cbn [app] in E. inversion E; subst. exact Henc.
      * exfalso. exact (Hb rest eq_refl).
  - rewrite (sig_plain _ Hp Hb), decode_iff_encode. split.
    + intros E. right; right. auto.
    + intros [(Hp' & _) | [(body & E & _) | (_ & _ & Henc)]];
        [contradiction| |exact Henc].
      exfalso. exact (Hb body E).
Qed.

(** What a run prints after the reading step never is the Big5 notice. *)
Lemma run_stdout_tail (big5_map : Z -> Z -> option Z) (w : World) :
  exists tail,
    stdout (snd (generate_fund_list big5_map w))
    = stdout (snd (read_lines big5_map (print w MsgReading))) ++ tail
    /\ ~ In MsgTryingBig5 tail.
Proof.
  unfold generate_fund_list.
  destruct (read_lines big5_map (print w MsgReading)) as [[lines|e0] w1].
  - cbn [snd]. destruct (length lines <? 3)%nat.
    { exists [MsgTooShort]. split; [reflexivity|].
      intros [H|[]]; discriminate H. }
    destruct (index col_id _) as [i|].
    2:{ eexists [_; _]. split; [cbn; rewrite <- app_assoc; reflexivity|].
        intros [H|[H|[]]]; discriminate H. }
    destruct (index col_name _) as [n|].
    2:{ eexists [_; _]. split; [cbn; rewrite <- app_assoc; reflexivity|].
        intros [H|[H|[]]]; discriminate H. }
    destruct (for_lines i n [] (skipn 3 lines)) as [funds|e1].
    2:{ exists []. split; [cbn; rewrite app_nil_r; reflexivity|intros []]. }
    unfold json_dump.
    destruct (write_chunks [] (Json.iterencode funds)) as [out [e2|]].
    + exists [MsgWriting (length funds)]. split; [reflexivity|].
      intros [H|[]]; discriminate H.
    + exists [MsgWriting (length funds); MsgSuccess].
      split; [cbn; rewrite <- app_assoc; reflexivity|].
      intros [H|[H|[]]]; discriminate H.
  - exists []. split; [cbn; rewrite app_nil_r; reflexivity|intros []].
Qed.

Lemma read_lines_stdout (big5_map : Z -> Z -> option Z) (w : World)
  (raw : bytes) :
  csv_file w = Some raw ->
  stdout (snd (read_lines big5_map w))
  = stdout w ++ match Codec.utf_8_sig_decode raw with
                | Some _ => []
                | None => [MsgTryingBig5]
                end.
Proof.
  intros Hcsv. unfold read_lines. rewrite Hcsv.
  destruct (Codec.utf_8_sig_decode raw);
    [cbn; rewrite app_nil_r; reflexivity|].
  destruct (Codec.big5_decode big5_map raw); reflexivity.
Qed.

(** C4. The file is first read as UTF-8 with an optional byte-order mark:
    that succeeds with [text] exactly when the file is a cut byte-order
    mark and [text] is empty, or the file is the mark followed by the
    UTF-8 encoding of [text], or the file has no mark and is the UTF-8
    encoding of [text]. On success the lines are those of [text] and Big5
    is not tried; Big5 is tried, and its notice printed, if and only if
    that first reading fails; the run raises [UnicodeDecodeError] exactly
    when both readings fail, and then the output file and its directory
    are as they were. *)
Theorem C4_decoding_policy
  (big5_map : Z -> Z -> option Z) (w : World) (raw : bytes) :
  csv_file w = Some raw ->
  (forall text,
      Codec.utf_8_sig_decode raw = Some text
      <-> Contract.utf_8_sig_text raw text)
  /\ (forall text, Codec.utf_8_sig_decode raw = Some text ->
                   read_lines big5_map w = (Ok (readlines text), w))
  /\ (Codec.utf_8_sig_decode raw = None ->
      forall text, Codec.big5_decode big5_map raw = Some text ->
                   read_lines big5_map w
                   = (Ok (readlines text), print w MsgTryingBig5))
  /\ (snd (read_lines big5_map w) = print w MsgTryingBig5
      <-> Codec.utf_8_sig_decode raw = None)
  /\ (~ In MsgTryingBig5 (stdout w) ->
      (In MsgTryingBig5 (stdout (snd (generate_fund_list big5_map w)))
       <-> Codec.utf_8_sig_decode raw = None))
  /\ ((exists w',
          generate_fund_list big5_map w = (Raised UnicodeDecodeError, w'))
      <-> Codec.utf_8_sig_decode raw = None
          /\ Codec.big5_decode big5_map raw = None)
  /\ (forall w',
         generate_fund_list big5_map w = (Raised UnicodeDecodeError, w') ->
         json_file w' = json_file w /\ json_dir w' = json_dir w)
  /\ (forall rest, raw = 239 :: 187 :: 191 :: rest ->
                   Codec.utf_8_sig_decode raw = Codec.utf_8_decode rest)
  /\ (Contract.bom_prefix raw -> Codec.utf_8_sig_decode raw = Some [])
  /\ (~ Contract.bom_prefix raw ->
      (forall rest, raw <> 239 :: 187 :: 191 :: rest) ->
      Codec.utf_8_sig_decode raw = Codec.utf_8_decode raw).
Proof.
  intros Hcsv.
  split; [intros text; apply sig_text|].
  split.
  { intros text Hdec. unfold read_lines. rewrite Hcsv, Hdec. reflexivity. }
  split.
  { intros Hdec text Hbig. unfold read_lines. rewrite Hcsv, Hdec, Hbig.
    reflexivity. }
  split.
  { unfold read_lines. rewrite Hcsv.
    destruct (Codec.utf_8_sig_decode raw) as [text|]; simpl.
    + split; [|discriminate]. intros H. symmetry in H.
      exfalso; exact (print_neq _ _ H).
    + split; [reflexivity|]. intros _.
      destruct (Codec.big5_decode big5_map raw); reflexivity. }
  split.
  { intros Hout.
    destruct (run_stdout_tail big5_map w) as (tail & -> & Htail).
    rewrite (read_lines_stdout big5_map (print w MsgReading) raw Hcsv).
    cbn [stdout print].
    destruct (Codec.utf_8_sig_decode raw) as [text|]; split.
    - intros H. exfalso.
      rewrite app_nil_r in H.
      apply in_app_or in H. destruct H as [H|H]; [|contradiction].
      apply in_app_or in H. destruct H as [H|[H|[]]];
        [contradiction|discriminate H].
    - discriminate.
    - reflexivity.
    - intros _. apply in_or_app. left. apply in_or_app. right.
      left; reflexivity. }
  split.
  { split.
    - intros (w' & Hrun).
      destruct (run_raised_inv _ _ _ _ Hrun)
        as [Hr | [(lines & i & n & Hr & Hf) | (He & _)]];
        [| |discriminate He].
      + destruct (read_lines_raise _ _ _ _ Hr)
          as [(Hc & _) | (raw' & Hc & H1 & H2 & _)]; cbn in Hc;
          [congruence|].
        assert (raw' = raw) by congruence. subst raw'. auto.
      + destruct (for_lines_raise _ _ _ _ _ Hf) as [He _]. discriminate He.
    - intros [Hdec Hbig]. unfold generate_fund_list, read_lines. simpl.
      rewrite Hcsv, Hdec, Hbig. eexists; reflexivity. }
  split.
  { intros w' Hrun.
    destruct (run_raised_inv _ _ _ _ Hrun)
      as [Hr | [(lines & i & n & Hr & Hf) | (He & _)]];
      [| |discriminate He];
      destruct (read_lines_world _ _ _ _ Hr) as (_ & Hj & Hd);
      cbn in Hj, Hd; auto. }
  split; [intros rest ->; apply sig_bom|].
  split; [apply sig_prefix|apply sig_plain].
Qed.

Lemma C4_decoding_policy_witness :
  read_lines Sample.big5_map (Sample.world (Some Sample.raw_big5))
  = (Ok [lit "m" ++ [LF]; lit "m" ++ [LF]; Sample.header; lit "7,B" ++ [LF]],
     print (Sample.world (Some Sample.raw_big5)) MsgTryingBig5)
  /\ In MsgTryingBig5
        (stdout (snd (generate_fund_list Sample.big5_map
                        (Sample.world (Some Sample.raw_big5))))).
Proof.
  destruct (C4_decoding_policy Sample.big5_map
              (Sample.world (Some Sample.raw_big5)) Sample.raw_big5 eq_refl)
    as (_ & _ & Hbig5 & _ & Hnotice & _).
  split.
  - exact (Hbig5 eq_refl
             (concat [lit "m" ++ [LF]; lit "m" ++ [LF]; Sample.header;
                      lit "7,B" ++ [LF]])
             eq_refl).
  - apply Hnotice; [intros []|reflexivity].
Defined.

(** ** Resolving the columns and parsing the rows *)

Lemma split_app_comma (a b : str) :
  split COMMA (a ++ COMMA :: b) = split COMMA a ++ split COMMA b.
Proof.
  induction a as [|c a IH]; cbn [app split].
  - rewrite Z.eqb_refl. reflexivity.
  - destruct (c =? COMMA); rewrite IH; [reflexivity|].
    pose proof (split_nonempty COMMA a) as Hne.
    destruct (split COMMA a); [contradiction|reflexivity].
Qed.

Lemma split_of_join (names : list str) :
  names <> [] ->
  Forall (fun h => ~ In COMMA h) names ->
  split COMMA (Spec.join [COMMA] names) = names.
Proof.
  intros Hne Hall. destruct names as [|h names]; [contradiction|]. clear Hne.
  revert h Hall. induction names as [|h' names IH]; intros h Hall;
    inversion Hall as [|? ? Hh Hrest]; subst.
  - cbn [Spec.join]. apply split_single; exact Hh.
  - change (Spec.join [COMMA] (h :: h' :: names))
      with (h ++ [COMMA] ++ Spec.join [COMMA] (h' :: names)).
    cbn [app]. rewrite (split_piece _ _ Hh), (IH h' Hrest). reflexivity.
Qed.

Lemma plain_field_facts (f : str) :
  Contract.plain_field f ->
  ~ In DQUOTE f /\ ~ In COMMA f
  /\ Forall (fun c => Csv.is_newline c = false) f.
Proof.
  intros H. unfold Contract.plain_field in H. rewrite Forall_forall in H.
  split; [|split].
  - intros Hin. destruct (H _ Hin) as (Hq & _). apply Hq; reflexivity.
  - intros Hin. destruct (H _ Hin) as (_ & Hc & _). apply Hc; reflexivity.
  - apply Forall_forall. intros c Hin. apply is_newline_false.
    destruct (H _ Hin) as (_ & _ & Hlf & Hcr). auto.
Qed.

(** An unquoted field, read from the start of a field. *)
Lemma plain_cell (f : str) (acc : list str) :
  Contract.plain_field f ->
  Z.of_nat (length f) <= Csv.field_limit ->
  exists st' buf',
    Csv.parse_line (Csv.mkReader Csv.START_FIELD acc [] 0) f
    = Some (Csv.mkReader st' acc buf' (Z.of_nat (length buf')))
    /\ (st' = Csv.START_FIELD \/ st' = Csv.IN_FIELD)
    /\ rev buf' = f.
Proof.
  intros Hplain Hlim.
  destruct (plain_field_facts f Hplain) as (Hq & Hc & Hnl).
  destruct (unquoted_body f Csv.START_FIELD acc [])
    as (st' & fs' & buf' & Hp & Hst' & Hrow); auto.
  rewrite (split_single f Hc) in Hrow. cbn [rev app] in Hrow.
  apply app_inj_tail in Hrow. destruct Hrow as [-> Hbuf].
  exists st', buf'. auto.
Qed.

Lemma after_plain_comma (st : Csv.ParserState) (fs : list str) (buf : str)
  (k : Z) :
  st = Csv.START_FIELD \/ st = Csv.IN_FIELD ->
  Csv.parse_process_char (Csv.mkReader st fs buf k) (Csv.Chr COMMA)
  = Some (Csv.mkReader Csv.START_FIELD (fs ++ [rev buf]) [] 0).
Proof. intros [-> | ->]; reflexivity. Qed.

Lemma after_plain_lf (st : Csv.ParserState) (fs : list str) (buf : str)
  (k : Z) :
  st = Csv.START_FIELD \/ st = Csv.IN_FIELD ->
  Csv.parse_process_char (Csv.mkReader st fs buf k) (Csv.Chr LF)
  = Some (Csv.mkReader Csv.EAT_CRNL (fs ++ [rev buf]) [] 0).
Proof. intros [-> | ->]; reflexivity. Qed.

(** One field, quoted or not, up to the character after it. *)
Lemma cell_then (c : bool * str) (acc : list str) (rest : str) :
  (fst c = false -> Contract.plain_field (snd c)) ->
  Z.of_nat (length (snd c)) <= Csv.field_limit ->
  exists st buf k,
    Csv.parse_line (Csv.mkReader Csv.START_FIELD acc [] 0)
                   (Contract.cell_text c ++ rest)
    = Csv.parse_line (Csv.mkReader st acc buf k) rest
    /\ rev buf = snd c
    /\ ((st = Csv.START_FIELD \/ st = Csv.IN_FIELD)
        \/ st = Csv.QUOTE_IN_QUOTED_FIELD).
Proof.
  destruct c as [[|] f]; cbn [fst snd Contract.cell_text]; intros Hplain Hlim.
  - rewrite (quoted_field f Csv.START_FIELD acc rest) by auto.
    exists Csv.QUOTE_IN_QUOTED_FIELD, (rev f), (Z.of_nat (length (rev f))).
    split; [reflexivity|]. split; [apply rev_involutive|auto].
  - destruct (plain_cell f acc (Hplain eq_refl) Hlim)
      as (st' & buf' & Hp & Hst' & Hbuf).
    rewrite CsvFacts.parse_line_app, Hp.
    exists st', buf', (Z.of_nat (length buf')). auto.
Qed.

Lemma cells_parse (cells : list (bool * str)) :
  forall (c : bool * str) (acc : list str),
    Forall (fun c => (fst c = false -> Contract.plain_field (snd c))
                     /\ Z.of_nat (length (snd c)) <= Csv.field_limit)
           (c :: cells) ->
    Csv.parse_line (Csv.mkReader Csv.START_FIELD acc [] 0)
                   (Contract.cells_line (c :: cells))
    = Some (Csv.mkReader Csv.EAT_CRNL (acc ++ map snd (c :: cells)) [] 0).
Proof.
  unfold Contract.cells_line.
  induction cells as [|d cells IH]; intros c acc Hall;
    inversion Hall as [|? ? [Hplain Hlim] Hrest]; subst.
  - cbn [map Spec.join].
    destruct (cell_then c acc [LF] Hplain Hlim)
      as (st & buf & k & -> & Hbuf & Hst).
    rewrite parse_line_cons.
    destruct Hst as [Hst | ->].
    + rewrite (after_plain_lf _ _ _ _ Hst), Hbuf. reflexivity.
    + rewrite step_after_quote_lf, Hbuf. reflexivity.
  - change (Spec.join [COMMA] (map Contract.cell_text (c :: d :: cells)))
      with (Contract.cell_text c ++ [COMMA]
            ++ Spec.join [COMMA] (map Contract.cell_text (d :: cells))).
    rewrite <- !app_assoc.
    destruct (cell_then c acc
                ([COMMA] ++ Spec.join [COMMA]
                              (map Contract.cell_text (d :: cells)) ++ [LF])
                Hplain Hlim)
      as (st & buf & k & -> & Hbuf & Hst).
    cbn [app]. rewrite parse_line_cons.
    assert (Hstep :
              Csv.parse_process_char (Csv.mkReader st acc buf k)
                                     (Csv.Chr COMMA)
              = Some (Csv.mkReader Csv.START_FIELD (acc ++ [snd c]) [] 0)).
    { destruct Hst as [Hst | ->].
      - rewrite (after_plain_comma _ _ _ _ Hst), Hbuf. reflexivity.
      - rewrite step_after_quote_comma, Hbuf. reflexivity. }
    rewrite Hstep.
    etransitivity; [apply (IH d (acc ++ [snd c]) Hrest)|].
    rewrite <- app_assoc. reflexivity.
Qed.

Lemma cells_line_head (cells : list (bool * str)) :
  Contract.cells_ok cells ->
  exists c0 rest,
    Contract.cells_line cells = c0 :: rest /\ Csv.is_newline c0 = false.
Proof.
  intros (Hne & Hnot & Hall). unfold Contract.cells_line.
  destruct cells as [|[q f] cells]; [contradiction|].
  inversion Hall as [|? ? [Hplain _] _]; subst. cbn [fst snd] in Hplain.
  destruct q.
  - destruct cells as [|d cells];
      [cbn [map Spec.join]|
       change (Spec.join [COMMA]
                 (map Contract.cell_text ((true, f) :: d :: cells)))
         with (Contract.cell_text (true, f) ++ [COMMA]
               ++ Spec.join [COMMA] (map Contract.cell_text (d :: cells)))];
      cbn [Contract.cell_text fst snd]; unfold Spec.quote_field;
      cbn [app]; eexists; eexists; (split; [reflexivity|reflexivity]).
  - destruct f as [|c f].
    + destruct cells as [|d cells]; [exfalso; apply Hnot; reflexivity|].
      change (Spec.join [COMMA]
                (map Contract.cell_text ((false, []) :: d :: cells)))
        with (Contract.cell_text (false, []) ++ [COMMA]
              ++ Spec.join [COMMA] (map Contract.cell_text (d :: cells))).
      cbn [Contract.cell_text fst snd app].
      eexists; eexists; split; reflexivity.
    + destruct (plain_field_facts _ (Hplain eq_refl)) as (_ & _ & Hnl).
      inversion Hnl as [|? ? Hc _]; subst.
      destruct cells as [|d cells];
        [cbn [map Spec.join]|
         change (Spec.join [COMMA]
                   (map Contract.cell_text ((false, c :: f) :: d :: cells)))
           with (Contract.cell_text (false, c :: f) ++ [COMMA]
                 ++ Spec.join [COMMA]
                      (map Contract.cell_text (d :: cells)))];
        cbn [Contract.cell_text fst snd app];
        eexists; eexists; (split; [reflexivity|exact Hc]).
Qed.

(** The reader gives back the fields of a record written on one line,
    each field quoted or not. *)
Lemma next_reader_cells (cells : list (bool * str)) :
  Contract.cells_ok cells ->
  Csv.next_reader [Contract.cells_line cells] = Ok (map snd cells).
Proof.
  intros Hok. destruct (cells_line_head cells Hok) as (c0 & rest & E & Hc0).
  destruct Hok as (Hne & _ & Hall).
  destruct cells as [|c cells]; [contradiction|].
  pose proof (cells_parse cells c [] Hall) as Hparse.
  unfold Csv.next_reader. cbn [Csv.iternext].
  rewrite E in *. rewrite (parse_line_start c0 rest Hc0), Hparse.
  reflexivity.
Qed.

(** A run whose header line holds both names, on lines that parse. *)
Lemma run_with_headers (big5_map : Z -> Z -> option Z) (w w1 : World)
  (lines : list str) (i n : nat) (rows : list (list str)) :
  read_lines big5_map (print w MsgReading) = (Ok lines, w1) ->
  (3 <= length lines)%nat ->
  index col_id (split COMMA (strip (nth 2 lines []))) = Some i ->
  index col_name (split COMMA (strip (nth 2 lines []))) = Some n ->
  Forall2 (fun line row => Csv.next_reader [line] = Ok row)
          (skipn 3 lines) rows ->
  (exists w' out,
      generate_fund_list big5_map w = (ReturnSuccess, w')
      /\ json_file w' = Some out
      /\ Codec.utf_8_encode (Json.dumps (Spec.records i n rows)) = Some out)
  \/ (exists w',
         generate_fund_list big5_map w = (Raised UnicodeEncodeError, w')).
Proof.
  intros Hr Hlen Hi Hn Hrows. unfold generate_fund_list.
  rewrite Hr. apply Nat.ltb_ge in Hlen. rewrite Hlen, Hi, Hn.
  rewrite (for_lines_rows _ _ _ _ Hrows []). cbn [app].
  unfold json_dump.
  destruct (write_chunks [] (Json.iterencode (Spec.records i n rows)))
    as [out [e|]] eqn:Ew.
  - right. rewrite (write_chunks_exn _ _ _ _ Ew). eexists; reflexivity.
  - left. destruct (write_chunks_ok _ _ _ Ew) as [b [Henc ->]].
    eexists; exists ([] ++ b). split; [reflexivity|].
    split; [reflexivity|exact Henc].
Qed.

Lemma run_no_headers_iff (big5_map : Z -> Z -> option Z) (w w1 : World)
  (lines : list str) :
  read_lines big5_map (print w MsgReading) = (Ok lines, w1) ->
  (3 <= length lines)%nat ->
  (fst (generate_fund_list big5_map w) = ReturnNoHeaders
   <-> ~ (In col_id (split COMMA (strip (nth 2 lines [])))
          /\ In col_name (split COMMA (strip (nth 2 lines []))))).
Proof.
  intros Hr Hlen. unfold generate_fund_list.
  rewrite Hr. apply Nat.ltb_ge in Hlen. rewrite Hlen.
  destruct (index col_id (split COMMA (strip (nth 2 lines []))))
    as [i|] eqn:Ei.
  - destruct (index col_name (split COMMA (strip (nth 2 lines []))))
      as [n|] eqn:En.
    + assert (Hin : In col_id (split COMMA (strip (nth 2 lines [])))
                    /\ In col_name (split COMMA (strip (nth 2 lines [])))).
      { split.
        - destruct (index_Some _ _ _ Ei) as [H _].
          exact (nth_error_In _ _ H).
        - destruct (index_Some _ _ _ En) as [H _].
          exact (nth_error_In _ _ H). }
      destruct (for_lines i n [] (skipn 3 lines)) as [funds|e];
        [unfold json_dump;
         destruct (write_chunks [] (Json.iterencode funds)) as [out [e|]]|];
        cbn [fst]; (split; [discriminate|intros H; contradiction]).
    + cbn [fst]. split; [|reflexivity]. intros _ [_ H].
      apply index_None in En. contradiction.
  - cbn [fst]. split; [|reflexivity]. intros _ [H _].
    apply index_None in Ei. contradiction.
Qed.

(** C5. The header line, stripped, is cut at every comma, a quote being a
    character like any other: the pieces hold no comma, joined with commas
    they give the line back, and they are the only such list. The two
    columns are resolved on those pieces: a run that has read at least
    three lines returns for missing headers exactly when [col_id] or
    [col_name] is not one of the pieces, and otherwise goes on with the
    first positions of the two exact names, the file it writes being that
    of the records of the rows at these two positions. A data line goes
    through the CSV reader instead, which gives back the fields of a
    record written on a line, quoted or not, whatever commas, quotes or
    line breaks the quoted ones hold. And a line adds a record only if its
    row has more fields than the larger of the two indices. *)
Theorem C5_header_split_and_row_parsing :
  (forall header_line : str,
      Spec.join [COMMA] (split COMMA (strip header_line)) = strip header_line
      /\ Forall (fun h => ~ In COMMA h) (split COMMA (strip header_line))
      /\ (forall names,
             names <> [] -> Forall (fun h => ~ In COMMA h) names ->
             Spec.join [COMMA] names = strip header_line ->
             split COMMA (strip header_line) = names))
  /\ (forall a b : str,
         split COMMA (a ++ COMMA :: b) = split COMMA a ++ split COMMA b)
  /\ (forall (big5_map : Z -> Z -> option Z) (w w1 : World)
             (lines : list str),
         read_lines big5_map (print w MsgReading) = (Ok lines, w1) ->
         (3 <= length lines)%nat ->
         (fst (generate_fund_list big5_map w) = ReturnNoHeaders
          <-> ~ (In col_id (split COMMA (strip (nth 2 lines [])))
                 /\ In col_name (split COMMA (strip (nth 2 lines [])))))
         /\ (In col_id (split COMMA (strip (nth 2 lines []))) ->
             In col_name (split COMMA (strip (nth 2 lines []))) ->
             exists i n,
               index col_id (split COMMA (strip (nth 2 lines []))) = Some i
               /\ index col_name (split COMMA (strip (nth 2 lines [])))
                  = Some n
               /\ nth_error (split COMMA (strip (nth 2 lines []))) i
                  = Some col_id
               /\ (forall j, (j < i)%nat ->
                     nth_error (split COMMA (strip (nth 2 lines []))) j
                     <> Some col_id)
               /\ nth_error (split COMMA (strip (nth 2 lines []))) n
                  = Some col_name
               /\ (forall j, (j < n)%nat ->
                     nth_error (split COMMA (strip (nth 2 lines []))) j
                     <> Some col_name)
               /\ forall rows,
                    Forall2 (fun line row => Csv.next_reader [line] = Ok row)
                            (skipn 3 lines) rows ->
                    (exists w' out,
                        generate_fund_list big5_map w = (ReturnSuccess, w')
                        /\ json_file w' = Some out
                        /\ Codec.utf_8_encode
                             (Json.dumps (Spec.records i n rows)) = Some out)
                    \/ (exists w',
                           generate_fund_list big5_map w
                           = (Raised UnicodeEncodeError, w'))))
  /\ (forall cells : list (bool * str),
         Contract.cells_ok cells ->
         Csv.next_reader [Contract.cells_line cells] = Ok (map snd cells))
  /\ (forall (i n : nat) (funds funds' : list pydict) (line : str),
         loop_body i n funds line = Ok funds' -> funds' <> funds ->
         exists row,
           Csv.next_reader [line] = Ok row
           /\ (Nat.max i n < length row)%nat).
Proof.
  split; [|split; [|split; [|split]]].
  - intros header_line. split; [apply split_join|].
    split; [apply split_no_sep|].
    intros names Hne Hall <-. apply split_of_join; assumption.
  - apply split_app_comma.
  - intros big5_map w w1 lines Hr Hlen.
    split; [exact (run_no_headers_iff big5_map w w1 lines Hr Hlen)|].
    intros Hid Hname.
    destruct (index_In _ _ Hid) as [i Hi].
    destruct (index_In _ _ Hname) as [n Hn].
    destruct (index_Some _ _ _ Hi) as [Hi1 Hi2].
    destruct (index_Some _ _ _ Hn) as [Hn1 Hn2].
    exists i, n.
    split; [exact Hi|]. split; [exact Hn|].
    split; [exact Hi1|]. split; [exact Hi2|].
    split; [exact Hn1|]. split; [exact Hn2|].
    intros rows Hrows.
    exact (run_with_headers big5_map w w1 lines i n rows Hr Hlen Hi Hn Hrows).
  - apply next_reader_cells.
  - apply loop_body_appends.
Qed.

(** The scenario: both columns are found, at 0 and 1. And the same text as
    a header and as a data line: the header is cut inside the quotes, the
    row is not. *)
Lemma C5_header_split_and_row_parsing_witness :
  (exists i n,
      index col_id (split COMMA (strip (nth 2 Sample.lines []))) = Some i
      /\ index col_name (split COMMA (strip (nth 2 Sample.lines [])))
         = Some n
      /\ nth_error (split COMMA (strip (nth 2 Sample.lines []))) i
         = Some col_id
      /\ nth_error (split COMMA (strip (nth 2 Sample.lines []))) n
         = Some col_name)
  /\ split COMMA (strip (Contract.cells_line [(true, lit "a,b");
                                              (false, col_id)]))
     = [[DQUOTE; 97]; [98; DQUOTE]; col_id]
  /\ Csv.next_reader [Contract.cells_line [(true, lit "a,b");
                                           (false, col_id)]]
     = Ok [lit "a,b"; col_id].
Proof.
  destruct C5_header_split_and_row_parsing as (_ & _ & Hrun & Hrow & _).
  split; [|split; [vm_compute; reflexivity|]].
  - destruct (Hrun Sample.big5_map (Sample.world (Some Sample.raw))
                (print (Sample.world (Some Sample.raw)) MsgReading)
                Sample.lines)
      as (_ & Hcols).
    + vm_compute; reflexivity.
    + cbn [length Sample.lines]. lia.
    + destruct Hcols as (i & n & Hi & Hn & Hi1 & _ & Hn1 & _).
      * vm_compute. tauto.
      * vm_compute. tauto.
      * exists i, n. auto.
  - apply (Hrow [(true, lit "a,b"); (false, col_id)]).
    split; [discriminate|]. split; [discriminate|].
    constructor; [split; [discriminate|vm_compute; discriminate]|].
    constructor; [|constructor].
    split; [|vm_compute; discriminate].
    intros _. cbn [snd]. unfold col_id.
    repeat constructor; discriminate.
Defined.

(** ** The document written *)

Lemma escape_plain_char (c : Z) : Contract.plain_char c -> Json.escape c = [c].
Proof.
  intros (H32 & Hq & Hb). unfold Json.escape.
  destruct (Z.eqb_spec c BACKSLASH); [contradiction|].
  destruct (Z.eqb_spec c DQUOTE); [contradiction|].
  destruct (Z.eqb_spec c 8); [lia|].
  destruct (Z.eqb_spec c 12); [lia|].
  destruct (Z.eqb_spec c 10); [lia|].
  destruct (Z.eqb_spec c 13); [lia|].
  destruct (Z.eqb_spec c 9); [lia|].
  destruct (Z.ltb_spec c 32); [lia|].
  rewrite andb_false_r. reflexivity.
Qed.

Lemma basestring_plain (s : str) :
  Forall Contract.plain_char s -> Json.encode_basestring s = Spec.quoted s.
Proof.
  intros H. unfold Json.encode_basestring, Spec.quoted. cbn [app].
  f_equal. f_equal.
  induction H as [|c s Hc _ IH]; [reflexivity|].
  cbn [flat_map]. rewrite (escape_plain_char c Hc), IH. reflexivity.
Qed.

(** C6. A run that succeeds has resolved the two columns on the header
    line, parsed the data lines into rows, and written the records of
    those rows at these columns: the text is a JSON document that reads
    back as exactly that list of objects, each with the keys id and name
    in this order; it is laid out one member per line with two spaces per
    level; a string made of characters that need no escape is written
    between quotes as it is, and no character outside ASCII is escaped;
    the file holds the UTF-8 encoding of the text and decodes back to it;
    the directory exists afterwards; and what the file or the directory
    were before plays no part: from any earlier content the same run
    leaves the same file. *)
Theorem C6_output_document
  (big5_map : Z -> Z -> option Z) (w w' : World) :
  generate_fund_list big5_map w = (ReturnSuccess, w') ->
  exists lines w1 i n rows out,
    read_lines big5_map (print w MsgReading) = (Ok lines, w1)
    /\ index col_id (split COMMA (strip (nth 2 lines []))) = Some i
    /\ index col_name (split COMMA (strip (nth 2 lines []))) = Some n
    /\ Forall2 (fun line row => Csv.next_reader [line] = Ok row)
               (skipn 3 lines) rows
    /\ Forall (fun d => map fst d = [lit "id"; lit "name"])
              (Spec.records i n rows)
    /\ Json.dumps (Spec.records i n rows)
       = Spec.document (Spec.records i n rows)
    /\ JsonDecode.loads (Json.dumps (Spec.records i n rows))
       = Some (Spec.records i n rows)
    /\ Codec.utf_8_encode (Json.dumps (Spec.records i n rows)) = Some out
    /\ Codec.utf_8_decode out = Some (Json.dumps (Spec.records i n rows))
    /\ json_file w' = Some out
    /\ json_dir w' = true
    /\ (forall s, Forall Contract.plain_char s ->
                  Json.encode_basestring s = Spec.quoted s)
    /\ (forall c, 128 <= c -> Json.escape c = [c])
    /\ (forall dir prior log,
           exists w2,
             generate_fund_list big5_map (mkWorld (csv_file w) dir prior log)
             = (ReturnSuccess, w2)
             /\ json_file w2 = Some out /\ json_dir w2 = true).
Proof.
  intros Hrun.
  destruct (run_success_inv _ _ _ Hrun)
    as (lines & w1 & i & n & funds & out & Hr & Hlen & Hi & Hn & Hf & Hw & Hw').
  assert (Hfunds : Forall Spec.is_fund funds)
    by (apply (for_lines_funds _ _ _ _ _ Hf); constructor).
  destruct (for_lines_parsed _ _ _ _ _ Hf) as (rows & Hrows & Hrec).
  cbn [app] in Hrec. subst funds.
  destruct (write_chunks_ok _ _ _ Hw) as [b [Henc ->]]. cbn [app] in *.
  change (concat (Json.iterencode (Spec.records i n rows)))
    with (Json.dumps (Spec.records i n rows)) in Henc.
  exists lines, w1, i, n, rows, b.
  split; [exact Hr|]. split; [exact Hi|]. split; [exact Hn|].
  split; [exact Hrows|].
  split.
  { eapply Forall_impl; [|exact Hfunds]. intros d [x [y ->]]. reflexivity. }
  split; [apply dumps_document; exact Hfunds|].
  split; [apply loads_dumps; exact Hfunds|].
  split; [exact Henc|].
  split; [exact (utf_8_round_trip _ _ Henc)|].
  split; [subst w'; reflexivity|].
  split; [subst w'; reflexivity|].
  split; [exact basestring_plain|].
  split; [exact escape_plain|].
  intros dir prior log.
  destruct (run_same_csv big5_map w w' (mkWorld (csv_file w) dir prior log)
              Hrun eq_refl) as (w2 & Hrun2 & Hfile & Hdir & _).
  exists w2. subst w'. simpl in Hfile. auto.
Qed.

Lemma C6_output_document_witness :
  exists i n rows out,
    index col_id (split COMMA (strip Sample.header)) = Some i
    /\ index col_name (split COMMA (strip Sample.header)) = Some n
    /\ Forall2 (fun line row => Csv.next_reader [line] = Ok row)
               (skipn 3 Sample.lines) rows
    /\ JsonDecode.loads (Json.dumps (Spec.records i n rows))
       = Some (Spec.records i n rows)
    /\ Codec.utf_8_encode (Spec.document (Spec.records i n rows)) = Some out
    /\ json_file (snd (generate_fund_list Sample.big5_map
                         (Sample.world (Some Sample.raw)))) = Some out.
Proof.
  destruct (C6_output_document Sample.big5_map
              (Sample.world (Some Sample.raw))
              (snd (generate_fund_list Sample.big5_map
                      (Sample.world (Some Sample.raw)))))
    as (lines & w1 & i & n & rows & out & Hr & Hi & Hn & Hrows & _ & Hdoc
        & Hloads & Henc & _ & Hfile & _).
  - vm_compute; reflexivity.
  - assert (Hlines : lines = Sample.lines)
      by (vm_compute in Hr; inversion Hr; reflexivity).
    subst lines. exists i, n, rows, out.
    split; [exact Hi|]. split; [exact Hn|]. split; [exact Hrows|].
    split; [exact Hloads|]. split; [rewrite <- Hdoc; exact Henc|exact Hfile].
Defined.

(** ** The empty list *)

Lemma records_nil (i n : nat) (rows : list (list str)) :
  Spec.records i n rows = []
  <-> Forall (fun row => ~ Contract.accepted i n row) rows.
Proof.
  induction rows as [|row rows IH].
  - split; [constructor|reflexivity].
  - rewrite records_cons. destruct (Spec.accepted i n row) eqn:E.
    + split; [discriminate|]. intros H. inversion H as [|? ? Hrow _]; subst.
      exfalso. apply Hrow, accepted_iff, E.
    + rewrite IH. split.
      * intros H. constructor; [|exact H].
        intros Hacc. apply accepted_iff in Hacc. congruence.
      * intros H. inversion H; assumption.
Qed.

(** X7. On a successful run the output file is the empty list, the two
    octets of [[]], exactly when none of the rows the data lines parse
    into is accepted at the positions of [col_id] and [col_name] in the
    header line, that is when the records of those rows are none; in
    particular a file that ends with its header line succeeds and writes
    the empty list. *)
Theorem X7_no_records_gives_empty_list
  (big5_map : Z -> Z -> option Z) (w w' : World) :
  generate_fund_list big5_map w = (ReturnSuccess, w') ->
  exists lines w1 i n rows,
    read_lines big5_map (print w MsgReading) = (Ok lines, w1)
    /\ index col_id (split COMMA (strip (nth 2 lines []))) = Some i
    /\ index col_name (split COMMA (strip (nth 2 lines []))) = Some n
    /\ Forall2 (fun line row => Csv.next_reader [line] = Ok row)
               (skipn 3 lines) rows
    /\ for_lines i n [] (skipn 3 lines) = Ok (Spec.records i n rows)
    /\ (length lines = 3%nat -> rows = [])
    /\ (Spec.records i n rows = [] <-> json_file w' = Some [91; 93])
    /\ (Forall (fun row => ~ Contract.accepted i n row) rows
        <-> json_file w' = Some [91; 93]).
Proof.
  intros Hrun.
  destruct (run_success_inv _ _ _ Hrun)
    as (lines & w1 & i & n & funds & out & Hr & Hlen & Hi & Hn & Hf & Hw & ->).
  destruct (for_lines_parsed _ _ _ _ _ Hf) as (rows & Hrows & Hrec).
  cbn [app] in Hrec. subst funds.
  exists lines, w1, i, n, rows.
  split; [exact Hr|]. split; [exact Hi|]. split; [exact Hn|].
  split; [exact Hrows|]. split; [exact Hf|].
  assert (Hiff : Spec.records i n rows = []
                 <-> json_file
                       (print (set_json_file
                                 (makedirs
                                    (print w1
                                       (MsgWriting
                                          (length (Spec.records i n rows)))))
                                 out) MsgSuccess) = Some [91; 93]).
  { cbn [json_file print set_json_file].
    destruct (write_chunks_ok _ _ _ Hw) as [b [Henc ->]]. cbn [app].
    assert (Hfunds : Forall Spec.is_fund (Spec.records i n rows))
      by (apply (for_lines_funds _ _ _ _ _ Hf); constructor).
    destruct (Spec.records i n rows) as [|d funds].
    + cbn in Henc. inversion Henc; subst. tauto.
    + split; [discriminate|]. intros Hb. exfalso.
      change (concat (Json.iterencode (d :: funds)))
        with (Json.dumps (d :: funds)) in Henc.
      rewrite (dumps_document _ Hfunds) in Henc.
      unfold Spec.document in Henc. cbn [app] in Henc.
      cbn [Codec.utf_8_encode] in Henc.
      change (Codec.utf_8_encode_char 91) with (Some [91]) in Henc.
      change (Codec.utf_8_encode_char LF) with (Some [10]) in Henc.
      destruct (Codec.utf_8_encode _) as [rest|] in Henc; [|discriminate].
      cbn in Henc. inversion Henc; subst. inversion Hb. }
  split.
  - intros H3. rewrite skipn_all2 in Hrows by lia.
    inversion Hrows; reflexivity.
  - split; [exact Hiff|]. rewrite <- records_nil. exact Hiff.
Qed.

Lemma X7_no_records_gives_empty_list_witness :
  json_file
    (snd (generate_fund_list Sample.big5_map
            (Sample.world
               (Codec.utf_8_encode
                  (lit "a" ++ [LF] ++ lit "b" ++ [LF] ++ Sample.header)))))
  = Some [91; 93].
Proof.
  destruct (X7_no_records_gives_empty_list Sample.big5_map
              (Sample.world
                 (Codec.utf_8_encode
                    (lit "a" ++ [LF] ++ lit "b" ++ [LF] ++ Sample.header)))
              (snd (generate_fund_list Sample.big5_map
                      (Sample.world
                         (Codec.utf_8_encode
                            (lit "a" ++ [LF] ++ lit "b" ++ [LF]
                             ++ Sample.header))))))
    as (lines & w1 & i & n & rows & Hr & _ & _ & _ & _ & H3 & Hiff & _).
  - vm_compute; reflexivity.
  - apply Hiff. rewrite H3; [reflexivity|].
    vm_compute in Hr. inversion Hr; reflexivity.
Defined.
